(** * Chunked blob download: the async stream downloader

    A shallow embedding of
    [azure/storage/blob/aio/_download_async.py]: the chunk downloader, the
    chunk iterator and [StorageStreamDownloader] with its four offsets.

    Python integers are [Z]; [bytes] is [list byte]; [str] is a list of code
    points.  Coroutines are run to completion: an operation is a function
    from the stream state to an outcome that carries the new state and the
    network requests that were issued.  The only nondeterminism of the
    event loop, which of the running fetches [asyncio.wait] reports as
    done, is an explicit oracle.

    Left out, as nothing here depends on them: warnings, the progress hook,
    the [properties] of the blob, and the [if_match] condition that later
    requests carry (the service is a function of the requested range). *)

From Stdlib Require Import ZArith List Bool Lia Strings.Byte Permutation.
From Stdlib Require String.
Import ListNotations.
Open Scope Z_scope.

(** ** Python values *)

Definition len {A : Type} (l : list A) : Z := Z.of_nat (length l).

(** [sys.maxsize] on a 64-bit build. *)
Definition maxsize : Z := 2 ^ 63 - 1.

(** Index normalisation of a slice bound for a sequence of length [n]:
    a negative bound counts from the end, and the result is clamped to
    [0..n]. *)
Definition clamp_index (n i : Z) : Z :=
  if i <? 0 then Z.max 0 (i + n) else Z.min i n.

(** [l[a:b]]. *)
Definition py_slice {A : Type} (l : list A) (a b : Z) : list A :=
  let lo := clamp_index (len l) a in
  let hi := clamp_index (len l) b in
  firstn (Z.to_nat (hi - lo)) (skipn (Z.to_nat lo) l).

(** [l[a:]] and [l[:b]]. *)
Definition py_slice_from {A : Type} (l : list A) (a : Z) : list A :=
  skipn (Z.to_nat (clamp_index (len l) a)) l.

Definition py_slice_to {A : Type} (l : list A) (b : Z) : list A :=
  firstn (Z.to_nat (clamp_index (len l) b)) l.

(** [b"\x00" * n]: empty for a negative count. *)
Definition zeros (n : Z) : list byte := repeat x00 (Z.to_nat n).

(** A text codec, given by its [_buffer_decode]: the decoded code points and
    the number of bytes consumed, or [None] for a [UnicodeDecodeError]. *)
Definition Codec : Type := list byte -> bool -> option (list N * Z).

(** [codecs.BufferedIncrementalDecoder.decode]: the state of the decoder is
    the buffer of bytes not decoded yet. *)
Definition decoder_decode (c : Codec) (buffer input : list byte) (final : bool)
  : option (list byte * list N) :=
  let data := (buffer ++ input)%list in
  match c data final with
  | Some (result, consumed) => Some (py_slice_from data consumed, result)
  | None => None
  end.

(** [data.decode(encoding)]. *)
Definition bytes_decode (c : Codec) (data : list byte) : option (list N) :=
  match c data true with
  | Some (result, _) => Some result
  | None => None
  end.

(** The buffered content and the value returned by [read]: [bytes] or [str]. *)
Inductive Content : Type :=
| CBytes (b : list byte)
| CStr (t : list N).

Definition clen (c : Content) : Z :=
  match c with CBytes b => len b | CStr t => len t end.

Definition cslice (c : Content) (a b : Z) : Content :=
  match c with
  | CBytes x => CBytes (py_slice x a b)
  | CStr t => CStr (py_slice t a b)
  end.

Definition cslice_to (c : Content) (b : Z) : Content :=
  match c with
  | CBytes x => CBytes (py_slice_to x b)
  | CStr t => CStr (py_slice_to t b)
  end.

(** The messages of the usage errors. *)
Module Msg.
Import String.
Local Open Scope string_scope.
Definition both_size_and_chars : string :=
    "Cannot specify both size and chars.".
Definition chars_need_encoding : string :=
    "Must specify encoding to read chars.".
Definition text_mode_use_chars : string :=
    "Stream has been partially read in text mode. Please use chars.".
Definition bytes_mode_use_size : string :=
    "Stream has been partially read in bytes mode. Please use size.".
Definition text_mode_no_readinto : string :=
    "Stream has been partially read in text mode. readinto is not supported in text mode.".
Definition text_mode_no_chunks : string :=
    "Stream has been partially read in text mode. chunks is not supported in text mode.".
Definition not_seekable : string :=
    "Target stream handle must be seekable.".
Definition islice_stop : string :=
    "Stop argument for islice() must be None or an integer: 0 <= x <= sys.maxsize.".
Definition missing_content_range : string :=
    "Required Content-Range response header is missing or malformed.".
End Msg.

Inductive Error : Type :=
| ValueError (msg : String.string)
| TypeError
| UnicodeDecodeError
| HttpResponseError (status : Z)
| DecryptionFailed.

(** ** The range-fetch client *)

Record Response : Type := {
  body : list byte;
  content_length : Z;
  (** [parse_length_from_content_range(response.properties.content_range)] *)
  content_range_length : option Z;
  (** [response.properties.blob_type == 'PageBlob'] *)
  is_page_blob : bool
}.

Inductive HttpResult : Type :=
| HttpOk (r : Response)
| HttpErr (status : Z) (has_response : bool).

Inductive Request : Type :=
| ReqDownload (range : option (Z * Z))
| ReqPageRanges
| ReqProperties.

(** What the downloader consumes from outside this file: the service and
    the encryption provider. *)
Record Env : Type := {
  (** [self._clients.blob.download(range=...)], [None] for no range header *)
  blob_download : option (Z * Z) -> HttpResult;
  (** [get_page_ranges_result(page_ranges)[0]], [None] for an
      [HttpResponseError] *)
  get_page_ranges : option (list (Z * Z));
  (** [encryption_options] has a key or a resolver *)
  encryption_active : bool;
  (** the range and offset adjustment of the encryption provider *)
  get_adjusted_download_range_and_offset :
    Z -> Z -> option Z -> (Z * Z) * (Z * Z);
  decrypt_blob : list byte -> Z -> Z -> option (list byte);
  adjust_blob_size_for_encryption : Z -> Z;
  is_encryption_v2 : bool
}.

(** Modelled from the spec: [process_range_and_offset] of [_download.py] is
    not among the sources.  "Without encryption this is the identity
    mapping"; with encryption the provider's adjustment is used. *)
Definition process_range_and_offset (env : Env) (start_range end_range : Z)
    (length : option Z) : (Z * Z) * (Z * Z) :=
  if encryption_active env
  then get_adjusted_download_range_and_offset env start_range end_range length
  else ((start_range, end_range), (0, 0)).

Definition process_content (env : Env) (data : Response)
    (start_offset end_offset : Z) : Error + list byte :=
  let content := body data in
  if encryption_active env then
    match decrypt_blob env content start_offset end_offset with
    | Some plain => inr plain
    | None => inl DecryptionFailed
    end
  else inr content.

(** ** The chunk downloader *)

(** Modelled from the spec: the constructor of [_ChunkDownloader] is in
    [_download.py], which is not among the sources.  These are the fields
    the async downloader reads: the plan (a [DownloadPlan]: total size,
    chunk size, start and end offset, non-empty ranges), whether chunks are
    written in parallel, and the sink base that [_write_to_stream] seeks
    from. *)
Record Downloader : Type := {
  dl_non_empty_ranges : option (list (Z * Z));
  total_size : Z;
  chunk_size : Z;
  start_index : Z;
  end_index : Z;
  parallel : bool;
  (** the position of the sink when the downloader was made, kept for
      parallel writes only *)
  stream_start : option Z
}.

(** Modelled from the spec: [_ChunkDownloader.get_chunk_offsets] is not among
    the sources.  "A lazy sequence of chunk start offsets (chunk size is
    fixed except for the final, possibly shorter, chunk)": the offsets
    [start_index], [start_index + chunk_size], ... below [end_index].  A
    chunk size that is not positive gives no plan here. *)
Fixpoint offsets_from (n : nat) (index step : Z) : list Z :=
  match n with
  | O => []
  | S n' => index :: offsets_from n' (index + step) step
  end.

(** Modelled from the spec: the number of chunks of the plan, the window
    length divided by the chunk size, rounded up. *)
Definition chunk_count (d : Downloader) : nat :=
  if chunk_size d <=? 0 then O
  else Z.to_nat ((end_index d - start_index d + chunk_size d - 1) / chunk_size d).

(** Modelled from the spec: [_ChunkDownloader.get_chunk_offsets], the
    generator run to its end. *)
Definition get_chunk_offsets (d : Downloader) : list Z :=
  offsets_from (chunk_count d) (start_index d) (chunk_size d).

(** Modelled from the spec: [_ChunkDownloader._calculate_range] is not among
    the sources.  The chunk that starts at [chunk_start] ends (exclusive)
    [chunk_size] later, the final one at [end_index]. *)
Definition _calculate_range (d : Downloader) (chunk_start : Z) : Z * Z :=
  if chunk_start + chunk_size d >? end_index d
  then (chunk_start, end_index d)
  else (chunk_start, chunk_start + chunk_size d).

(** Modelled from the spec: [_ChunkDownloader._do_optimize] is not among the
    sources.  "Given [non_empty_ranges] (sorted, disjoint) and a candidate
    wire sub-range, decide whether the sub-range lies entirely outside all
    non-empty ranges"; without a range map the optimization is off. *)
Definition range_outside (given_start given_end : Z) (r : Z * Z) : bool :=
  (given_end <? fst r) || (snd r <? given_start).

(** Modelled from the spec: [_ChunkDownloader._do_optimize], the sparse-skip
    rule on the range map of the downloader. *)
Definition _do_optimize (d : Downloader) (given_start given_end : Z) : bool :=
  match dl_non_empty_ranges d with
  | None => false
  | Some ranges => forallb (range_outside given_start given_end) ranges
  end.

Inductive Fetch : Type :=
| Fetched (chunk_data : list byte) (content_len : Z) (reqs : list Request)
| FetchFailed (e : Error) (reqs : list Request).

Definition _download_chunk (env : Env) (d : Downloader)
    (chunk_start chunk_end : Z) : Fetch :=
  let '(download_range, offset) :=
    process_range_and_offset env chunk_start chunk_end (Some chunk_end) in
  if _do_optimize d (fst download_range) (snd download_range) then
    let content_len := snd download_range - fst download_range + 1 in
    Fetched (zeros content_len) content_len []
  else
    let req := ReqDownload (Some download_range) in
    match blob_download env (Some download_range) with
    | HttpErr status _ => FetchFailed (HttpResponseError status) [req]
    | HttpOk response =>
        match process_content env response (fst offset) (snd offset) with
        | inl e => FetchFailed e [req]
        | inr chunk_data => Fetched chunk_data (content_length response) [req]
        end
    end.

Definition yield_chunk (env : Env) (d : Downloader) (chunk_start : Z) : Fetch :=
  let '(chunk_start, chunk_end) := _calculate_range d chunk_start in
  _download_chunk env d chunk_start (chunk_end - 1).

(** A writable stream: a [BytesIO], or the caller's sink. *)
Record Sink : Type := {
  sk_data : list byte;
  sk_pos : Z;
  sk_seekable : bool
}.

Definition sink_seek (k : Sink) (pos : Z) : Sink :=
  {| sk_data := sk_data k; sk_pos := pos; sk_seekable := sk_seekable k |}.

(** [stream.write(data)] at the current position: a position past the end is
    padded with zero bytes, bytes under the written span are replaced. *)
Definition sink_write (k : Sink) (data : list byte) : Sink :=
  let p := Z.to_nat (sk_pos k) in
  let old := sk_data k in
  let head := (firstn p old ++ repeat x00 (p - length old))%list in
  {| sk_data := (head ++ data ++ skipn (p + length data) old)%list;
     sk_pos := sk_pos k + len data;
     sk_seekable := sk_seekable k |}.

Definition _write_to_stream (d : Downloader) (k : Sink)
    (chunk_data : list byte) (chunk_start : Z) : Sink :=
  if parallel d then
    match stream_start d with
    | Some base =>
        sink_write (sink_seek k (base + (chunk_start - start_index d))) chunk_data
    | None => sink_write k chunk_data
    end
  else sink_write k chunk_data.

Definition process_chunk (env : Env) (d : Downloader) (k : Sink)
    (chunk_start : Z) : option Error * Sink * list Request :=
  let '(chunk_start, chunk_end) := _calculate_range d chunk_start in
  match _download_chunk env d chunk_start (chunk_end - 1) with
  | FetchFailed e reqs => (Some e, k, reqs)
  | Fetched chunk_data _ reqs =>
      let length := chunk_end - chunk_start in
      if length >? 0
      then (None, _write_to_stream d k chunk_data chunk_start, reqs)
      else (None, k, reqs)
  end.

(** ** The scheduling loop of [read] and [readinto]

    The loop is run on the plan alone and yields the trace of what it did;
    the trace is then replayed on the sink.  [asyncio.wait] with
    [FIRST_COMPLETED] returns a non-empty set of finished tasks: the oracle
    names, at each wait, one running task that has finished and says for
    every other running task whether it has finished too. *)

Inductive Event : Type :=
| Dispatch (chunk : Z)
| Complete (chunk : Z).

Definition Oracle : Type := nat -> nat * (nat -> bool).

Fixpoint split_done (first : nat) (also : nat -> bool) (i : nat)
    (running : list Z) : list Z * list Z :=
  match running with
  | [] => ([], [])
  | t :: rest =>
      let '(done, pending) := split_done first also (S i) rest in
      if (i =? first)%nat || also i
      then (t :: done, pending)
      else (done, t :: pending)
  end.

Definition wait_first_completed (o : nat * (nat -> bool)) (running : list Z)
  : list Z * list Z :=
  split_done (fst o mod length running)%nat (snd o) 0%nat running.

(** The final [asyncio.wait(running_futures)]: every task still running
    completes, in an order the loop does not control. *)
Fixpoint drain (fuel : nat) (orc : Oracle) (step : nat) (running : list Z)
  : list Event :=
  match fuel with
  | O => []
  | S fuel' =>
      match running with
      | [] => []
      | _ :: _ =>
          let '(done, pending) := wait_first_completed (orc step) running in
          (map Complete done ++ drain fuel' orc (S step) pending)%list
      end
  end.

(** [while running_futures: ...]: wait for some task, then start one chunk
    of the plan for every finished task; [StopIteration] leaves the loop. *)
Fixpoint dispatch_loop (fuel : nat) (orc : Oracle) (step : nat)
    (chunks_iter running : list Z) : list Event :=
  match fuel with
  | O => []
  | S fuel' =>
      match running with
      | [] => []
      | _ :: _ =>
          let '(done, pending) := wait_first_completed (orc step) running in
          let n := length done in
          let next := firstn n chunks_iter in
          (map Complete done ++ map Dispatch next ++
           (if (length chunks_iter <? n)%nat
            then drain fuel' orc (S step) (pending ++ next)
            else dispatch_loop fuel' orc (S step) (skipn n chunks_iter)
                   (pending ++ next)))%list
      end
  end.

(** The whole loop for a plan: [islice(chunks_iter, 0, max_concurrency)]
    starts the first tasks.  Every pass completes a task, so as many passes
    as the plan has chunks are enough. *)
Definition schedule (orc : Oracle) (max_concurrency : Z) (plan : list Z)
  : list Event :=
  let first := firstn (Z.to_nat max_concurrency) plan in
  (map Dispatch first ++
   dispatch_loop (S (length plan)) orc 0%nat
     (skipn (Z.to_nat max_concurrency) plan) first)%list.

(** Replaying a trace: a dispatched task issues its request, a completed task
    has written its chunk, and the first failed task that is collected
    ends the operation. *)
Fixpoint run_events (env : Env) (d : Downloader) (evs : list Event) (k : Sink)
  : option Error * Sink * list Request :=
  match evs with
  | [] => (None, k, [])
  | Dispatch c :: evs' =>
      let '(_, _, reqs) := process_chunk env d k c in
      let '(r, k', reqs') := run_events env d evs' k in
      (r, k', (reqs ++ reqs')%list)
  | Complete c :: evs' =>
      match process_chunk env d k c with
      | (Some e, _, _) => (Some e, k, [])
      | (None, k', _) => run_events env d evs' k'
      end
  end.

(** Number of tasks in flight after a trace. *)
Fixpoint in_flight (evs : list Event) : Z :=
  match evs with
  | [] => 0
  | Dispatch _ :: evs' => in_flight evs' + 1
  | Complete _ :: evs' => in_flight evs' - 1
  end.

Definition dispatched (evs : list Event) : list Z :=
  flat_map (fun e => match e with Dispatch c => [c] | Complete _ => [] end) evs.

Definition completed (evs : list Event) : list Z :=
  flat_map (fun e => match e with Complete c => [c] | Dispatch _ => [] end) evs.

(** ** The stream downloader *)

Record Config : Type := {
  _start_range : option Z;
  _end_range : option Z;
  _max_concurrency : Z;
  _encoding : option Codec;
  _validate_content : bool;
  max_single_get_size : Z;
  max_chunk_get_size : Z
}.

Record Stream : Type := {
  config : Config;
  size : Z;
  _file_size : Z;
  _current_content : Content;
  _non_empty_ranges : option (list (Z * Z));
  _download_offset : Z;
  _raw_download_offset : Z;
  _read_offset : Z;
  _current_content_offset : Z;
  _text_mode : option bool;
  (** the buffer of the incremental decoder, once there is one *)
  _decoder : option (list byte);
  _first_chunk : bool;
  _download_start : Z
}.

Definition set_current_content (s : Stream) (c : Content) : Stream :=
  {| config := config s; size := size s; _file_size := _file_size s;
     _current_content := c; _non_empty_ranges := _non_empty_ranges s;
     _download_offset := _download_offset s;
     _raw_download_offset := _raw_download_offset s;
     _read_offset := _read_offset s;
     _current_content_offset := _current_content_offset s;
     _text_mode := _text_mode s; _decoder := _decoder s;
     _first_chunk := _first_chunk s; _download_start := _download_start s |}.

(** The four offsets at once. *)
Definition set_offsets (s : Stream) (download raw read content : Z) : Stream :=
  {| config := config s; size := size s; _file_size := _file_size s;
     _current_content := _current_content s;
     _non_empty_ranges := _non_empty_ranges s;
     _download_offset := download;
     _raw_download_offset := raw;
     _read_offset := read;
     _current_content_offset := content;
     _text_mode := _text_mode s; _decoder := _decoder s;
     _first_chunk := _first_chunk s; _download_start := _download_start s |}.

Definition set_text_mode (s : Stream) (m : option bool) (dec : option (list byte))
  : Stream :=
  {| config := config s; size := size s; _file_size := _file_size s;
     _current_content := _current_content s;
     _non_empty_ranges := _non_empty_ranges s;
     _download_offset := _download_offset s;
     _raw_download_offset := _raw_download_offset s;
     _read_offset := _read_offset s;
     _current_content_offset := _current_content_offset s;
     _text_mode := m; _decoder := dec;
     _first_chunk := _first_chunk s; _download_start := _download_start s |}.

Definition set_first_chunk (s : Stream) (b : bool) : Stream :=
  {| config := config s; size := size s; _file_size := _file_size s;
     _current_content := _current_content s;
     _non_empty_ranges := _non_empty_ranges s;
     _download_offset := _download_offset s;
     _raw_download_offset := _raw_download_offset s;
     _read_offset := _read_offset s;
     _current_content_offset := _current_content_offset s;
     _text_mode := _text_mode s; _decoder := _decoder s;
     _first_chunk := b; _download_start := _download_start s |}.

(** Advance the consumer's two cursors by what was just delivered. *)
Definition consume (s : Stream) (n : Z) : Stream :=
  set_offsets s (_download_offset s) (_raw_download_offset s)
    (_read_offset s + n) (_current_content_offset s + n).

(** Account for a downloaded chunk. *)
Definition downloaded (s : Stream) (n raw : Z) : Stream :=
  set_offsets s (_download_offset s + n) (_raw_download_offset s + raw)
    (_read_offset s) (_current_content_offset s).

Definition _download_complete (env : Env) (s : Stream) : bool :=
  if is_encryption_v2 env
  then _download_offset s >=? size s
  else _raw_download_offset s >=? size s.

Definition _complete_read (s : Stream) : Stream :=
  set_offsets s (size s) (size s) (size s) (clen (_current_content s)).

Inductive Outcome (A : Type) : Type :=
| Ret (v : A) (s : Stream) (reqs : list Request)
| Raise (e : Error) (s : Stream) (reqs : list Request).
Arguments Ret {A} v s reqs.
Arguments Raise {A} e s reqs.

Definition outcome_state {A : Type} (o : Outcome A) : Stream :=
  match o with Ret _ s _ => s | Raise _ s _ => s end.

Definition outcome_requests {A : Type} (o : Outcome A) : list Request :=
  match o with Ret _ _ r => r | Raise _ _ r => r end.

Definition is_some {A : Type} (o : option A) : bool :=
  match o with Some _ => true | None => false end.

(** Python truth of the tri-state [_text_mode]. *)
Definition in_text_mode (s : Stream) : bool :=
  match _text_mode s with Some true => true | _ => false end.

Definition in_bytes_mode (s : Stream) : bool :=
  match _text_mode s with Some false => true | _ => false end.

Definition has_encoding (s : Stream) : bool := is_some (_encoding (config s)).

Definition empty_result (s : Stream) : Content :=
  if has_encoding s then CStr [] else CBytes [].

Definition is_zero (chars : option Z) : bool :=
  match chars with Some c => c =? 0 | None => false end.

(** [output_stream.write(x)] then [getvalue()] for streams written in order. *)
Definition capp (out x : Content) : Content :=
  match out, x with
  | CBytes a, CBytes b => CBytes (a ++ b)
  | CStr a, CStr b => CStr (a ++ b)
  | _, _ => out
  end.

Definition same_kind (text : bool) (c : Content) : bool :=
  match c with CBytes _ => negb text | CStr _ => text end.

(** [_AsyncChunkDownloader(...)] as the stream makes it: [position] is where
    the sink stands at that moment. *)
Definition new_downloader (s : Stream) (start : Z) (par : bool)
    (position : Z) : Downloader :=
  {| dl_non_empty_ranges := _non_empty_ranges s;
     total_size := size s;
     chunk_size := max_chunk_get_size (config s);
     start_index := start;
     end_index := _download_start s + size s;
     parallel := par;
     stream_start := if par then Some position else None |}.

(** The first consumption call fixes the mode; entering text mode decodes
    the buffered bytes. *)
Definition enter_mode (env : Env) (s : Stream) (chars : option Z)
  : Error * Stream + Stream :=
  if negb (in_text_mode s) && is_some chars then
    let s1 := set_text_mode s (Some true) (Some []) in
    match _encoding (config s), _current_content s with
    | Some codec, CBytes b =>
        match decoder_decode codec [] b (_download_complete env s) with
        | Some (buffer, text) =>
            inr (set_current_content (set_text_mode s (Some true) (Some buffer))
                   (CStr text))
        | None => inl (UnicodeDecodeError, s1)
        end
    | _, _ => inl (TypeError, s1)
    end
  else
    match _text_mode s with
    | None => inr (set_text_mode s (Some false) (_decoder s))
    | Some _ => inr s
    end.

(** [data = output_stream.getvalue()] and the decoding of a bytes-mode
    result when an encoding is configured. *)
Definition finish_read (s : Stream) (data : Content) (reqs : list Request)
  : Outcome Content :=
  if in_text_mode s then Ret data s reqs
  else
    match _encoding (config s) with
    | None => Ret data s reqs
    | Some codec =>
        match data with
        | CBytes b =>
            match bytes_decode codec b with
            | Some t => Ret (CStr t) s reqs
            | None => Raise UnicodeDecodeError s reqs
            end
        | CStr _ => Raise TypeError s reqs
        end
    end.

(** [while (chunk := next(chunks_iter, None)) is not None and remaining > 0]. *)
Fixpoint chunk_loop (env : Env) (d : Downloader) (chunks_iter : list Z)
    (s : Stream) (out : Content) (remaining : Z) (reqs : list Request)
  : Outcome Content :=
  match chunks_iter with
  | [] => finish_read s out reqs
  | chunk :: rest =>
      if remaining >? 0 then
        match yield_chunk env d chunk with
        | FetchFailed e r => Raise e s (reqs ++ r)
        | Fetched chunk_data content_len r =>
            let s1 := downloaded s (len chunk_data) content_len in
            let decoded :=
              if in_text_mode s1 then
                match _encoding (config s1), _decoder s1 with
                | Some codec, Some buffer =>
                    match decoder_decode codec buffer chunk_data
                            (_download_complete env s1) with
                    | Some (buffer', text) =>
                        inr (set_text_mode s1 (Some true) (Some buffer'),
                             CStr text)
                    | None => inl UnicodeDecodeError
                    end
                | _, _ => inl TypeError
                end
              else inr (s1, CBytes chunk_data) in
            match decoded with
            | inl e => Raise e s1 (reqs ++ r)
            | inr (s2, content) =>
                let s3 := set_current_content s2 content in
                let piece :=
                  if remaining <? clen content
                  then cslice_to content remaining
                  else content in
                let read := clen piece in
                let s4 :=
                  set_offsets s3 (_download_offset s3) (_raw_download_offset s3)
                    (_read_offset s3 + read) read in
                chunk_loop env d rest s4 (capp out piece) (remaining - read)
                  (reqs ++ r)
            end
        end
      else finish_read s out reqs
  end.

(** The part of [read] after the mode is fixed. *)
Definition read_data (env : Env) (orc : Oracle) (s : Stream) (size0 : Z)
    (chars : option Z) : Outcome Content :=
  let text := in_text_mode s in
  let size1 :=
    if text then
      match chars with
      | Some c => if c =? 0 then maxsize else c
      | None => maxsize
      end
    else if size0 >? 0 then size0 else maxsize in
  let readall := size1 =? maxsize in
  let start := _current_content_offset s in
  let length :=
    Z.min (clen (_current_content s) - _current_content_offset s) size1 in
  let piece := cslice (_current_content s) start (start + length) in
  if negb (same_kind text piece) then Raise TypeError s []
  else
    let read := clen piece in
    let s1 := consume s read in
    let remaining := size1 - read in
    if (remaining >? 0) && negb (_download_complete env s1) then
      let start := _download_start s1 + _download_offset s1 in
      let par := _max_concurrency (config s1) >? 1 in
      let d := new_downloader s1 start par read in
      let s2 := set_first_chunk s1 false in
      let chunks_iter := get_chunk_offsets d in
      if readall && negb text then
        if (_max_concurrency (config s2) <? 0) ||
           (_max_concurrency (config s2) >? maxsize)
        then Raise (ValueError Msg.islice_stop) s2 []
        else
          let k := {| sk_data := match piece with CBytes b => b | CStr _ => [] end;
                      sk_pos := read; sk_seekable := true |} in
          match run_events env d
                  (schedule orc (_max_concurrency (config s2)) chunks_iter) k with
          | (Some e, _, reqs) => Raise e s2 reqs
          | (None, k', reqs) =>
              finish_read (_complete_read s2) (CBytes (sk_data k')) reqs
          end
      else chunk_loop env d chunks_iter s2 piece remaining []
    else finish_read s1 piece [].

(** The argument checks that open [read]: the message of the [ValueError],
    if one is raised. *)
Definition usage_check (s : Stream) (size0 : Z) (chars : option Z)
  : option String.string :=
  if (size0 >? -1) && is_some chars then Some Msg.both_size_and_chars
  else if negb (has_encoding s) && is_some chars then
    Some Msg.chars_need_encoding
  else if in_text_mode s && (size0 >? -1) then Some Msg.text_mode_use_chars
  else if in_bytes_mode s && is_some chars then Some Msg.bytes_mode_use_size
  else None.

Definition read (env : Env) (orc : Oracle) (s : Stream) (size0 : Z)
    (chars : option Z) : Outcome Content :=
  match usage_check s size0 chars with
  | Some msg => Raise (ValueError msg) s []
  | None =>
      if (size0 =? 0) || is_zero chars ||
         (_download_complete env s &&
          (_current_content_offset s >=? clen (_current_content s))) then
        Ret (empty_result s) s []
      else
        match enter_mode env s chars with
        | inl (e, s') => Raise e s' []
        | inr s1 => read_data env orc s1 size0 chars
        end
  end.

Definition readall (env : Env) (orc : Oracle) (s : Stream) : Outcome Content :=
  read env orc s (-1) None.

(** [readinto]: the outcome and the caller's stream as the call leaves it. *)
Definition readinto (env : Env) (orc : Oracle) (s : Stream) (stream : Sink)
  : Outcome Z * Sink :=
  if in_text_mode s then
    (Raise (ValueError Msg.text_mode_no_readinto) s [], stream)
  else
    let par := _max_concurrency (config s) >? 1 in
    if par && negb (sk_seekable stream) then
      (Raise (ValueError Msg.not_seekable) s [], stream)
    else
      let remaining_size := size s - _read_offset s in
      if remaining_size <=? 0 then (Ret 0 s [], stream)
      else
        let current_remaining :=
          clen (_current_content s) - _current_content_offset s in
        let start := _current_content_offset s in
        match cslice (_current_content s) start (start + current_remaining) with
        | CStr _ => (Raise TypeError s [], stream)
        | CBytes piece =>
            let stream1 := sink_write stream piece in
            let count := len piece in
            let s1 := consume s count in
            if _download_complete env s1 then (Ret remaining_size s1 [], stream1)
            else
              let data_start := _download_start s1 + _read_offset s1 in
              let d := new_downloader s1 data_start par (sk_pos stream1) in
              let dl_tasks := get_chunk_offsets d in
              if (_max_concurrency (config s1) <? 0) ||
                 (_max_concurrency (config s1) >? maxsize)
              then (Raise (ValueError Msg.islice_stop) s1 [], stream1)
              else
                match run_events env d
                        (schedule orc (_max_concurrency (config s1)) dl_tasks)
                        stream1 with
                | (Some e, stream2, reqs) => (Raise e s1 reqs, stream2)
                | (None, stream2, reqs) =>
                    (Ret remaining_size (_complete_read s1) reqs, stream2)
                end
        end.

(** ** The chunk iterator *)

Record ChunkIterator : Type := {
  it_size : Z;
  it_chunk_size : Z;
  it_current_content : list byte;
  it_downloader : option Downloader;
  (** the offsets the generator has still to give, once it exists *)
  it_iter_chunks : option (list Z);
  it_complete : bool
}.

Definition it_update (it : ChunkIterator) (content : list byte)
    (chunks_iter : option (list Z)) (complete : bool) : ChunkIterator :=
  {| it_size := it_size it; it_chunk_size := it_chunk_size it;
     it_current_content := content;
     it_downloader := it_downloader it;
     it_iter_chunks := chunks_iter;
     it_complete := complete |}.

Definition _get_chunk_data (it : ChunkIterator) : list byte * ChunkIterator :=
  (py_slice_to (it_current_content it) (it_chunk_size it),
   it_update it (py_slice_from (it_current_content it) (it_chunk_size it))
     (it_iter_chunks it) (it_complete it)).

Inductive Next : Type :=
| StopAsyncIteration (it : ChunkIterator)
| Yield (chunk : list byte) (it : ChunkIterator) (reqs : list Request)
| NextRaise (e : Error) (it : ChunkIterator) (reqs : list Request).

Definition __anext__ (env : Env) (it : ChunkIterator) : Next :=
  if it_complete it then StopAsyncIteration it
  else
    match it_downloader it with
    | None =>
        if len (it_current_content it) >? it_chunk_size it then
          let '(chunk, it') := _get_chunk_data it in Yield chunk it' []
        else
          Yield (it_current_content it)
            (it_update it (it_current_content it) (it_iter_chunks it) true) []
    | Some d =>
        let chunks_iter :=
          match it_iter_chunks it with
          | None => get_chunk_offsets d
          | Some l => l
          end in
        let it1 := it_update it (it_current_content it) (Some chunks_iter) false in
        if len (it_current_content it1) >=? it_chunk_size it1 then
          let '(chunk, it') := _get_chunk_data it1 in Yield chunk it' []
        else
          match chunks_iter with
          | [] =>
              let it2 := it_update it1 (it_current_content it1) (Some []) true in
              match it_current_content it2 with
              | [] => StopAsyncIteration it2
              | _ :: _ => Yield (it_current_content it2) it2 []
              end
          | chunk :: rest =>
              let it2 := it_update it1 (it_current_content it1) (Some rest) false in
              match yield_chunk env d chunk with
              | FetchFailed e r => NextRaise e it2 r
              | Fetched chunk_data _ r =>
                  let it3 :=
                    it_update it2 (it_current_content it2 ++ chunk_data)
                      (Some rest) false in
                  let '(chunk, it') := _get_chunk_data it3 in Yield chunk it' r
              end
          end
    end.

(** [chunks()].  The buffered content is a [str] only in text mode, which is
    refused first. *)
Definition chunks (env : Env) (s : Stream) : Error + ChunkIterator :=
  if in_text_mode s then inl (ValueError Msg.text_mode_no_chunks)
  else
    let iter_downloader :=
      if negb (_first_chunk s) || negb (_download_complete env s) then
        let start :=
          if _first_chunk s
          then _download_start s + clen (_current_content s)
          else _download_start s in
        Some (new_downloader s start false 0)
      else None in
    match (if _first_chunk s then _current_content s else CBytes []) with
    | CStr _ => inl TypeError
    | CBytes initial_content =>
        inr {| it_size := size s;
               it_chunk_size := max_chunk_get_size (config s);
               it_current_content := initial_content;
               it_downloader := iter_downloader;
               it_iter_chunks := None;
               it_complete := size s =? 0 |}
    end.

(** [async for chunk in it]: all the chunks up to [StopAsyncIteration]. *)
Inductive Iteration : Type :=
| Exhausted (chunks : list (list byte)) (reqs : list Request)
| Failed (e : Error) (chunks : list (list byte)) (reqs : list Request)
| OutOfFuel.

Fixpoint iterate (fuel : nat) (env : Env) (it : ChunkIterator) : Iteration :=
  match fuel with
  | O => OutOfFuel
  | S fuel' =>
      match __anext__ env it with
      | StopAsyncIteration _ => Exhausted [] []
      | NextRaise e _ r => Failed e [] r
      | Yield chunk it' r =>
          match iterate fuel' env it' with
          | Exhausted cs rs => Exhausted (chunk :: cs) (r ++ rs)
          | Failed e cs rs => Failed e (chunk :: cs) (r ++ rs)
          | OutOfFuel => OutOfFuel
          end
      end
  end.

(** ** The initial request *)

Record Initial : Type := {
  in_size : Z;
  in_file_size : Z;
  in_response : Response
}.

(** The [try] block of [_initial_request] with its 416 handler. *)
Definition initial_download (env : Env) (cfg : Config) (initial_range : Z * Z)
  : (Error + Initial) * list Request :=
  let req := ReqDownload (Some initial_range) in
  match blob_download env (Some initial_range) with
  | HttpOk response =>
      match content_range_length response with
      | None => (inl (ValueError Msg.missing_content_range), [req])
      | Some n =>
          let file_size := adjust_blob_size_for_encryption env n in
          match _end_range cfg, _start_range cfg with
          | Some e, Some s =>
              (inr {| in_size := Z.min (file_size - s) (e - s + 1);
                      in_file_size := file_size; in_response := response |},
               [req])
          | Some _, None => (inl TypeError, [req])
          | None, Some s =>
              (inr {| in_size := file_size - s;
                      in_file_size := file_size; in_response := response |},
               [req])
          | None, None =>
              (inr {| in_size := file_size;
                      in_file_size := file_size; in_response := response |},
               [req])
          end
      end
  | HttpErr status has_response =>
      if negb (is_some (_start_range cfg)) && has_response && (status =? 416)
      then
        match blob_download env None with
        | HttpOk response =>
            (inr {| in_size := 0; in_file_size := 0; in_response := response |},
             [req; ReqDownload None])
        | HttpErr status' _ =>
            (inl (HttpResponseError status'), [req; ReqDownload None])
        end
      else (inl (HttpResponseError status), [req])
  end.

Definition _initial_request (env : Env) (cfg : Config)
    (initial_range initial_offset : Z * Z) : (Error + Stream) * list Request :=
  match initial_download env cfg initial_range with
  | (inl e, reqs) => (inl e, reqs)
  | (inr i, reqs) =>
      let response := in_response i in
      let content :=
        if in_size i =? 0 then inr []
        else process_content env response (fst initial_offset)
               (snd initial_offset) in
      match content with
      | inl e => (inl e, reqs)
      | inr current_content =>
          let '(ranges, reqs') :=
            if is_page_blob response
            then (get_page_ranges env, (reqs ++ [ReqPageRanges])%list)
            else (None, reqs) in
          (inr {| config := cfg;
                  size := in_size i;
                  _file_size := in_file_size i;
                  _current_content := CBytes current_content;
                  _non_empty_ranges := ranges;
                  _download_offset := 0 + len current_content;
                  _raw_download_offset := 0 + content_length response;
                  _read_offset := 0;
                  _current_content_offset := 0;
                  _text_mode := None;
                  _decoder := None;
                  _first_chunk := true;
                  _download_start :=
                    match _start_range cfg with Some s => s | None => 0 end |},
           reqs')
      end
  end.

(** The first range to request and the offsets of the caller's window in
    its decrypted body, as [_setup] computes them. *)
Definition initial_range_and_offset (env : Env) (cfg : Config)
  : (Z * Z) * (Z * Z) :=
  let first_get_size :=
    if negb (_validate_content cfg)
    then max_single_get_size cfg else max_chunk_get_size cfg in
  let initial_request_start :=
    match _start_range cfg with Some s => s | None => 0 end in
  let initial_request_end :=
    match _end_range cfg with
    | Some e =>
        if e - initial_request_start <? first_get_size
        then e else initial_request_start + first_get_size - 1
    | None => initial_request_start + first_get_size - 1
    end in
  process_range_and_offset env initial_request_start initial_request_end
    (_end_range cfg).

(** [_setup]: with encryption the properties are requested first (that
    request is taken to succeed), then the initial request is made. *)
Definition _setup (env : Env) (cfg : Config) : (Error + Stream) * list Request :=
  let pre := if encryption_active env then [ReqProperties] else [] in
  let '(initial_range, initial_offset) := initial_range_and_offset env cfg in
  let '(r, reqs) := _initial_request env cfg initial_range initial_offset in
  (r, (pre ++ reqs)%list).

(** ** A service that stores one blob

    Used to run the operations on concrete inputs: a ranged request past the
    end of the blob is answered with 416, any other with the bytes of the
    range. *)

Definition serve (blob : list byte) (page : bool) (range : option (Z * Z))
  : HttpResult :=
  match range with
  | None =>
      HttpOk {| body := blob; content_length := len blob;
                content_range_length := None; is_page_blob := page |}
  | Some (a, b) =>
      if (0 <=? a) && (a <? len blob) then
        HttpOk {| body := py_slice blob a (b + 1);
                  content_length := len (py_slice blob a (b + 1));
                  content_range_length := Some (len blob);
                  is_page_blob := page |}
      else HttpErr 416 true
  end.

Definition plain_env (blob : list byte) (ranges : option (list (Z * Z))) : Env :=
  {| blob_download := serve blob (is_some ranges);
     get_page_ranges := ranges;
     encryption_active := false;
     get_adjusted_download_range_and_offset := fun a b _ => ((a, b), (0, 0));
     decrypt_blob := fun data _ _ => Some data;
     adjust_blob_size_for_encryption := fun n => n;
     is_encryption_v2 := false |}.

(** The oracle under which one task finishes at a time, oldest first. *)
Definition fifo : Oracle := fun _ => (0%nat, fun _ => false).

(** The oracle under which every running task has finished at each wait. *)
Definition all_done : Oracle := fun _ => (0%nat, fun _ => true).

(** An oracle under which tasks finish out of order: at the [n]-th wait the
    running task of index [n + 1] (modulo their number) has finished. *)
Definition out_of_order : Oracle := fun n => (S n, fun _ => false).

Definition default_config (chunk : Z) (conc : Z) : Config :=
  {| _start_range := None; _end_range := None; _max_concurrency := conc;
     _encoding := None; _validate_content := false;
     max_single_get_size := chunk; max_chunk_get_size := chunk |}.

Definition bytes_of (l : list Z) : list byte :=
  map (fun z => match Byte.of_N (Z.to_N z) with Some b => b | None => x00 end) l.

(** Latin-1: every byte is one code point. *)
Definition latin1 : Codec :=
  fun data _ => Some (map Byte.to_N data, len data).

Definition text_config (chunk : Z) (conc : Z) : Config :=
  {| _start_range := None; _end_range := None; _max_concurrency := conc;
     _encoding := Some latin1; _validate_content := false;
     max_single_get_size := chunk; max_chunk_get_size := chunk |}.

Definition ranged_config (first last chunk : Z) : Config :=
  {| _start_range := Some first; _end_range := Some last;
     _max_concurrency := 1;
     _encoding := None; _validate_content := false;
     max_single_get_size := chunk; max_chunk_get_size := chunk |}.

Definition three_bytes : list byte := bytes_of [1; 2; 3].
Definition ten_bytes : list byte := bytes_of [1; 2; 3; 4; 5; 6; 7; 8; 9; 10].

(** The operations a caller can issue on a stream. *)
Inductive Call : Type :=
| CallRead (size0 : Z) (chars : option Z)
| CallReadinto (stream : Sink).

Definition call (env : Env) (orc : Oracle) (s : Stream) (c : Call)
  : Outcome Content + Outcome Z * Sink :=
  match c with
  | CallRead size0 chars => inl (read env orc s size0 chars)
  | CallReadinto stream => inr (readinto env orc s stream)
  end.

(** The usage errors of the stream. *)
Inductive usage_error (s : Stream) : Call -> Prop :=
| both_size_and_chars (size0 c : Z) :
    size0 > -1 -> usage_error s (CallRead size0 (Some c))
| chars_without_encoding (size0 c : Z) :
    has_encoding s = false -> usage_error s (CallRead size0 (Some c))
| size_in_text_mode (size0 : Z) (chars : option Z) :
    _text_mode s = Some true -> size0 > -1 ->
    usage_error s (CallRead size0 chars)
| chars_in_bytes_mode (size0 c : Z) :
    _text_mode s = Some false -> usage_error s (CallRead size0 (Some c))
| readinto_in_text_mode (stream : Sink) :
    _text_mode s = Some true -> usage_error s (CallReadinto stream)
| unseekable_sink (stream : Sink) :
    _max_concurrency (config s) > 1 -> sk_seekable stream = false ->
    usage_error s (CallReadinto stream).

(** A call was refused: a [ValueError], the stream state as it was, no
    request, and the caller's sink untouched. *)
Definition refused (s : Stream) (c : Call)
    (r : Outcome Content + Outcome Z * Sink) : Prop :=
  match r, c with
  | inl o, CallRead _ _ => exists msg, o = Raise (ValueError msg) s []
  | inr (o, k), CallReadinto stream =>
      (exists msg, o = Raise (ValueError msg) s []) /\ k = stream
  | _, _ => False
  end.

(** A stream as [_setup] leaves it, without encryption, when the first
    response carried [content] and the window has [total] bytes. *)
Definition stream_of (cfg : Config) (content : list byte) (total : Z) : Stream :=
  {| config := cfg; size := total; _file_size := total;
     _current_content := CBytes content; _non_empty_ranges := None;
     _download_offset := len content; _raw_download_offset := len content;
     _read_offset := 0; _current_content_offset := 0;
     _text_mode := None; _decoder := None; _first_chunk := true;
     _download_start := match _start_range cfg with Some s => s | None => 0 end |}.

Definition new_sink (seekable : bool) : Sink :=
  {| sk_data := []; sk_pos := 0; sk_seekable := seekable |}.

(** An empty blob: every ranged request is answered with 416. *)
Definition empty_env : Env := plain_env [] None.

(** A downloader over a sparse page blob of 4096 bytes whose only data is in
    the pages [512..1023]. *)
Definition sparse_downloader : Downloader :=
  {| dl_non_empty_ranges := Some [(512, 1023)];
     total_size := 4096; chunk_size := 512;
     start_index := 0; end_index := 4096;
     parallel := false; stream_start := None |}.

(** Every prefix of a trace that starts with [r] tasks running keeps the
    number of running tasks between 0 and [bound]. *)
Definition bounded (bound r : Z) (evs : list Event) : Prop :=
  forall p q, evs = (p ++ q)%list -> 0 <= r + in_flight p <= bound.

(** The requests one chunk task issues. *)
Definition chunk_requests (env : Env) (d : Downloader) (chunk : Z)
  : list Request :=
  snd (process_chunk env d (new_sink true) chunk).

(** ** Sessions the properties are stated for *)

(** The service stores [blob] and answers truthfully, without encryption: a
    successful ranged request carries the bytes of the range and the length
    of the blob, 416 is only answered to a range that starts past the end,
    and the page ranges it reports contain every non-zero byte.  Requests
    may still fail with any other status. *)
Record faithful (env : Env) (blob : list byte) : Prop := {
  fs_plain : encryption_active env = false;
  fs_not_v2 : is_encryption_v2 env = false;
  fs_size : forall n, adjust_blob_size_for_encryption env n = n;
  fs_range : forall a b r,
    0 <= a <= b -> blob_download env (Some (a, b)) = HttpOk r ->
    a < len blob /\ body r = py_slice blob a (b + 1) /\
    content_length r = len (body r) /\
    content_range_length r = Some (len blob);
  fs_416 : forall a b has_response,
    0 <= a <= b -> blob_download env (Some (a, b)) = HttpErr 416 has_response ->
    len blob <= a;
  fs_whole : forall r,
    blob_download env None = HttpOk r -> content_length r = len blob;
  fs_sparse : forall ranges a b,
    get_page_ranges env = Some ranges -> 0 <= a <= b -> b < len blob ->
    forallb (range_outside a b) ranges = true ->
    py_slice blob a (b + 1) = zeros (b - a + 1)
}.

(** No ranged request inside the blob fails. *)
Definition reliable (env : Env) (blob : list byte) : Prop :=
  forall a b, 0 <= a <= b -> a < len blob ->
    exists r, blob_download env (Some (a, b)) = HttpOk r.

(** A codec never yields more code points than the bytes it consumed. *)
Definition shrinking (c : Codec) : Prop :=
  forall data final out n,
    c data final = Some (out, n) -> 0 <= n <= len data /\ len out <= n.

Definition well_formed (cfg : Config) : Prop :=
  0 < max_single_get_size cfg /\
  0 < max_chunk_get_size cfg /\
  match _start_range cfg, _end_range cfg with
  | Some s, Some e => 0 <= s <= e
  | Some s, None => 0 <= s
  | None, Some e => 0 <= e
  | None, None => True
  end /\
  match _encoding cfg with
  | Some c => shrinking c
  | None => True
  end.

(** The bytes [from..to) of the window of a stream. *)
Definition window (blob : list byte) (s : Stream) (from to : Z) : list byte :=
  py_slice blob (_download_start s + from) (_download_start s + to).

(** Out of text mode the buffer holds bytes, what is left of it is the part
    of the window between the two offsets, and a first chunk is the head of
    the window. *)
Definition bytes_inv (blob : list byte) (s : Stream) : Prop :=
  exists b,
    _current_content s = CBytes b /\
    _read_offset s + (len b - _current_content_offset s) = _download_offset s /\
    py_slice_from b (_current_content_offset s) =
      window blob s (_read_offset s) (_download_offset s) /\
    (_first_chunk s = true ->
     b = window blob s 0 (_download_offset s) /\
     _current_content_offset s = _read_offset s).

(** In text mode the buffer holds text and the decoder exists; the code
    points delivered, buffered and still undecoded do not outnumber the
    bytes downloaded. *)
Definition text_ok (s : Stream) : Prop :=
  exists t buffer codec,
    _current_content s = CStr t /\
    _decoder s = Some buffer /\
    _encoding (config s) = Some codec /\
    _read_offset s + (len t - _current_content_offset s) + len buffer
      <= _download_offset s.

(** Text mode was entered but the first decoding failed: nothing was
    consumed and every later read fails. *)
Definition text_stuck (s : Stream) : Prop :=
  exists b,
    _current_content s = CBytes b /\
    _current_content_offset s = 0 /\ _read_offset s = 0 /\
    0 <= _download_offset s.

Definition mode_inv (blob : list byte) (s : Stream) : Prop :=
  if in_text_mode s then text_ok s \/ text_stuck s else bytes_inv blob s.

Record Inv (env : Env) (blob : list byte) (s : Stream) : Prop := {
  inv_cfg : well_formed (config s);
  inv_window :
    0 <= _download_start s /\ 0 <= size s /\
    _download_start s + size s <= len blob;
  inv_cursor :
    0 <= _current_content_offset s <= clen (_current_content s);
  inv_read : 0 <= _read_offset s;
  inv_download : _download_offset s <= size s;
  inv_raw : _raw_download_offset s = _download_offset s;
  inv_ranges : forall ranges,
    _non_empty_ranges s = Some ranges -> get_page_ranges env = Some ranges;
  inv_unset :
    _text_mode s = None ->
    _current_content_offset s = 0 /\ _read_offset s = 0;
  inv_mode : mode_inv blob s
}.

(** A sequence of [read] calls, each with its arguments and the oracle of
    its scheduling; a call that raises leaves the state it had reached. *)
Fixpoint reads (env : Env) (s : Stream) (calls : list (Oracle * Z * option Z))
  : Stream :=
  match calls with
  | [] => s
  | (orc, size0, chars) :: rest =>
      reads env (outcome_state (read env orc s size0 chars)) rest
  end.

(** The byte at a position of a buffer, zero past its end. *)
Definition byte_at (l : list byte) (i : Z) : byte := nth (Z.to_nat i) l x00.

(** The end (exclusive) of the chunk that starts at [c]. *)
Definition chunk_end (d : Downloader) (c : Z) : Z :=
  Z.min (c + chunk_size d) (end_index d).

(** The trace of a loop that runs one fetch at a time. *)
Definition one_at_a_time (plan : list Z) : list Event :=
  flat_map (fun c => [Dispatch c; Complete c]) plan.

(** A sink under parallel writes: it is no longer than [target], agrees
    with it on the first [head] positions and holds, at its place after
    them, every chunk of [done]. *)
Definition assembled (d : Downloader) (target : list byte) (head : Z)
    (done : list Z) (k : Sink) : Prop :=
  head <= len (sk_data k) <= len target /\
  (forall i, 0 <= i < head -> byte_at (sk_data k) i = byte_at target i) /\
  (forall c, In c done ->
     start_index d <= c /\
     head + (chunk_end d c - start_index d) <= len (sk_data k) /\
     forall i,
       head + (c - start_index d) <= i < head + (chunk_end d c - start_index d) ->
       byte_at (sk_data k) i = byte_at target i).

(** What [read] makes, out of text mode, of the bytes it collected: the
    bytes themselves, or their decoding when an encoding is configured. *)
Definition delivered (cfg : Config) (data : list byte) : Error + Content :=
  match _encoding cfg with
  | None => inr (CBytes data)
  | Some codec =>
      match data with
      | [] => inr (CStr [])
      | _ :: _ =>
          match bytes_decode codec data with
          | Some t => inr (CStr t)
          | None => inl UnicodeDecodeError
          end
      end
  end.

Definition outcome_of (r : Error + Content) (s : Stream) (reqs : list Request)
  : Outcome Content :=
  match r with
  | inr v => Ret v s reqs
  | inl e => Raise e s reqs
  end.

(** ** Calls, sessions and requests *)

(** The state a call leaves behind, whether it returned or raised. *)
Definition call_state (r : Outcome Content + Outcome Z * Sink) : Stream :=
  match r with
  | inl o => outcome_state o
  | inr (o, _) => outcome_state o
  end.

(** Two states of one session: the same configuration, window and range
    map. *)
Definition same_session (s s' : Stream) : Prop :=
  config s' = config s /\ size s' = size s /\ _file_size s' = _file_size s /\
  _non_empty_ranges s' = _non_empty_ranges s /\
  _download_start s' = _download_start s.

(** The bytes a sequence of [read(size)] calls returns, one result after the
    other, and the state the calls leave; a call that raises, or returns
    text, adds nothing. *)
Fixpoint read_each (env : Env) (s : Stream) (calls : list (Oracle * Z))
  : list byte * Stream :=
  match calls with
  | [] => ([], s)
  | (orc, size0) :: rest =>
      let o := read env orc s size0 None in
      let (tail, s') := read_each env (outcome_state o) rest in
      (match o with Ret (CBytes b) _ _ => b ++ tail | _ => tail end, s')
  end.

(** Every chunk of a sequence but the last is exactly [n] long, and the last
    is no longer. *)
Fixpoint full_but_last (n : Z) (chunks : list (list byte)) : bool :=
  match chunks with
  | [] => true
  | c :: rest =>
      match rest with
      | [] => len c <=? n
      | _ :: _ => len c =? n
      end && full_but_last n rest
  end.

(** [first_get_size] of [_setup]: the length of the first range asked. *)
Definition first_get_size (cfg : Config) : Z :=
  if negb (_validate_content cfg)
  then max_single_get_size cfg else max_chunk_get_size cfg.

(** The requests a call issued, whether it returned or raised. *)
Definition call_requests (r : Outcome Content + Outcome Z * Sink)
  : list Request :=
  match r with
  | inl o => outcome_requests o
  | inr (o, _) => outcome_requests o
  end.

(** A ranged download of at most [chunk] bytes inside [first..last). *)
Definition ranged_within (first last chunk : Z) (r : Request) : bool :=
  match r with
  | ReqDownload (Some (a, b)) =>
      (first <=? a) && (a <=? b) && (b <? last) && (b - a <? chunk)
  | _ => false
  end.

(** A request for bytes of the window that are not downloaded yet, at most
    a chunk of them. *)
Definition fetches_new_chunk (s : Stream) (r : Request) : bool :=
  ranged_within (_download_start s + _download_offset s)
    (_download_start s + size s) (max_chunk_get_size (config s)) r.

Definition fetch_requests (f : Fetch) : list Request :=
  match f with
  | Fetched _ _ reqs => reqs
  | FetchFailed _ reqs => reqs
  end.

(** A request for one chunk of the range of a downloader. *)
Definition chunk_request (d : Downloader) : Request -> bool :=
  ranged_within (start_index d) (end_index d) (chunk_size d).

(** ** The deprecated wrappers *)

Module WrapperMsg.
Import String.
Local Open Scope string_scope.
Definition content_as_bytes : string :=
  "Stream has been partially read in text mode. content_as_bytes is not supported in text mode.".
Definition content_as_text : string :=
  "Stream has been partially read in text mode. content_as_text is not supported in text mode.".
Definition download_to_stream : string :=
  "Stream has been partially read in text mode. download_to_stream is not supported in text mode.".
End WrapperMsg.

Definition with_config (s : Stream) (cfg : Config) : Stream :=
  {| config := cfg; size := size s; _file_size := _file_size s;
     _current_content := _current_content s;
     _non_empty_ranges := _non_empty_ranges s;
     _download_offset := _download_offset s;
     _raw_download_offset := _raw_download_offset s;
     _read_offset := _read_offset s;
     _current_content_offset := _current_content_offset s;
     _text_mode := _text_mode s; _decoder := _decoder s;
     _first_chunk := _first_chunk s; _download_start := _download_start s |}.

(** [self._max_concurrency = max_concurrency]. *)
Definition set_max_concurrency (s : Stream) (max_concurrency : Z) : Stream :=
  with_config s
    {| _start_range := _start_range (config s);
       _end_range := _end_range (config s);
       _max_concurrency := max_concurrency;
       _encoding := _encoding (config s);
       _validate_content := _validate_content (config s);
       max_single_get_size := max_single_get_size (config s);
       max_chunk_get_size := max_chunk_get_size (config s) |}.

(** [self._encoding = encoding]. *)
Definition set_encoding (s : Stream) (encoding : Codec) : Stream :=
  with_config s
    {| _start_range := _start_range (config s);
       _end_range := _end_range (config s);
       _max_concurrency := _max_concurrency (config s);
       _encoding := Some encoding;
       _validate_content := _validate_content (config s);
       max_single_get_size := max_single_get_size (config s);
       max_chunk_get_size := max_chunk_get_size (config s) |}.

Definition content_as_bytes (env : Env) (orc : Oracle) (s : Stream)
    (max_concurrency : Z) : Outcome Content :=
  if in_text_mode s
  then Raise (ValueError WrapperMsg.content_as_bytes) s []
  else readall env orc (set_max_concurrency s max_concurrency).

Definition content_as_text (env : Env) (orc : Oracle) (s : Stream)
    (max_concurrency : Z) (encoding : Codec) : Outcome Content :=
  if in_text_mode s
  then Raise (ValueError WrapperMsg.content_as_text) s []
  else
    readall env orc
      (set_encoding (set_max_concurrency s max_concurrency) encoding).

(** [download_to_stream] returns the properties of the blob, which the
    model does not carry: the outcome holds no value. *)
Definition download_to_stream (env : Env) (orc : Oracle) (s : Stream)
    (stream : Sink) (max_concurrency : Z) : Outcome unit * Sink :=
  if in_text_mode s
  then (Raise (ValueError WrapperMsg.download_to_stream) s [], stream)
  else
    match readinto env orc (set_max_concurrency s max_concurrency) stream with
    | (Ret _ s' reqs, stream') => (Ret tt s' reqs, stream')
    | (Raise e s' reqs, stream') => (Raise e s' reqs, stream')
    end.

(** ** A service that fails *)

(** A service that stores [blob] and answers 500 to every ranged request
    that starts at [limit] or later. *)
Definition failing_from (blob : list byte) (limit : Z) : Env :=
  {| blob_download := fun range =>
       match range with
       | Some (a, _) =>
           if limit <=? a then HttpErr 500 true else serve blob false range
       | None => serve blob false range
       end;
     get_page_ranges := None;
     encryption_active := false;
     get_adjusted_download_range_and_offset := fun a b _ => ((a, b), (0, 0));
     decrypt_blob := fun data _ _ => Some data;
     adjust_blob_size_for_encryption := fun n => n;
     is_encryption_v2 := false |}.

(** * Properties *)

(** ** Zero-length reads and usage errors *)

Lemma is_some_true {A : Type} (o : option A) : o <> None -> is_some o = true.
Proof. destruct o; [reflexivity | congruence]. Qed.

(** C4 (as amended): [read(0)] and [read(chars=0)] leave the stream as it
    was and issue no request; they return the empty result unless the call
    is a usage error, which is raised first: [read(0)] in text mode,
    [read(chars=0)] without an encoding or in bytes mode. *)
Theorem read_zero_changes_nothing (env : Env) (orc : Oracle) (s : Stream) :
  read env orc s 0 None =
    (if in_text_mode s
     then Raise (ValueError Msg.text_mode_use_chars) s []
     else Ret (empty_result s) s [])
  /\ read env orc s (-1) (Some 0) =
    (if negb (has_encoding s)
     then Raise (ValueError Msg.chars_need_encoding) s []
     else if in_bytes_mode s
     then Raise (ValueError Msg.bytes_mode_use_size) s []
     else Ret (empty_result s) s []).
Proof.
  unfold read, usage_check; cbn [is_some is_zero].
  change (0 >? -1) with true; change (-1 >? -1) with false.
  change (0 =? 0) with true; change (-1 =? 0) with false.
  cbn [andb orb]; rewrite ?andb_false_r, ?andb_true_r.
  split.
  - destruct (in_text_mode s); reflexivity.
  - destruct (has_encoding s); cbn [negb]; [| reflexivity].
    destruct (in_bytes_mode s); reflexivity.
Qed.

Lemma usage_check_read (env : Env) (orc : Oracle) (s : Stream) (size0 : Z)
    (chars : option Z) (msg : String.string) :
  usage_check s size0 chars = Some msg ->
  read env orc s size0 chars = Raise (ValueError msg) s [].
Proof. intros H. unfold read. rewrite H. reflexivity. Qed.

Lemma gtb_true (a b : Z) : a > b -> (a >? b) = true.
Proof. intros H. apply Z.gtb_lt. lia. Qed.

(** C7: every usage error is a [ValueError] raised with the stream state as
    it was and before any request: [read] with both [size] and [chars],
    [chars] without an encoding, [size] in text mode, [chars] in bytes mode,
    [readinto] in text mode, and [readinto] to a sink that cannot seek while
    [max_concurrency > 1]. *)
Theorem usage_errors_are_refused (env : Env) (orc : Oracle) (s : Stream)
    (c : Call) :
  usage_error s c -> refused s c (call env orc s c).
Proof.
  intros H. destruct H as [size0 c H | size0 c H | size0 chars Hm H
                          | size0 c Hm | stream Hm | stream Hc Hk]; cbn.
  - eexists. apply usage_check_read. unfold usage_check.
    rewrite (gtb_true _ _ H). reflexivity.
  - unfold read, usage_check. rewrite H. cbn [negb is_some andb].
    rewrite andb_true_r. destruct (size0 >? -1); eexists; reflexivity.
  - unfold read, usage_check, in_text_mode. rewrite Hm, (gtb_true _ _ H).
    cbn [andb]. destruct (is_some chars); cbn [andb].
    + eexists; reflexivity.
    + rewrite andb_false_r. eexists; reflexivity.
  - unfold read, usage_check, in_text_mode, in_bytes_mode. rewrite Hm.
    cbn [is_some andb]. rewrite andb_true_r.
    destruct (size0 >? -1); [eexists; reflexivity |].
    destruct (negb (has_encoding s)); eexists; reflexivity.
  - unfold readinto, in_text_mode. rewrite Hm. split; [eexists|]; reflexivity.
  - unfold readinto. rewrite Hk, (gtb_true _ _ Hc). cbn [negb andb].
    destruct (in_text_mode s); split; try reflexivity; eexists; reflexivity.
Qed.

Lemma usage_errors_are_refused_witness :
  let s := stream_of (default_config 4 2) three_bytes 10 in
  usage_error s (CallReadinto (new_sink false)) /\
  refused s (CallReadinto (new_sink false))
    (call (plain_env ten_bytes None) fifo s (CallReadinto (new_sink false))).
Proof.
  assert (H : usage_error (stream_of (default_config 4 2) three_bytes 10)
                (CallReadinto (new_sink false))).
  { apply unseekable_sink; [cbn; lia | reflexivity]. }
  split; [exact H |].
  exact (usage_errors_are_refused (plain_env ten_bytes None) fifo _ _ H).
Defined.

(** C4, the claim as stated fails: once a stream is in text mode, [read(0)]
    raises instead of returning an empty result. *)
Lemma read_zero_raises_in_text_mode :
  let env := plain_env ten_bytes None in
  exists s0 s,
    fst (_setup env (text_config 4 1)) = inr s0 /\
    outcome_state (read env fifo s0 (-1) (Some 2)) = s /\
    read env fifo s 0 None = Raise (ValueError Msg.text_mode_use_chars) s [].
Proof.
  eexists; eexists; split; [vm_compute; reflexivity |].
  split; [reflexivity | vm_compute; reflexivity].
Qed.

(** ** The terminal state *)

Lemma complete_consume (env : Env) (s : Stream) (n : Z) :
  _download_complete env (consume s n) = _download_complete env s.
Proof. reflexivity. Qed.

Lemma enter_mode_complete (env : Env) (s s1 : Stream) (chars : option Z) :
  enter_mode env s chars = inr s1 ->
  _download_complete env s1 = _download_complete env s.
Proof.
  unfold enter_mode. destruct (negb (in_text_mode s) && is_some chars).
  - destruct (_encoding (config s)); [| discriminate].
    destruct (_current_content s); [| discriminate].
    destruct (decoder_decode _ _ _ _) as [[? ?] |]; [| discriminate].
    intros H; injection H as <-. reflexivity.
  - destruct (_text_mode s); intros H; injection H as <-; reflexivity.
Qed.

Lemma finish_read_requests (s : Stream) (data : Content) (reqs : list Request) :
  outcome_requests (finish_read s data reqs) = reqs.
Proof.
  unfold finish_read. destruct (in_text_mode s); [reflexivity |].
  destruct (_encoding (config s)); [| reflexivity].
  destruct data; [| reflexivity]. destruct (bytes_decode _ _); reflexivity.
Qed.

Lemma read_complete_no_request (env : Env) (orc : Oracle) (s : Stream)
    (size0 : Z) (chars : option Z) :
  _download_complete env s = true ->
  outcome_requests (read env orc s size0 chars) = [].
Proof.
  intros Hc. unfold read.
  destruct (usage_check s size0 chars); [reflexivity |].
  destruct (_ || _ || _); [reflexivity |].
  destruct (enter_mode env s chars) as [[e s'] | s1] eqn:Hm; [reflexivity |].
  apply enter_mode_complete in Hm. rewrite Hc in Hm.
  unfold read_data. destruct (negb (same_kind _ _)); [reflexivity |].
  rewrite complete_consume, Hm. cbn [negb]. rewrite andb_false_r.
  apply finish_read_requests.
Qed.

Lemma readinto_complete_no_request (env : Env) (orc : Oracle) (s : Stream)
    (stream : Sink) :
  _download_complete env s = true ->
  outcome_requests (fst (readinto env orc s stream)) = [].
Proof.
  intros Hc. unfold readinto.
  destruct (in_text_mode s); [reflexivity |].
  destruct (_ && _); [reflexivity |].
  destruct (_ <=? 0); [reflexivity |].
  destruct (cslice _ _ _); [| reflexivity].
  rewrite complete_consume, Hc. reflexivity.
Qed.

(** C1, the claim as stated fails: right after the initial request of a
    three-byte blob the download is complete ([download_offset = size]), yet
    [read] and [readinto] deliver the three buffered bytes. *)
Lemma complete_stream_still_serves_its_buffer :
  let env := plain_env three_bytes None in
  exists s,
    fst (_setup env (default_config 4 1)) = inr s /\
    _download_offset s = size s /\
    _download_complete env s = true /\
    (exists s', read env fifo s (-1) None = Ret (CBytes three_bytes) s' []) /\
    (exists s' k, readinto env fifo s (new_sink true) = (Ret 3 s' [], k) /\
                  sk_data k = three_bytes).
Proof.
  eexists. split; [vm_compute; reflexivity |].
  split; [reflexivity |]. split; [reflexivity |].
  split; [eexists; vm_compute; reflexivity |].
  eexists; eexists. split; vm_compute; reflexivity.
Qed.

(** Once the download is complete, [read] and [readinto] issue no request,
    and they return nothing as soon as nothing buffered is left. *)
Lemma complete_stream_quiet (env : Env) (orc : Oracle)
    (s : Stream) :
  _download_complete env s = true ->
  (forall size0 chars, outcome_requests (read env orc s size0 chars) = []) /\
  (forall size0 chars,
     _current_content_offset s >= clen (_current_content s) ->
     usage_check s size0 chars = None ->
     read env orc s size0 chars = Ret (empty_result s) s []) /\
  (forall stream, outcome_requests (fst (readinto env orc s stream)) = []) /\
  (forall stream,
     _read_offset s >= size s ->
     usage_error s (CallReadinto stream) \/
     readinto env orc s stream = (Ret 0 s [], stream)).
Proof.
  intros Hc. split; [| split; [| split]].
  - intros. now apply read_complete_no_request.
  - intros size0 chars Hb Hu. unfold read. rewrite Hu, Hc.
    replace (_current_content_offset s >=? clen (_current_content s)) with true
      by (symmetry; apply Z.geb_le; lia).
    cbn [andb]. rewrite orb_true_r. reflexivity.
  - intros. now apply readinto_complete_no_request.
  - intros stream Hr. unfold readinto.
    destruct (_text_mode s) as [[|]|] eqn:Hm;
      try (left; now apply readinto_in_text_mode);
      unfold in_text_mode; rewrite Hm.
    + destruct (_max_concurrency (config s) >? 1) eqn:Hp;
        destruct (sk_seekable stream) eqn:Hk; cbn [negb andb];
        try (left; apply unseekable_sink; [apply Z.gtb_lt in Hp; lia | exact Hk]);
        (replace (size s - _read_offset s <=? 0) with true
           by (symmetry; apply Z.leb_le; lia)); right; reflexivity.
    + destruct (_max_concurrency (config s) >? 1) eqn:Hp;
        destruct (sk_seekable stream) eqn:Hk; cbn [negb andb];
        try (left; apply unseekable_sink; [apply Z.gtb_lt in Hp; lia | exact Hk]);
        (replace (size s - _read_offset s <=? 0) with true
           by (symmetry; apply Z.leb_le; lia)); right; reflexivity.
Qed.

(** ** The sparse skip *)

Lemma forallb_range_outside (a b : Z) (ranges : list (Z * Z)) :
  (forall r, In r ranges -> b < fst r \/ snd r < a) ->
  forallb (range_outside a b) ranges = true.
Proof.
  intros H. apply forallb_forall. intros r Hr. unfold range_outside.
  apply orb_true_iff. destruct (H r Hr); [left | right]; apply Z.ltb_lt; lia.
Qed.

Lemma len_zeros (n : Z) : 0 <= n -> len (zeros n) = n.
Proof. intros H. unfold len, zeros. rewrite repeat_length. lia. Qed.

(** C5: when the wire range of a chunk lies outside every range of
    [non_empty_ranges], [_download_chunk] issues no request and returns
    zero bytes, as many as the inclusive length of the wire range, which is
    also the content length it reports. *)
Theorem sparse_chunk_is_zero_filled (env : Env) (d : Downloader)
    (chunk_start chunk_end : Z) (ranges : list (Z * Z)) :
  let wire :=
    fst (process_range_and_offset env chunk_start chunk_end (Some chunk_end)) in
  let content_len := snd wire - fst wire + 1 in
  dl_non_empty_ranges d = Some ranges ->
  fst wire <= snd wire ->
  (forall r, In r ranges -> snd wire < fst r \/ snd r < fst wire) ->
  _download_chunk env d chunk_start chunk_end =
    Fetched (repeat x00 (Z.to_nat content_len)) content_len [] /\
  len (repeat x00 (Z.to_nat content_len)) = content_len.
Proof.
  intros wire content_len Hr Hle Hout. split.
  - unfold _download_chunk. subst content_len wire.
    destruct (process_range_and_offset env chunk_start chunk_end (Some chunk_end))
      as [download_range offset]. cbn [fst snd] in *.
    unfold _do_optimize. rewrite Hr, (forallb_range_outside _ _ _ Hout).
    reflexivity.
  - apply len_zeros. lia.
Qed.

Lemma sparse_chunk_is_zero_filled_witness :
  _download_chunk (plain_env ten_bytes (Some [(512, 1023)])) sparse_downloader
    1024 1535 = Fetched (repeat x00 512) 512 [] /\
  len (repeat x00 512) = 512.
Proof.
  apply (sparse_chunk_is_zero_filled
           (plain_env ten_bytes (Some [(512, 1023)])) sparse_downloader
           1024 1535 [(512, 1023)]).
  - reflexivity.
  - cbn; lia.
  - intros r [<- | []]; cbn; lia.
Defined.

(** ** The empty blob *)

(** C6: when the initial ranged request is answered with 416 and no start
    range was given, the error is caught and a request without a range
    follows; the stream then has [size = 0] and an empty buffer, and
    [readall] returns the empty result at once, with no request.  With a
    start range the 416 is raised and no second request is made. *)
Theorem empty_blob_fallback (env : Env) (cfg : Config) (has_response : bool) :
  blob_download env (Some (fst (initial_range_and_offset env cfg))) =
    HttpErr 416 has_response ->
  match _start_range cfg with
  | Some _ =>
      exists reqs,
        _setup env cfg = (inl (HttpResponseError 416), reqs) /\
        ~ In (ReqDownload None) reqs
  | None =>
      has_response = true ->
      forall response,
        blob_download env None = HttpOk response ->
        0 <= content_length response ->
        exists s reqs,
          _setup env cfg = (inr s, reqs) /\
          In (ReqDownload None) reqs /\
          size s = 0 /\
          _current_content s = CBytes [] /\
          forall orc, readall env orc s = Ret (empty_result s) s []
  end.
Proof.
  intros H416. unfold _setup.
  destruct (initial_range_and_offset env cfg) as [initial_range initial_offset].
  cbn [fst] in H416.
  unfold _initial_request, initial_download. rewrite H416.
  destruct (_start_range cfg) as [start |] eqn:Hs; cbn [is_some negb andb].
  - eexists. split; [reflexivity |].
    destruct (encryption_active env); cbn; intuition discriminate.
  - intros -> response Hresp Hlen. rewrite Hresp. cbn [andb].
    change (416 =? 416) with true. cbn iota. cbn [in_size in_response].
    change (0 =? 0) with true. cbn iota.
    destruct (is_page_blob response); eexists; eexists;
      (split; [reflexivity |]);
      (split; [apply in_or_app; right; cbn; auto |]);
      (split; [reflexivity |]); (split; [reflexivity |]);
      intros orc; unfold readall, read, usage_check, in_text_mode, in_bytes_mode;
      cbn [_text_mode is_some andb]; rewrite ?andb_false_r;
      cbn [is_zero orb]; change (-1 =? 0) with true || change (-1 =? 0) with false;
      unfold _download_complete; cbn;
      (replace (content_length response >=? 0) with true
         by (symmetry; apply Z.geb_le; lia));
      destruct (is_encryption_v2 env); reflexivity.
Qed.

Lemma empty_blob_fallback_witness :
  (exists s reqs,
     _setup empty_env (default_config 4 1) = (inr s, reqs) /\
     In (ReqDownload None) reqs /\
     size s = 0 /\
     _current_content s = CBytes [] /\
     forall orc, readall empty_env orc s = Ret (empty_result s) s []) /\
  (exists reqs,
     _setup empty_env (ranged_config 0 3 4) = (inl (HttpResponseError 416), reqs) /\
     ~ In (ReqDownload None) reqs).
Proof.
  split.
  - exact (empty_blob_fallback empty_env (default_config 4 1) true eq_refl
             eq_refl _ eq_refl ltac:(cbn; lia)).
  - exact (empty_blob_fallback empty_env (ranged_config 0 3 4) true eq_refl).
Defined.

(** ** The scheduling loop *)

Lemma in_flight_app (a b : list Event) :
  in_flight (a ++ b) = in_flight a + in_flight b.
Proof.
  induction a as [| [c | c] a IH]; cbn [app in_flight]; lia.
Qed.

Lemma in_flight_dispatch (l : list Z) : in_flight (map Dispatch l) = len l.
Proof.
  unfold len. induction l as [| c l IH]; cbn [map in_flight length]; lia.
Qed.

Lemma in_flight_complete (l : list Z) : in_flight (map Complete l) = - len l.
Proof.
  unfold len. induction l as [| c l IH]; cbn [map in_flight length]; lia.
Qed.

Lemma dispatched_app (a b : list Event) :
  dispatched (a ++ b) = (dispatched a ++ dispatched b)%list.
Proof. apply flat_map_app. Qed.

Lemma completed_app (a b : list Event) :
  completed (a ++ b) = (completed a ++ completed b)%list.
Proof. apply flat_map_app. Qed.

Lemma dispatched_dispatch (l : list Z) : dispatched (map Dispatch l) = l.
Proof.
  unfold dispatched, completed.
  induction l as [| c l IH]; cbn; [| rewrite ?IH]; reflexivity.
Qed.

Lemma dispatched_complete (l : list Z) : dispatched (map Complete l) = [].
Proof.
  unfold dispatched, completed.
  induction l as [| c l IH]; cbn; [| rewrite ?IH]; reflexivity.
Qed.

Lemma completed_dispatch (l : list Z) : completed (map Dispatch l) = [].
Proof.
  unfold dispatched, completed.
  induction l as [| c l IH]; cbn; [| rewrite ?IH]; reflexivity.
Qed.

Lemma completed_complete (l : list Z) : completed (map Complete l) = l.
Proof.
  unfold dispatched, completed.
  induction l as [| c l IH]; cbn; [| rewrite ?IH]; reflexivity.
Qed.

Lemma bounded_nil (bound r : Z) : 0 <= r <= bound -> bounded bound r [].
Proof.
  intros H p q E. symmetry in E. apply app_eq_nil in E as [-> _].
  cbn. lia.
Qed.

Lemma bounded_app (bound r : Z) (a b : list Event) :
  bounded bound r a -> bounded bound (r + in_flight a) b ->
  bounded bound r (a ++ b).
Proof.
  intros Ha Hb p q E. symmetry in E.
  apply app_eq_app in E as [l [[-> ->] | [-> ->]]].
  - specialize (Hb l q eq_refl). rewrite in_flight_app. lia.
  - exact (Ha p l eq_refl).
Qed.

Lemma bounded_dispatches (bound r : Z) (l : list Z) :
  0 <= r -> r + len l <= bound -> bounded bound r (map Dispatch l).
Proof.
  intros H0 H p q E.
  assert (Hp : p = map Dispatch (firstn (length p) l)).
  { rewrite <- firstn_map, E, firstn_app, Nat.sub_diag, firstn_all.
    cbn. now rewrite app_nil_r. }
  rewrite Hp, in_flight_dispatch. unfold len in *.
  rewrite length_firstn. lia.
Qed.

Lemma bounded_completes (bound r : Z) (l : list Z) :
  len l <= r -> r <= bound -> bounded bound r (map Complete l).
Proof.
  intros H0 H p q E.
  assert (Hp : p = map Complete (firstn (length p) l)).
  { rewrite <- firstn_map, E, firstn_app, Nat.sub_diag, firstn_all.
    cbn. now rewrite app_nil_r. }
  rewrite Hp, in_flight_complete. unfold len in *.
  rewrite length_firstn. lia.
Qed.

Lemma split_done_spec (first : nat) (also : nat -> bool) (running : list Z) :
  forall i done pending,
    split_done first also i running = (done, pending) ->
    Permutation (done ++ pending) running /\
    (length done + length pending = length running)%nat /\
    ((i <= first < i + length running)%nat -> done <> []).
Proof.
  induction running as [| t rest IH]; intros i done pending; cbn [split_done].
  - intros E; injection E as <- <-. repeat split; auto. cbn; lia.
  - destruct (split_done first also (S i) rest) as [done' pending'] eqn:E'.
    destruct (IH _ _ _ E') as (Hp & Hl & Hn).
    destruct ((i =? first)%nat || also i) eqn:Hb;
      intros E; injection E as <- <-.
    + repeat split.
      * cbn. now constructor.
      * cbn [length]; lia.
      * discriminate.
    + repeat split.
      * apply Permutation_sym. apply Permutation_cons_app.
        now apply Permutation_sym.
      * cbn [length]; lia.
      * intros Hi. apply Hn. apply orb_false_iff in Hb as [Hb _].
        apply Nat.eqb_neq in Hb. cbn [length] in Hi. lia.
Qed.

Lemma wait_first_completed_spec (o : nat * (nat -> bool)) (running : list Z) :
  running <> [] ->
  forall done pending,
    wait_first_completed o running = (done, pending) ->
    Permutation (done ++ pending) running /\
    (length done + length pending = length running)%nat /\
    (1 <= length done)%nat.
Proof.
  intros Hr done pending E. unfold wait_first_completed in E.
  destruct (split_done_spec _ _ _ _ _ _ E) as (Hp & Hl & Hn).
  repeat split; auto.
  assert (done <> []).
  { apply Hn. destruct running; [congruence |].
    split; [lia |]. apply Nat.mod_upper_bound. discriminate. }
  destruct done; [congruence | cbn; lia].
Qed.

Lemma drain_spec (orc : Oracle) :
  forall fuel step running,
    (length running <= fuel)%nat ->
    dispatched (drain fuel orc step running) = [] /\
    Permutation (completed (drain fuel orc step running)) running /\
    forall bound, len running <= bound ->
      bounded bound (len running) (drain fuel orc step running).
Proof.
  induction fuel as [| fuel IH]; intros step running Hf.
  - destruct running; [| cbn in Hf; lia]. cbn.
    split; [| split]; auto.
    intros. apply bounded_nil. cbn. lia.
  - cbn [drain]. destruct running as [| t rest] eqn:Er.
    + cbn. split; [| split]; auto. intros. apply bounded_nil. cbn. lia.
    + rewrite <- Er in *.
      destruct (wait_first_completed (orc step) running) as [done pending] eqn:E.
      assert (Hne : running <> []) by (rewrite Er; discriminate).
      destruct (wait_first_completed_spec _ _ Hne _ _ E) as (Hp & Hl & Hd).
      destruct (IH (S step) pending ltac:(lia)) as (D & C & B).
      rewrite dispatched_app, completed_app, dispatched_complete,
        completed_complete, D.
      split; [| split]; auto.
      * etransitivity; [| exact Hp]. now apply Permutation_app_head.
      * intros bound Hb. unfold len in *. apply bounded_app.
        -- apply bounded_completes; unfold len; lia.
        -- rewrite in_flight_complete. unfold len.
           replace (Z.of_nat (length running) + - Z.of_nat (length done))
             with (Z.of_nat (length pending)) by lia.
           apply B. lia.
Qed.

Lemma len_app {A : Type} (a b : list A) : len (a ++ b) = len a + len b.
Proof. unfold len. rewrite length_app. lia. Qed.

Lemma bounded_pass (bound : Z) (running done pending next : list Z)
    (tail : list Event) :
  (length done + length pending = length running)%nat ->
  (length next <= length done)%nat ->
  len running <= bound ->
  bounded bound (len (pending ++ next)) tail ->
  bounded bound (len running)
    (map Complete done ++ map Dispatch next ++ tail).
Proof.
  intros Hl Hn Hb Ht. unfold len in *. rewrite length_app in Ht.
  apply bounded_app.
  - apply bounded_completes; unfold len; lia.
  - rewrite in_flight_complete. apply bounded_app.
    + apply bounded_dispatches; unfold len; lia.
    + rewrite in_flight_dispatch. unfold len.
      replace (Z.of_nat (length running) + - Z.of_nat (length done) +
               Z.of_nat (length next))
        with (Z.of_nat (length pending + length next)) by lia.
      exact Ht.
Qed.

Lemma dispatch_loop_spec (orc : Oracle) :
  forall fuel step chunks_iter running,
    (length chunks_iter + length running <= fuel)%nat ->
    (chunks_iter <> [] -> running <> []) ->
    dispatched (dispatch_loop fuel orc step chunks_iter running) = chunks_iter /\
    Permutation (completed (dispatch_loop fuel orc step chunks_iter running))
      (running ++ chunks_iter) /\
    forall bound, len running <= bound ->
      bounded bound (len running)
        (dispatch_loop fuel orc step chunks_iter running).
Proof.
  induction fuel as [| fuel IH]; intros step chunks_iter running Hf Hne.
  - destruct chunks_iter; [| cbn in Hf; lia].
    destruct running; [| cbn in Hf; lia]. cbn.
    split; [| split]; auto. intros. apply bounded_nil. cbn. lia.
  - cbn [dispatch_loop]. destruct running as [| t rest] eqn:Er.
    + destruct chunks_iter; [| exfalso; apply Hne; [discriminate | reflexivity]].
      cbn. split; [| split]; auto. intros. apply bounded_nil. cbn. lia.
    + rewrite <- Er in *.
      destruct (wait_first_completed (orc step) running) as [done pending] eqn:E.
      assert (Hr : running <> []) by (rewrite Er; discriminate).
      destruct (wait_first_completed_spec _ _ Hr _ _ E) as (Hp & Hl & Hd).
      rewrite !dispatched_app, !completed_app, dispatched_complete,
        completed_complete, dispatched_dispatch, completed_dispatch.
      cbn [app].
      destruct (length chunks_iter <? length done)%nat eqn:Hlt.
      * apply Nat.ltb_lt in Hlt.
        rewrite firstn_all2 by lia.
        destruct (drain_spec orc fuel (S step) (pending ++ chunks_iter))
          as (D & C & B).
        { rewrite length_app. lia. }
        rewrite D, app_nil_r. split; [reflexivity |]. split.
        -- etransitivity; [apply Permutation_app_head; exact C |].
           rewrite app_assoc. now apply Permutation_app_tail.
        -- intros bound Hb.
           apply bounded_pass with (pending := pending); auto; try lia.
           apply B. rewrite len_app. unfold len in *. lia.
      * apply Nat.ltb_ge in Hlt.
        assert (Hn : length (firstn (length done) chunks_iter) = length done)
          by (rewrite length_firstn; lia).
        destruct (IH (S step) (skipn (length done) chunks_iter)
                    (pending ++ firstn (length done) chunks_iter))
          as (D & C & B).
        { rewrite length_skipn, length_app. lia. }
        { intros _ F. apply app_eq_nil in F as [_ F].
          apply (f_equal (@length Z)) in F. cbn in F. lia. }
        rewrite D, firstn_skipn. split; [reflexivity |]. split.
        -- etransitivity; [apply Permutation_app_head; exact C |].
           replace (done ++ (pending ++ firstn (length done) chunks_iter) ++
                    skipn (length done) chunks_iter)%list
             with ((done ++ pending) ++
                   (firstn (length done) chunks_iter ++
                    skipn (length done) chunks_iter))%list
             by (now rewrite <- !app_assoc).
           rewrite firstn_skipn. now apply Permutation_app_tail.
        -- intros bound Hb.
           apply bounded_pass with (pending := pending); auto; try lia.
           apply B. rewrite len_app. unfold len in *. lia.
Qed.

Lemma process_chunk_requests (env : Env) (d : Downloader) (k k' : Sink)
    (c : Z) :
  snd (process_chunk env d k c) = snd (process_chunk env d k' c).
Proof.
  unfold process_chunk. destruct (_calculate_range d c) as [a b].
  destruct (_download_chunk env d a (b - 1)); [| reflexivity].
  destruct (_ >? 0); reflexivity.
Qed.

Lemma run_events_requests (env : Env) (d : Downloader) :
  forall evs k,
    fst (fst (run_events env d evs k)) = None ->
    snd (run_events env d evs k) =
      flat_map (chunk_requests env d) (dispatched evs).
Proof.
  induction evs as [| [c | c] evs IH]; intros k; cbn [run_events].
  - reflexivity.
  - destruct (process_chunk env d k c) as [[r0 k0] reqs] eqn:E.
    specialize (IH k).
    destruct (run_events env d evs k) as [[r k'] reqs']. cbn [fst snd] in *.
    intros H. rewrite (IH H). unfold dispatched. cbn [flat_map app].
    f_equal. unfold chunk_requests.
    rewrite (process_chunk_requests env d (new_sink true) k), E. reflexivity.
  - destruct (process_chunk env d k c) as [[[e |] k0] reqs]; cbn [fst].
    + discriminate.
    + intros H. rewrite (IH k0 H). reflexivity.
Qed.

Lemma schedule_spec (orc : Oracle) (max_concurrency : Z) (plan : list Z) :
  1 <= max_concurrency ->
  dispatched (schedule orc max_concurrency plan) = plan /\
  Permutation (completed (schedule orc max_concurrency plan)) plan /\
  bounded max_concurrency 0 (schedule orc max_concurrency plan).
Proof.
  intros Hmc. unfold schedule.
  set (n := Z.to_nat max_concurrency).
  assert (Hn : (1 <= n)%nat) by (subst n; lia).
  destruct (dispatch_loop_spec orc (S (length plan)) 0%nat
              (skipn n plan) (firstn n plan)) as (D & C & B).
  { rewrite length_skipn, length_firstn. lia. }
  { intros Hs F. apply Hs.
    destruct plan; [now rewrite skipn_nil |].
    destruct n; [lia | discriminate]. }
  assert (Hl : len (firstn n plan) <= max_concurrency).
  { unfold len. rewrite length_firstn. subst n. lia. }
  split; [| split].
  - rewrite dispatched_app, dispatched_dispatch, D. apply firstn_skipn.
  - rewrite completed_app, completed_dispatch. cbn [app].
    rewrite C, firstn_skipn. reflexivity.
  - apply bounded_app.
    + apply bounded_dispatches; lia.
    + rewrite in_flight_dispatch. apply B. exact Hl.
Qed.

(** C9: for every plan and every [max_concurrency >= 1], whatever the order
    in which fetches finish, the scheduling loop of [read] and [readinto]
    dispatches exactly the chunk offsets of the plan, each once and in plan
    order; every dispatched fetch is collected; at no point of the run are
    more than [max_concurrency] fetches in flight; and when no fetch fails
    the requests issued are those of the plan's chunks, one chunk after the
    other. *)
Theorem schedule_runs_plan_within_bound (orc : Oracle) (max_concurrency : Z)
    (plan : list Z) :
  1 <= max_concurrency ->
  dispatched (schedule orc max_concurrency plan) = plan /\
  Permutation (completed (schedule orc max_concurrency plan)) plan /\
  (forall p q, schedule orc max_concurrency plan = (p ++ q)%list ->
     0 <= in_flight p <= max_concurrency) /\
  (forall env d k,
     fst (fst (run_events env d (schedule orc max_concurrency plan) k)) = None ->
     snd (run_events env d (schedule orc max_concurrency plan) k) =
       flat_map (chunk_requests env d) plan).
Proof.
  intros Hmc.
  destruct (schedule_spec orc max_concurrency plan Hmc) as (D & C & B).
  split; [exact D |]. split; [exact C |]. split.
  - intros p q E. specialize (B p q E). lia.
  - intros env d k H. rewrite (run_events_requests env d _ k H), D.
    reflexivity.
Qed.

Lemma schedule_runs_plan_within_bound_witness :
  1 <= 3 /\
  dispatched (schedule out_of_order 3 [0; 4194304; 8388608]) =
    [0; 4194304; 8388608].
Proof.
  split; [lia |].
  exact (proj1 (schedule_runs_plan_within_bound out_of_order 3
                  [0; 4194304; 8388608] ltac:(lia))).
Defined.

(** ** Slices *)

Lemma len_nonneg {A : Type} (l : list A) : 0 <= len l.
Proof. unfold len. lia. Qed.

Lemma clamp_index_inside (n i : Z) : 0 <= i <= n -> clamp_index n i = i.
Proof.
  intros H. unfold clamp_index. destruct (i <? 0) eqn:E.
  - apply Z.ltb_lt in E. lia.
  - lia.
Qed.

Lemma clamp_index_past (n i : Z) : 0 <= n <= i -> clamp_index n i = n.
Proof.
  intros H. unfold clamp_index. destruct (i <? 0) eqn:E.
  - apply Z.ltb_lt in E. lia.
  - lia.
Qed.

Lemma clamp_index_range (n i : Z) : 0 <= n -> 0 <= clamp_index n i <= n.
Proof.
  intros H. unfold clamp_index. destruct (i <? 0) eqn:E.
  - apply Z.ltb_lt in E. lia.
  - apply Z.ltb_ge in E. lia.
Qed.

Lemma py_slice_inside {A : Type} (l : list A) (a b : Z) :
  0 <= a <= b -> b <= len l ->
  py_slice l a b = firstn (Z.to_nat (b - a)) (skipn (Z.to_nat a) l).
Proof.
  intros H1 H2. unfold py_slice.
  rewrite !clamp_index_inside by lia. reflexivity.
Qed.

Lemma py_slice_past {A : Type} (l : list A) (a b : Z) :
  len l <= b -> py_slice l a b = py_slice l a (len l).
Proof.
  intros H. unfold py_slice. pose proof (len_nonneg l).
  rewrite (clamp_index_past (len l) b), (clamp_index_past (len l) (len l)) by lia.
  reflexivity.
Qed.

Lemma len_py_slice {A : Type} (l : list A) (a b : Z) :
  0 <= a <= b -> b <= len l -> len (py_slice l a b) = b - a.
Proof.
  intros H1 H2. rewrite py_slice_inside by lia. unfold len in *.
  rewrite length_firstn, length_skipn. lia.
Qed.

Lemma len_py_slice_le {A : Type} (l : list A) (a b : Z) :
  0 <= a <= len l -> len (py_slice l a b) <= len l - a.
Proof.
  intros H. unfold py_slice. rewrite (clamp_index_inside _ a) by lia.
  pose proof (clamp_index_range (len l) b (len_nonneg l)).
  unfold len in *. rewrite length_firstn, length_skipn. lia.
Qed.

Lemma py_slice_empty {A : Type} (l : list A) (a : Z) :
  0 <= a <= len l -> py_slice l a a = [].
Proof.
  intros H. rewrite py_slice_inside by lia. now rewrite Z.sub_diag.
Qed.

Lemma py_slice_all {A : Type} (l : list A) : py_slice l 0 (len l) = l.
Proof.
  pose proof (len_nonneg l). rewrite py_slice_inside by lia.
  cbn [Z.to_nat skipn]. unfold len. rewrite Z.sub_0_r, Nat2Z.id.
  apply firstn_all.
Qed.

Lemma py_slice_from_inside {A : Type} (l : list A) (a : Z) :
  0 <= a <= len l -> py_slice_from l a = py_slice l a (len l).
Proof.
  intros H. rewrite py_slice_inside by lia. unfold py_slice_from.
  rewrite clamp_index_inside by lia.
  rewrite firstn_all2; [reflexivity |].
  unfold len in *. rewrite length_skipn. lia.
Qed.

Lemma py_slice_to_inside {A : Type} (l : list A) (b : Z) :
  0 <= b <= len l -> py_slice_to l b = py_slice l 0 b.
Proof.
  intros H. rewrite py_slice_inside by lia. unfold py_slice_to.
  rewrite clamp_index_inside by lia. now rewrite Z.sub_0_r.
Qed.

Lemma firstn_plus {A : Type} (x y : nat) (l : list A) :
  firstn (x + y) l = (firstn x l ++ firstn y (skipn x l))%list.
Proof.
  revert l. induction x as [| x IH]; intros l; [reflexivity |].
  destruct l as [| h l]; cbn [Nat.add firstn skipn app].
  - now rewrite firstn_nil.
  - now rewrite IH.
Qed.

Lemma py_slice_split {A : Type} (l : list A) (a m b : Z) :
  0 <= a <= m -> m <= b -> b <= len l ->
  py_slice l a b = (py_slice l a m ++ py_slice l m b)%list.
Proof.
  intros H1 H2 H3. rewrite !py_slice_inside by lia.
  replace (Z.to_nat (b - a)) with (Z.to_nat (m - a) + Z.to_nat (b - m))%nat
    by lia.
  rewrite firstn_plus. f_equal. rewrite skipn_skipn.
  replace (Z.to_nat (m - a) + Z.to_nat a)%nat with (Z.to_nat m) by lia.
  reflexivity.
Qed.

Lemma py_slice_py_slice {A : Type} (l : list A) (a b x y : Z) :
  0 <= a <= b -> b <= len l -> 0 <= x <= y -> y <= b - a ->
  py_slice (py_slice l a b) x y = py_slice l (a + x) (a + y).
Proof.
  intros H1 H2 H3 H4.
  rewrite (py_slice_inside (py_slice l a b)) by (rewrite ?len_py_slice; lia).
  rewrite !py_slice_inside by lia.
  rewrite skipn_firstn_comm, firstn_firstn, skipn_skipn.
  f_equal; [lia | f_equal; lia].
Qed.

Lemma py_slice_from_py_slice {A : Type} (l : list A) (a b x : Z) :
  0 <= a <= b -> b <= len l -> 0 <= x <= b - a ->
  py_slice_from (py_slice l a b) x = py_slice l (a + x) b.
Proof.
  intros H1 H2 H3.
  rewrite py_slice_from_inside by (rewrite len_py_slice; lia).
  rewrite len_py_slice by lia.
  rewrite py_slice_py_slice by lia. f_equal. lia.
Qed.

Lemma len_skipn {A : Type} (l : list A) (a : Z) :
  0 <= a <= len l -> len (skipn (Z.to_nat a) l) = len l - a.
Proof. intros H. unfold len in *. rewrite length_skipn. lia. Qed.

Lemma py_slice_from_from {A : Type} (l : list A) (a n : Z) :
  0 <= a -> 0 <= n -> a + n <= len l ->
  py_slice_from l (a + n) = py_slice_from (py_slice_from l a) n.
Proof.
  intros H1 H2 H3. unfold py_slice_from.
  rewrite (clamp_index_inside _ a), (clamp_index_inside _ (a + n)) by lia.
  rewrite len_skipn by lia. rewrite clamp_index_inside by lia.
  rewrite skipn_skipn. f_equal. lia.
Qed.

Lemma py_slice_head {A : Type} (l : list A) (a n : Z) :
  0 <= a -> 0 <= n -> a + n <= len l ->
  py_slice l a (a + n) = py_slice_to (py_slice_from l a) n.
Proof.
  intros H1 H2 H3. unfold py_slice_to, py_slice_from.
  rewrite (clamp_index_inside _ a) by lia.
  rewrite len_skipn by lia. rewrite clamp_index_inside by lia.
  rewrite py_slice_inside by lia. f_equal. lia.
Qed.

Lemma len_py_slice_to {A : Type} (l : list A) (n : Z) :
  0 <= n -> len (py_slice_to l n) = Z.min n (len l).
Proof.
  intros H. unfold py_slice_to, clamp_index.
  replace (n <? 0) with false by (symmetry; apply Z.ltb_ge; lia).
  unfold len. rewrite length_firstn. lia.
Qed.

Lemma py_slice_to_from {A : Type} (l : list A) (n : Z) :
  (py_slice_to l n ++ py_slice_from l n)%list = l.
Proof. unfold py_slice_to, py_slice_from. apply firstn_skipn. Qed.

(** ** Fetching from a faithful service *)

Lemma calculate_range_min (d : Downloader) (x : Z) :
  _calculate_range d x = (x, Z.min (x + chunk_size d) (end_index d)).
Proof.
  unfold _calculate_range. destruct (x + chunk_size d >? end_index d) eqn:E.
  - apply Z.gtb_lt in E. f_equal. lia.
  - rewrite Z.gtb_ltb in E. apply Z.ltb_ge in E. f_equal. lia.
Qed.

Lemma download_chunk_faithful (env : Env) (blob : list byte) (d : Downloader)
    (a b : Z) :
  faithful env blob ->
  0 <= a <= b -> b < len blob ->
  (forall ranges, dl_non_empty_ranges d = Some ranges ->
                  get_page_ranges env = Some ranges) ->
  match _download_chunk env d a b with
  | Fetched data cl _ => data = py_slice blob a (b + 1) /\ cl = len data
  | FetchFailed _ _ => True
  end.
Proof.
  intros F Hab Hb Hr. unfold _download_chunk, process_range_and_offset.
  rewrite (fs_plain _ _ F). cbn [fst snd].
  unfold _do_optimize. destruct (dl_non_empty_ranges d) as [ranges |] eqn:Er.
  - destruct (forallb (range_outside a b) ranges) eqn:Eo.
    + rewrite (fs_sparse _ _ F ranges a b (Hr _ eq_refl) Hab Hb Eo).
      split; [reflexivity |]. rewrite len_zeros; lia.
    + destruct (blob_download env (Some (a, b))) as [r | st hr] eqn:Ed; [| exact I].
      destruct (fs_range _ _ F a b r Hab Ed) as (_ & Hbody & Hlen & _).
      unfold process_content. rewrite (fs_plain _ _ F). split; congruence.
  - destruct (blob_download env (Some (a, b))) as [r | st hr] eqn:Ed; [| exact I].
    destruct (fs_range _ _ F a b r Hab Ed) as (_ & Hbody & Hlen & _).
    unfold process_content. rewrite (fs_plain _ _ F). split; congruence.
Qed.

Lemma yield_chunk_faithful (env : Env) (blob : list byte) (d : Downloader)
    (x : Z) :
  faithful env blob ->
  0 < chunk_size d -> 0 <= x < end_index d -> end_index d <= len blob ->
  (forall ranges, dl_non_empty_ranges d = Some ranges ->
                  get_page_ranges env = Some ranges) ->
  match yield_chunk env d x with
  | Fetched data cl _ =>
      data = py_slice blob x (Z.min (x + chunk_size d) (end_index d)) /\
      cl = len data /\
      len data = Z.min (x + chunk_size d) (end_index d) - x
  | FetchFailed _ _ => True
  end.
Proof.
  intros F Hc Hx He Hr. unfold yield_chunk. rewrite calculate_range_min.
  set (ce := Z.min (x + chunk_size d) (end_index d)).
  assert (Hce : x < ce <= len blob) by (subst ce; lia).
  pose proof (download_chunk_faithful env blob d x (ce - 1) F
                ltac:(lia) ltac:(lia) Hr) as H.
  destruct (_download_chunk env d x (ce - 1)) as [data cl reqs | e reqs];
    [| exact I].
  replace (ce - 1 + 1) with ce in H by lia. destruct H as [-> ->].
  repeat split. rewrite len_py_slice; lia.
Qed.

Lemma download_chunk_reliable (env : Env) (blob : list byte) (d : Downloader)
    (a b : Z) :
  faithful env blob -> reliable env blob ->
  0 <= a <= b -> b < len blob ->
  exists data cl reqs, _download_chunk env d a b = Fetched data cl reqs.
Proof.
  intros F R Hab Hb. unfold _download_chunk, process_range_and_offset.
  rewrite (fs_plain _ _ F). cbn [fst snd].
  destruct (_do_optimize d a b); [repeat eexists |].
  destruct (R a b Hab ltac:(lia)) as [r ->].
  unfold process_content. rewrite (fs_plain _ _ F). repeat eexists.
Qed.

(** ** The offsets under [read] *)

Lemma decoder_decode_shrinks (c : Codec) (buffer input buffer' : list byte)
    (final : bool) (text : list N) :
  shrinking c ->
  decoder_decode c buffer input final = Some (buffer', text) ->
  len text + len buffer' <= len buffer + len input.
Proof.
  intros Hc. unfold decoder_decode.
  destruct (c (buffer ++ input)%list final) as [[result consumed] |] eqn:E;
    [| discriminate].
  intros H; injection H as <- <-.
  destruct (Hc _ _ _ _ E) as [Hn Ho].
  rewrite py_slice_from_inside, len_py_slice by lia.
  rewrite len_app in Hn |- *. lia.
Qed.

Lemma in_text_mode_set (s : Stream) (dec : option (list byte)) :
  in_text_mode (set_text_mode s (Some true) dec) = true.
Proof. reflexivity. Qed.

Lemma offsets_from_cons (n : nat) (x step y : Z) (rest : list Z) :
  offsets_from n x step = y :: rest ->
  exists n', n = S n' /\ y = x /\ rest = offsets_from n' (x + step) step.
Proof.
  destruct n as [| n']; cbn; [discriminate |].
  intros H; injection H as <- <-. eauto.
Qed.

Lemma finish_read_state (s : Stream) (data : Content) (reqs : list Request) :
  outcome_state (finish_read s data reqs) = s.
Proof.
  unfold finish_read. destruct (in_text_mode s); [reflexivity |].
  destruct (_encoding (config s)); [| reflexivity].
  destruct data; [| reflexivity]. destruct (bytes_decode _ _); reflexivity.
Qed.

Lemma inv_offsets_ordered (env : Env) (blob : list byte) (s : Stream) :
  Inv env blob s -> 0 <= _read_offset s <= _download_offset s.
Proof.
  intros [_ _ Hcur Hread _ _ _ _ Hmode]. split; [exact Hread |].
  unfold mode_inv in Hmode. destruct (in_text_mode s).
  - destruct Hmode as [(t & buffer & codec & Hc & _ & _ & H) | (b & _ & _ & H0 & H)].
    + rewrite Hc in Hcur. cbn [clen] in Hcur. pose proof (len_nonneg buffer). lia.
    + lia.
  - destruct Hmode as (b & Hc & H & _). rewrite Hc in Hcur. cbn [clen] in Hcur.
    lia.
Qed.

Lemma offsets_from_start (n : nat) (a b step : Z) :
  (n <> O -> a = b) -> offsets_from n a step = offsets_from n b step.
Proof.
  destruct n; [reflexivity |]. intros H. now rewrite H.
Qed.

(** One pass of the loop in bytes mode: the buffer was consumed, a chunk
    arrives and [read] bytes of it are delivered. *)
Lemma step_bytes (env : Env) (blob : list byte) (s : Stream) (data : list byte)
    (read : Z) :
  Inv env blob s -> in_text_mode s = false -> _first_chunk s = false ->
  _text_mode s <> None ->
  _current_content_offset s = clen (_current_content s) ->
  data = window blob s (_download_offset s) (_download_offset s + len data) ->
  _download_offset s + len data <= size s ->
  0 <= read <= len data ->
  Inv env blob
    (set_offsets (set_current_content s (CBytes data))
       (_download_offset s + len data) (_raw_download_offset s + len data)
       (_read_offset s + read) read).
Proof.
  intros HI Ht Hfc Hm Hcco Hdata Hsize Hread.
  pose proof (inv_offsets_ordered _ _ _ HI) as Hord.
  destruct HI as [Hcfg Hwin Hcur Hro Hdl Hraw Hrng Hunset Hmode].
  unfold mode_inv in Hmode. rewrite Ht in Hmode.
  destruct Hmode as (b & Hc & Heq & Htail & _).
  rewrite Hc in Hcco. cbn [clen] in Hcco.
  constructor; cbn.
  - exact Hcfg.
  - exact Hwin.
  - exact Hread.
  - lia.
  - exact Hsize.
  - lia.
  - exact Hrng.
  - intros E. contradiction.
  - unfold mode_inv.
    replace (in_text_mode _) with false by (symmetry; exact Ht).
    exists data. cbn. split; [reflexivity |]. split; [lia |]. split.
    + unfold window in *. cbn.
      replace (_read_offset s + read) with (_download_offset s + read) by lia.
      rewrite Hdata at 1.
      rewrite py_slice_from_py_slice by lia. f_equal. lia.
    + rewrite Hfc. discriminate.
Qed.

(** One pass of the loop in text mode. *)
Lemma step_text (env : Env) (blob : list byte) (s : Stream)
    (k read : Z) (buffer' : list byte) (text : list N) :
  Inv env blob s -> in_text_mode s = true -> text_ok s ->
  0 <= k -> _download_offset s + k <= size s ->
  (forall buffer, _decoder s = Some buffer ->
                  len text + len buffer' <= len buffer + k) ->
  0 <= read <= len text ->
  Inv env blob
    (set_offsets
       (set_current_content
          (set_text_mode
             (set_offsets s (_download_offset s + k) (_raw_download_offset s + k)
                (_read_offset s) (_current_content_offset s))
             (Some true) (Some buffer'))
          (CStr text))
       (_download_offset s + k) (_raw_download_offset s + k)
       (_read_offset s + read) read).
Proof.
  intros HI Ht Hok Hk Hsize Hdec Hread.
  destruct HI as [Hcfg Hwin Hcur Hro Hdl Hraw Hrng Hunset Hmode].
  destruct Hok as (t & buffer & codec & Hc & Hd & He & Hle).
  rewrite Hc in Hcur. cbn [clen] in Hcur.
  specialize (Hdec _ Hd).
  constructor; cbn.
  - exact Hcfg.
  - exact Hwin.
  - exact Hread.
  - lia.
  - exact Hsize.
  - lia.
  - exact Hrng.
  - discriminate.
  - unfold mode_inv. cbn. left. exists text, buffer', codec. cbn.
    repeat split; auto. lia.
Qed.

Lemma inv_downloaded_text (env : Env) (blob : list byte) (s : Stream) (k : Z) :
  Inv env blob s -> in_text_mode s = true -> text_ok s ->
  0 <= k -> _download_offset s + k <= size s ->
  Inv env blob (downloaded s k k) /\ text_ok (downloaded s k k).
Proof.
  intros HI Ht Hok Hk Hsize.
  destruct HI as [Hcfg Hwin Hcur Hro Hdl Hraw Hrng Hunset Hmode].
  assert (Hok' : text_ok (downloaded s k k)).
  { destruct Hok as (t & buffer & codec & Hc & Hd & He & Hle).
    exists t, buffer, codec. cbn. repeat split; auto. lia. }
  split; [| exact Hok'].
  constructor; cbn; auto; try lia.
  unfold mode_inv.
  replace (in_text_mode _) with true by (symmetry; exact Ht).
  left. exact Hok'.
Qed.

Lemma chunk_loop_inv (env : Env) (blob : list byte) (d : Downloader) :
  faithful env blob ->
  forall chunks_iter s out remaining reqs n,
    Inv env blob s ->
    _first_chunk s = false ->
    _text_mode s <> None ->
    (in_text_mode s = true -> text_ok s) ->
    (in_text_mode s = false -> 0 < remaining ->
     _current_content_offset s = clen (_current_content s)) ->
    chunk_size d = max_chunk_get_size (config s) ->
    end_index d = _download_start s + size s ->
    dl_non_empty_ranges d = _non_empty_ranges s ->
    chunks_iter =
      offsets_from n (_download_start s + _download_offset s) (chunk_size d) ->
    (forall n', n = S n' ->
       Z.of_nat n' * chunk_size d < size s - _download_offset s) ->
    Inv env blob (outcome_state (chunk_loop env d chunks_iter s out remaining reqs)) /\
    _read_offset s <=
      _read_offset (outcome_state (chunk_loop env d chunks_iter s out remaining reqs)).
Proof.
  intros F. induction chunks_iter as [| x rest IH];
    intros s out remaining reqs n HI Hfc Hm Htext Hbytes Hcs Hend Hranges Hplan Hn;
    cbn [chunk_loop].
  - rewrite finish_read_state. split; [exact HI | lia].
  - destruct (remaining >? 0) eqn:Hrem;
      [| rewrite finish_read_state; split; [exact HI | lia]].
    apply Z.gtb_lt in Hrem.
    symmetry in Hplan. apply offsets_from_cons in Hplan as (n' & -> & -> & ->).
    specialize (Hn n' eq_refl).
    pose proof (inv_offsets_ordered _ _ _ HI) as Hord.
    pose proof (inv_cfg _ _ _ HI) as (_ & Hchunk & _ & Hcodec).
    pose proof (inv_window _ _ _ HI) as Hwin.
    pose proof (inv_raw _ _ _ HI) as Hraw.
    assert (Hpos : 0 <= Z.of_nat n' * chunk_size d) by (rewrite Hcs; nia).
    pose proof (yield_chunk_faithful env blob d
                  (_download_start s + _download_offset s) F
                  ltac:(lia) ltac:(lia) ltac:(lia)
                  ltac:(rewrite Hranges; apply (inv_ranges _ _ _ HI))) as Hy.
    destruct (yield_chunk env d (_download_start s + _download_offset s))
      as [data cl r | e r]; [| cbn; split; [exact HI | lia]].
    destruct Hy as (Hdata & -> & Hlen).
    assert (Hfit : _download_offset s + len data <= size s) by lia.
    assert (Hnext :
              offsets_from n' (_download_start s + _download_offset s + chunk_size d)
                (chunk_size d) =
              offsets_from n'
                (_download_start s + (_download_offset s + len data))
                (chunk_size d)).
    { apply offsets_from_start. intros Hn'. destruct n'; [congruence |]. nia. }
    assert (Hn2 : forall m, n' = S m ->
              Z.of_nat m * chunk_size d <
              size s - (_download_offset s + len data)).
    { intros m ->. nia. }
    change (in_text_mode (downloaded s (len data) (len data)))
      with (in_text_mode s).
    destruct (in_text_mode s) eqn:Ht.
    + destruct (inv_downloaded_text env blob s (len data) HI Ht (Htext eq_refl)
                  (len_nonneg _) Hfit) as [HI1 Hok1].
      destruct (Htext eq_refl) as (t & buffer & codec & Hc & Hd & He & Hle).
      change (config (downloaded s (len data) (len data))) with (config s).
      change (_decoder (downloaded s (len data) (len data))) with (_decoder s).
      rewrite He, Hd.
      destruct (decoder_decode codec buffer data _) as [[buffer' text] |] eqn:Ed;
        [| cbn; split; [exact HI1 | lia]].
      rewrite He in Hcodec.
      pose proof (inv_cursor _ _ _ HI) as Hcur.
      rewrite Hc in Hcur. cbn [clen] in Hcur.
      pose proof (decoder_decode_shrinks _ _ _ _ _ _ Hcodec Ed) as Hshrink.
      set (piece := if remaining <? clen (CStr text)
                    then cslice_to (CStr text) remaining else CStr text).
      assert (Hpiece : 0 <= clen piece <= len text).
      { subst piece. destruct (remaining <? clen (CStr text)); cbn.
        - rewrite len_py_slice_to by lia. pose proof (len_nonneg text). lia.
        - pose proof (len_nonneg text). lia. }
      match goal with
      | |- Inv _ _ (outcome_state (chunk_loop _ _ _ ?s4 _ _ _)) /\ _ =>
          assert (HI4 : Inv env blob s4)
      end.
      { apply (step_text env blob s (len data) (clen piece) buffer' text HI Ht
                 (Htext eq_refl) (len_nonneg _) Hfit); [| exact Hpiece].
        intros buffer0 E0. rewrite Hd in E0. injection E0 as <-. lia. }
      match goal with
      | |- Inv _ _ (outcome_state (chunk_loop _ _ _ ?s4 ?o ?rm ?rq)) /\ _ =>
          destruct (IH s4 o rm rq n' HI4) as [HIf Hrof]
      end; try assumption; try reflexivity.
      * discriminate.
      * intros _. exists text, buffer', codec. cbn.
        repeat split; auto. lia.
      * cbn. discriminate.
      * split; [exact HIf |].
        eapply Z.le_trans; [| exact Hrof].
        change (_read_offset s <= _read_offset s + clen piece). lia.
    + specialize (Hbytes eq_refl Hrem).
      set (piece := if remaining <? clen (CBytes data)
                    then cslice_to (CBytes data) remaining else CBytes data).
      assert (Hpiece : 0 <= clen piece <= len data /\
                       (0 < remaining - clen piece -> clen piece = len data)).
      { subst piece. destruct (remaining <? clen (CBytes data)) eqn:El; cbn in *.
        - apply Z.ltb_lt in El. rewrite len_py_slice_to by lia. lia.
        - apply Z.ltb_ge in El. pose proof (len_nonneg data). lia. }
      match goal with
      | |- Inv _ _ (outcome_state (chunk_loop _ _ _ ?s4 _ _ _)) /\ _ =>
          assert (HI4 : Inv env blob s4)
      end.
      { apply (step_bytes env blob s data (clen piece) HI Ht Hfc Hm Hbytes);
          [| exact Hfit | apply Hpiece].
        unfold window. rewrite Hdata at 1. f_equal; lia. }
      match goal with
      | |- Inv _ _ (outcome_state (chunk_loop _ _ _ ?s4 ?o ?rm ?rq)) /\ _ =>
          destruct (IH s4 o rm rq n' HI4) as [HIf Hrof]
      end; try assumption; try reflexivity.
      * intros E. change (in_text_mode s = true) in E. congruence.
      * intros _ Hr. change (clen piece = len data). apply Hpiece. exact Hr.
      * split; [exact HIf |].
        eapply Z.le_trans; [| exact Hrof].
        change (_read_offset s <= _read_offset s + clen piece). lia.
Qed.

Lemma usage_check_text_unset (s : Stream) (size0 c : Z) :
  usage_check s size0 (Some c) = None -> in_text_mode s = false ->
  _text_mode s = None /\ exists codec, _encoding (config s) = Some codec.
Proof.
  unfold usage_check, in_text_mode, in_bytes_mode, has_encoding.
  cbn [is_some]. rewrite !andb_true_r.
  destruct (size0 >? -1); [discriminate |].
  destruct (_encoding (config s)) as [codec |]; cbn [is_some negb];
    [| discriminate].
  destruct (_text_mode s) as [[|] |]; try discriminate.
  intros _ _. eauto.
Qed.

Lemma enter_mode_inv (env : Env) (blob : list byte) (s : Stream) (size0 : Z)
    (chars : option Z) :
  Inv env blob s -> usage_check s size0 chars = None ->
  match enter_mode env s chars with
  | inl (_, s') => Inv env blob s' /\ _read_offset s' = _read_offset s
  | inr s1 =>
      Inv env blob s1 /\ _read_offset s1 = _read_offset s /\
      _text_mode s1 <> None
  end.
Proof.
  intros HI Hu. unfold enter_mode.
  pose proof (inv_offsets_ordered _ _ _ HI) as Hord.
  destruct (in_text_mode s) eqn:Ht; cbn [negb andb].
  - assert (Hm : _text_mode s = Some true).
    { unfold in_text_mode in Ht. destruct (_text_mode s) as [[|] |]; congruence. }
    rewrite Hm. split; [exact HI | split; [reflexivity | congruence]].
  - destruct chars as [c |]; cbn [is_some].
    + destruct (usage_check_text_unset _ _ _ Hu Ht) as [Hm [codec He]].
      destruct HI as [Hcfg Hwin Hcur Hro Hdl Hraw Hrng Hunset Hmode].
      destruct (Hunset Hm) as [Hc0 Hr0].
      unfold mode_inv in Hmode. rewrite Ht in Hmode.
      destruct Hmode as (b & Hc & Heq & Htail & Hfirst).
      rewrite He, Hc.
      destruct (decoder_decode codec [] b _) as [[buffer text] |] eqn:Ed.
      * pose proof Hcfg as (H1 & H2 & H3 & Hcodec). rewrite He in Hcodec.
        pose proof (decoder_decode_shrinks _ _ _ _ _ _ Hcodec Ed) as Hs.
        change (len []) with 0 in Hs. pose proof (len_nonneg text).
        pose proof (len_nonneg buffer).
        split; [| split; [reflexivity | discriminate]].
        constructor; cbn; auto; try lia; try discriminate.
        left. exists text, buffer, codec. cbn.
        repeat split; auto. lia.
      * split; [| reflexivity].
        constructor; cbn; auto; try lia; try discriminate.
        right. exists b. cbn. repeat split; auto. lia.
    + destruct (_text_mode s) as [m |] eqn:Hm.
      * split; [exact HI | split; [reflexivity | congruence]].
      * split; [| split; [reflexivity | discriminate]].
        destruct HI as [Hcfg Hwin Hcur Hro Hdl Hraw Hrng Hunset Hmode].
        constructor; cbn; auto; try discriminate.
        unfold mode_inv in Hmode. rewrite Ht in Hmode. exact Hmode.
Qed.

Lemma inv_consume (env : Env) (blob : list byte) (s : Stream) (read : Z) :
  Inv env blob s -> _text_mode s <> None ->
  same_kind (in_text_mode s) (_current_content s) = true ->
  0 <= read <= clen (_current_content s) - _current_content_offset s ->
  Inv env blob (consume s read) /\
  (in_text_mode s = true -> text_ok (consume s read)).
Proof.
  intros HI Hm Hk Hread.
  pose proof (inv_offsets_ordered _ _ _ HI) as Hord.
  destruct HI as [Hcfg Hwin Hcur Hro Hdl Hraw Hrng Hunset Hmode].
  unfold mode_inv in Hmode.
  assert (Hok : in_text_mode s = true -> text_ok (consume s read)).
  { intros Ht. rewrite Ht in Hmode, Hk.
    destruct Hmode as [(t & buffer & codec & Hc & Hd & He & Hle) | (b & Hc & _)].
    - exists t, buffer, codec. cbn. rewrite Hc in Hread. cbn [clen] in Hread.
      repeat split; auto. lia.
    - rewrite Hc in Hk. discriminate. }
  split; [| exact Hok].
  constructor; cbn; auto; try lia.
  - intros E. contradiction.
  - unfold mode_inv. change (in_text_mode (consume s read)) with (in_text_mode s).
    destruct (in_text_mode s) eqn:Ht.
    + left. now apply Hok.
    + destruct Hmode as (b & Hc & Heq & Htail & Hfirst).
      rewrite Hc in Hread, Hcur. cbn [clen] in Hread, Hcur.
      exists b. cbn. split; [exact Hc |]. split; [lia |]. split.
      * unfold window in *. cbn.
        rewrite py_slice_from_from, Htail by lia.
        rewrite py_slice_from_py_slice by lia. f_equal. lia.
      * intros E. destruct (Hfirst E) as [Hb Hcr]. split; [exact Hb | lia].
Qed.

Lemma inv_first_chunk_false (env : Env) (blob : list byte) (s : Stream) :
  Inv env blob s -> Inv env blob (set_first_chunk s false).
Proof.
  intros [Hcfg Hwin Hcur Hro Hdl Hraw Hrng Hunset Hmode].
  constructor; cbn; auto.
  unfold mode_inv in *.
  change (in_text_mode (set_first_chunk s false)) with (in_text_mode s).
  destruct (in_text_mode s).
  - destruct Hmode as [(t & buffer & codec & H) | (b & H)].
    + left. exists t, buffer, codec. exact H.
    + right. exists b. exact H.
  - destruct Hmode as (b & Hc & Heq & Htail & _). exists b. cbn.
    repeat split; auto; discriminate.
Qed.

Lemma inv_complete_read (env : Env) (blob : list byte) (s : Stream) :
  Inv env blob s -> in_text_mode s = false -> _text_mode s <> None ->
  _first_chunk s = false ->
  Inv env blob (_complete_read s).
Proof.
  intros HI Ht Hm Hfc.
  destruct HI as [Hcfg Hwin Hcur Hro Hdl Hraw Hrng Hunset Hmode].
  unfold mode_inv in Hmode. rewrite Ht in Hmode.
  destruct Hmode as (b & Hc & Heq & Htail & _).
  constructor; cbn; auto; try lia.
  - intros E. contradiction.
  - unfold mode_inv.
    change (in_text_mode (_complete_read s)) with (in_text_mode s). rewrite Ht.
    exists b. cbn. rewrite Hc. cbn [clen]. split; [reflexivity |].
    split; [lia |]. split.
    + unfold window. cbn. pose proof (len_nonneg b).
      rewrite py_slice_from_inside, !py_slice_empty by lia. reflexivity.
    + rewrite Hfc. discriminate.
Qed.

Lemma chunk_count_bound (d : Downloader) (n' : nat) :
  0 < chunk_size d -> chunk_count d = S n' ->
  Z.of_nat n' * chunk_size d < end_index d - start_index d.
Proof.
  intros Hc. unfold chunk_count.
  destruct (chunk_size d <=? 0) eqn:E; [discriminate |].
  intros H.
  pose proof (Z.mul_div_le (end_index d - start_index d + chunk_size d - 1)
                (chunk_size d) Hc) as Hd.
  assert (Hq : Z.of_nat (S n') <=
               (end_index d - start_index d + chunk_size d - 1) / chunk_size d)
    by lia.
  nia.
Qed.

Lemma clen_cslice_le (c : Content) (a b : Z) :
  0 <= a <= clen c -> 0 <= clen (cslice c a b) <= clen c - a.
Proof.
  intros H. destruct c as [x | t]; cbn [clen cslice] in *; split;
    try apply len_nonneg; apply len_py_slice_le; exact H.
Qed.

Lemma clen_cslice (c : Content) (a n : Z) :
  0 <= a -> 0 <= n -> a + n <= clen c -> clen (cslice c a (a + n)) = n.
Proof.
  intros H1 H2 H3. destruct c as [x | t]; cbn [clen cslice] in *;
    rewrite len_py_slice; lia.
Qed.

Lemma same_kind_cslice (text : bool) (c : Content) (a b : Z) :
  same_kind text (cslice c a b) = same_kind text c.
Proof. destruct c; reflexivity. Qed.

Lemma read_data_inv (env : Env) (blob : list byte) (orc : Oracle) (s : Stream)
    (size0 : Z) (chars : option Z) :
  faithful env blob -> Inv env blob s -> _text_mode s <> None ->
  Inv env blob (outcome_state (read_data env orc s size0 chars)) /\
  _read_offset s <= _read_offset (outcome_state (read_data env orc s size0 chars)).
Proof.
  intros F HI Hm. unfold read_data.
  set (text := in_text_mode s).
  set (size1 := if text then _ else _).
  set (length := Z.min _ size1).
  set (piece := cslice _ _ _).
  pose proof (inv_cursor _ _ _ HI) as Hcur.
  destruct (same_kind text piece) eqn:Hk; cbn [negb];
    [| cbn; split; [exact HI | lia]].
  subst piece. rewrite same_kind_cslice in Hk.
  set (piece := cslice _ _ _) in *.
  pose proof (clen_cslice_le (_current_content s) (_current_content_offset s)
                (_current_content_offset s + length) Hcur) as Hread.
  fold piece in Hread.
  destruct (inv_consume env blob s (clen piece) HI Hm Hk Hread) as [HI1 Hok1].
  destruct ((size1 - clen piece >? 0) &&
            negb (_download_complete env (consume s (clen piece)))) eqn:Hgo.
  2: { rewrite finish_read_state. split; [exact HI1 | cbn; lia]. }
  apply andb_true_iff in Hgo as [Hrem _]. apply Z.gtb_lt in Hrem.
  pose proof (inv_first_chunk_false _ _ _ HI1) as HI2.
  set (s2 := set_first_chunk (consume s (clen piece)) false) in *.
  set (d := new_downloader _ _ _ _).
  assert (Hro2 : _read_offset s <= _read_offset s2) by (cbn; lia).
  destruct ((size1 =? maxsize) && negb text) eqn:Hall.
  - apply andb_true_iff in Hall as [_ Hnt]. apply negb_true_iff in Hnt.
    destruct (_ || _); [cbn; split; [exact HI2 | exact Hro2] |].
    destruct (run_events env d _ _) as [[[e |] k'] reqs].
    + cbn [outcome_state]. split; [exact HI2 | exact Hro2].
    + rewrite finish_read_state. split.
      * apply inv_complete_read; auto.
      * pose proof (inv_offsets_ordered _ _ _ HI2) as Ho.
        pose proof (inv_download _ _ _ HI2) as Hd.
        change (_read_offset (_complete_read s2)) with (size s2). lia.
  - pose proof (inv_cfg _ _ _ HI) as (_ & Hchunk & _).
    destruct (chunk_loop_inv env blob d F (get_chunk_offsets d) s2 piece
                (size1 - clen piece) [] (chunk_count d) HI2) as [HIf Hrof];
      try reflexivity; try assumption.
    + intros Ht _. change (in_text_mode s = false) in Ht.
      change (_current_content_offset s + clen piece = clen (_current_content s)).
      assert (Hs1 : 0 < size1).
      { subst size1 text. rewrite Ht. destruct (size0 >? 0) eqn:E.
        - apply Z.gtb_lt in E. lia.
        - unfold maxsize. lia. }
      assert (Hl : 0 <= length) by (subst length; lia).
      assert (Hp : clen piece = length).
      { subst piece. apply clen_cslice; subst length; lia. }
      subst length. lia.
    + intros n' E. pose proof (chunk_count_bound d n' Hchunk E) as Hb.
      cbn in Hb. cbn. lia.
    + split; [exact HIf | lia].
Qed.

(** [read] keeps the invariant and never moves [read_offset] back. *)
Lemma read_inv (env : Env) (blob : list byte) (orc : Oracle) (s : Stream)
    (size0 : Z) (chars : option Z) :
  faithful env blob -> Inv env blob s ->
  Inv env blob (outcome_state (read env orc s size0 chars)) /\
  _read_offset s <= _read_offset (outcome_state (read env orc s size0 chars)).
Proof.
  intros F HI. unfold read.
  destruct (usage_check s size0 chars) eqn:Hu; [cbn; split; [exact HI | lia] |].
  destruct (_ || _ || _); [cbn; split; [exact HI | lia] |].
  pose proof (enter_mode_inv env blob s size0 chars HI Hu) as He.
  destruct (enter_mode env s chars) as [[e s'] | s1].
  - cbn. destruct He as [HI' Hr]. split; [exact HI' | lia].
  - destruct He as (HI1 & Hr & Hm).
    destruct (read_data_inv env blob orc s1 size0 chars F HI1 Hm) as [HIf Hrof].
    split; [exact HIf | lia].
Qed.

Lemma reads_inv (env : Env) (blob : list byte) :
  faithful env blob ->
  forall calls s,
    Inv env blob s ->
    Inv env blob (reads env s calls) /\
    _read_offset s <= _read_offset (reads env s calls).
Proof.
  intros F. induction calls as [| [[orc size0] chars] rest IH]; intros s HI.
  - cbn. split; [exact HI | lia].
  - cbn [reads].
    destruct (read_inv env blob orc s size0 chars F HI) as [HI1 Hr1].
    destruct (IH _ HI1) as [HIf Hrf]. split; [exact HIf | lia].
Qed.

(** ** The initial request *)

Lemma py_slice_clip {A : Type} (l : list A) (a b : Z) :
  0 <= a <= len l -> a <= b ->
  py_slice l a b = py_slice l a (a + len (py_slice l a b)) /\
  len (py_slice l a b) = Z.min b (len l) - a.
Proof.
  intros Ha Hb. destruct (Z.le_gt_cases b (len l)) as [H | H].
  - rewrite len_py_slice by lia. split; [f_equal; lia | lia].
  - rewrite (py_slice_past l a b) by lia. rewrite len_py_slice by lia.
    split; [f_equal; lia | lia].
Qed.

Lemma initial_range_plain (env : Env) (blob : list byte) (cfg : Config) :
  faithful env blob -> well_formed cfg ->
  exists a b,
    initial_range_and_offset env cfg = ((a, b), (0, 0)) /\
    a = match _start_range cfg with Some s => s | None => 0 end /\
    0 <= a <= b /\
    (forall e, _end_range cfg = Some e -> b <= e).
Proof.
  intros F (H1 & H2 & H3 & _). unfold initial_range_and_offset.
  unfold process_range_and_offset. rewrite (fs_plain _ _ F).
  set (fgs := if negb (_validate_content cfg) then _ else _).
  assert (Hf : 0 < fgs) by (subst fgs; destruct (negb _); lia).
  eexists; eexists. split; [reflexivity |]. split; [reflexivity |].
  destruct (_start_range cfg) as [st |], (_end_range cfg) as [e |];
    try destruct (_ <? fgs) eqn:E;
    try apply Z.ltb_lt in E; try apply Z.ltb_ge in E;
    (split; [lia |]); intros e' He; try discriminate;
    injection He as <-; lia.
Qed.

Lemma fresh_inv (env : Env) (blob : list byte) (cfg : Config)
    (sz fsz a raw : Z) (content : list byte) (ranges : option (list (Z * Z))) :
  well_formed cfg ->
  ranges = None \/ ranges = get_page_ranges env ->
  0 <= a -> 0 <= sz -> a + sz <= len blob ->
  len content <= sz -> raw = len content ->
  content = py_slice blob a (a + len content) ->
  Inv env blob
    {| config := cfg; size := sz; _file_size := fsz;
       _current_content := CBytes content;
       _non_empty_ranges := ranges;
       _download_offset := 0 + len content;
       _raw_download_offset := 0 + raw;
       _read_offset := 0; _current_content_offset := 0;
       _text_mode := None; _decoder := None;
       _first_chunk := true; _download_start := a |}.
Proof.
  intros Hwf Hrg Ha Hsz Hfit Hle -> Hc. pose proof (len_nonneg content).
  constructor; cbn [config size _file_size _current_content _non_empty_ranges
                    _download_offset _raw_download_offset _read_offset
                    _current_content_offset _text_mode _decoder _first_chunk
                    _download_start clen]; auto; try lia.
  - intros rs E'. destruct Hrg as [-> | ->]; [discriminate | exact E'].
  - unfold mode_inv, in_text_mode, bytes_inv, window.
    cbn [config size _file_size _current_content _non_empty_ranges
         _download_offset _raw_download_offset _read_offset
         _current_content_offset _text_mode _decoder _first_chunk
         _download_start clen].
    exists content. split; [reflexivity |]. split; [lia |].
    rewrite Z.add_0_r, Z.add_0_l.
    split; [| intros _; split; [exact Hc | reflexivity]].
    unfold py_slice_from. rewrite clamp_index_inside by lia.
    cbn [Z.to_nat skipn]. exact Hc.
Qed.

Ltac finish_setup F E Hclip :=
  unfold process_content; rewrite (fs_plain _ _ F); cbn iota;
  intros E;
  match type of E with
  | context [is_page_blob ?r] =>
      destruct (is_page_blob r); injection E as <- <-;
      (split; [apply fresh_inv; auto; try lia |
               cbn; repeat split; auto; try discriminate; try lia])
  end.

(** A stream that [_setup] returns satisfies the invariant; it holds the
    first chunk and no mode is fixed. *)
Lemma setup_inv (env : Env) (blob : list byte) (cfg : Config) (s : Stream)
    (reqs : list Request) :
  faithful env blob -> well_formed cfg ->
  _setup env cfg = (inr s, reqs) ->
  Inv env blob s /\ config s = cfg /\ _text_mode s = None /\
  _first_chunk s = true /\
  _download_start s = match _start_range cfg with Some x => x | None => 0 end /\
  (_start_range cfg = None -> _end_range cfg = None -> size s = len blob).
Proof.
  intros F Hwf. unfold _setup.
  destruct (initial_range_plain env blob cfg F Hwf) as (a & b & -> & Ha & Hab & Hend).
  unfold _initial_request, initial_download.
  rewrite (fs_plain _ _ F). cbn [app].
  destruct (blob_download env (Some (a, b))) as [r | status hr] eqn:Ed.
  - destruct (fs_range _ _ F a b r Hab Ed) as (Halen & Hbody & Hlen & ->).
    rewrite (fs_size _ _ F).
    pose proof (py_slice_clip blob a (b + 1) ltac:(lia) ltac:(lia)) as [Hclip Hl].
    rewrite <- Hbody in Hclip, Hl.
    destruct (_end_range cfg) as [e |] eqn:Ee, (_start_range cfg) as [st |] eqn:Es;
      cbn [in_size in_response in_file_size].
    + subst a. specialize (Hend e eq_refl).
      replace (Z.min (len blob - st) (e - st + 1) =? 0) with false
        by (symmetry; apply Z.eqb_neq; lia).
      finish_setup F E Hclip.
    + discriminate.
    + subst a.
      replace (len blob - st =? 0) with false
        by (symmetry; apply Z.eqb_neq; lia).
      finish_setup F E Hclip.
    + subst a.
      replace (len blob =? 0) with false
        by (symmetry; apply Z.eqb_neq; lia).
      finish_setup F E Hclip.
  - destruct (negb (is_some (_start_range cfg)) && hr && (status =? 416)) eqn:E416;
      [| discriminate].
    apply andb_true_iff in E416 as [E1 E3]. apply andb_true_iff in E1 as [E1 E2].
    apply Z.eqb_eq in E3. subst status.
    destruct (_start_range cfg) as [st |] eqn:Es; [discriminate |]. subst a.
    pose proof (fs_416 _ _ F 0 b hr Hab Ed) as Hempty.
    pose proof (len_nonneg blob).
    destruct (blob_download env None) as [r | status' hr'] eqn:Ew; [| discriminate].
    pose proof (fs_whole _ _ F r Ew) as Hcl.
    cbn [in_size in_response in_file_size]. change (0 =? 0) with true. cbn iota.
    intros E.
    destruct (is_page_blob r); injection E as <- <-;
      (split; [apply fresh_inv; auto; change (len (@nil byte)) with 0;
               try lia; try (change (content_length r = 0); lia);
               try (cbn; rewrite py_slice_empty by lia; reflexivity) |
               cbn; repeat split; auto; try discriminate; try lia]).
Qed.

Lemma complete_iff_all_downloaded (env : Env) (blob : list byte) (s : Stream) :
  faithful env blob -> Inv env blob s ->
  _download_complete env s = true <-> _download_offset s = size s.
Proof.
  intros F HI. unfold _download_complete. rewrite (fs_not_v2 _ _ F).
  rewrite (inv_raw _ _ _ HI). pose proof (inv_download _ _ _ HI).
  rewrite Z.geb_le. lia.
Qed.

Lemma reads_app (env : Env) (calls more : list (Oracle * Z * option Z)) :
  forall s, reads env s (calls ++ more) = reads env (reads env s calls) more.
Proof.
  induction calls as [| [[orc size0] chars] rest IH]; intros s;
    [reflexivity | apply IH].
Qed.

(** C2: on a session without encryption, after any sequence of [read]
    calls the offsets are ordered, [read_offset <= download_offset <= size],
    the cursor is within the buffered chunk, and whatever calls follow,
    [read_offset] does not go back. *)
Theorem offsets_stay_ordered (env : Env) (blob : list byte) (cfg : Config)
    (s0 : Stream) (reqs : list Request)
    (calls more : list (Oracle * Z * option Z)) :
  faithful env blob -> well_formed cfg ->
  _setup env cfg = (inr s0, reqs) ->
  let s := reads env s0 calls in
  _read_offset s <= _read_offset (reads env s more) /\
  _read_offset s <= _download_offset s /\
  _download_offset s <= size s /\
  _current_content_offset s <= clen (_current_content s).
Proof.
  intros F Hwf Hs s.
  destruct (setup_inv env blob cfg s0 reqs F Hwf Hs) as (HI0 & _).
  destruct (reads_inv env blob F calls s0 HI0) as [HI _]. fold s in HI.
  destruct (reads_inv env blob F more s HI) as [_ Hmono].
  pose proof (inv_offsets_ordered _ _ _ HI).
  pose proof (inv_download _ _ _ HI). pose proof (inv_cursor _ _ _ HI).
  repeat split; lia.
Qed.

Lemma serve_faithful (blob : list byte) :
  faithful (plain_env blob None) blob.
Proof.
  constructor; cbn; try reflexivity.
  - intros a b r Hab. unfold serve.
    destruct ((0 <=? a) && (a <? len blob)) eqn:E; [| discriminate].
    apply andb_true_iff in E as [_ E]. apply Z.ltb_lt in E.
    intros H; injection H as <-. cbn. auto.
  - intros a b hr Hab. unfold serve.
    destruct ((0 <=? a) && (a <? len blob)) eqn:E; [discriminate |].
    intros _. apply andb_false_iff in E as [E | E].
    + apply Z.leb_gt in E. lia.
    + apply Z.ltb_ge in E. lia.
  - intros r H; injection H as <-. reflexivity.
  - discriminate.
Qed.

Lemma serve_reliable (blob : list byte) :
  reliable (plain_env blob None) blob.
Proof.
  intros a b Hab Ha. cbn. unfold serve.
  replace ((0 <=? a) && (a <? len blob)) with true; [eexists; reflexivity |].
  symmetry. apply andb_true_iff. split; [apply Z.leb_le | apply Z.ltb_lt]; lia.
Qed.

Lemma default_config_well_formed (chunk conc : Z) :
  0 < chunk -> well_formed (default_config chunk conc).
Proof. intros H. repeat split; cbn; auto. Qed.

Lemma latin1_shrinking : shrinking latin1.
Proof.
  intros data final out n H. unfold latin1 in H. injection H as <- <-.
  pose proof (len_nonneg data). unfold len in *. rewrite length_map. lia.
Qed.

Lemma text_config_well_formed (chunk conc : Z) :
  0 < chunk -> well_formed (text_config chunk conc).
Proof.
  intros H. split; [exact H |]. split; [exact H |].
  split; [exact I | exact latin1_shrinking].
Qed.

Lemma offsets_stay_ordered_witness :
  let env := plain_env ten_bytes None in
  exists s0 reqs,
    _setup env (text_config 4 1) = (inr s0, reqs) /\
    let s := reads env s0 [(fifo, -1, Some 3); (fifo, -1, Some 3)] in
    _read_offset s <= _read_offset (reads env s [(fifo, -1, None)]) /\
    _read_offset s <= _download_offset s /\
    _download_offset s <= size s /\
    _current_content_offset s <= clen (_current_content s).
Proof.
  eexists; eexists. split; [reflexivity |].
  exact (offsets_stay_ordered (plain_env ten_bytes None) ten_bytes
           (text_config 4 1) _ _
           [(fifo, -1, Some 3); (fifo, -1, Some 3)] [(fifo, -1, None)]
           (serve_faithful ten_bytes)
           (text_config_well_formed 4 1 ltac:(lia)) eq_refl).
Defined.

(** C1 (as amended): on a session without encryption the download is
    complete exactly when [download_offset = size] (the code tests
    [raw_download_offset >= size], under encryption v2
    [download_offset >= size]).  In any state, once the download is complete
    neither [read] nor [readinto] issues a request; [read] returns the empty
    result with the state unchanged as soon as the buffered chunk is
    consumed too, and [readinto] returns 0 with the state and the sink
    unchanged as soon as [read_offset] has reached [size]. *)
Theorem complete_stream_issues_no_request :
  (forall env blob cfg s0 reqs calls,
     faithful env blob -> well_formed cfg ->
     _setup env cfg = (inr s0, reqs) ->
     let s := reads env s0 calls in
     _download_complete env s = true <-> _download_offset s = size s) /\
  (forall env orc s,
     _download_complete env s = true ->
     (forall size0 chars, outcome_requests (read env orc s size0 chars) = []) /\
     (forall size0 chars,
        _current_content_offset s >= clen (_current_content s) ->
        usage_check s size0 chars = None ->
        read env orc s size0 chars = Ret (empty_result s) s []) /\
     (forall stream, outcome_requests (fst (readinto env orc s stream)) = []) /\
     (forall stream,
        _read_offset s >= size s ->
        usage_error s (CallReadinto stream) \/
        readinto env orc s stream = (Ret 0 s [], stream))).
Proof.
  split.
  - intros env blob cfg s0 reqs calls F Hwf Hs s.
    destruct (setup_inv env blob cfg s0 reqs F Hwf Hs) as (HI0 & _).
    destruct (reads_inv env blob F calls s0 HI0) as [HI _].
    apply (complete_iff_all_downloaded env blob _ F HI).
  - intros env orc s Hc. apply complete_stream_quiet. exact Hc.
Qed.

Lemma complete_stream_issues_no_request_witness :
  let env := plain_env three_bytes None in
  (exists s0 reqs,
     _setup env (default_config 4 1) = (inr s0, reqs) /\
     (_download_complete env (reads env s0 [(fifo, 2, None)]) = true <->
      _download_offset (reads env s0 [(fifo, 2, None)]) =
      size (reads env s0 [(fifo, 2, None)]))) /\
  (let s := stream_of (default_config 4 1) three_bytes 3 in
   _download_complete env s = true /\
   outcome_requests (read env fifo s (-1) None) = []).
Proof.
  split.
  - eexists; eexists. split; [reflexivity |].
    exact (proj1 complete_stream_issues_no_request
             (plain_env three_bytes None) three_bytes (default_config 4 1)
             _ _ [(fifo, 2, None)] (serve_faithful three_bytes)
             (default_config_well_formed 4 1 ltac:(lia)) eq_refl).
  - split; [reflexivity |].
    exact (proj1 (proj2 complete_stream_issues_no_request
                    (plain_env three_bytes None) fifo
                    (stream_of (default_config 4 1) three_bytes 3) eq_refl)
             (-1) None).
Defined.

(** ** Buffers, position by position *)

Lemma byte_at_past (l : list byte) (i : Z) : len l <= i -> byte_at l i = x00.
Proof.
  intros H. unfold byte_at. apply nth_overflow. unfold len in H. lia.
Qed.

Lemma byte_at_app (x y : list byte) (i : Z) :
  0 <= i ->
  byte_at (x ++ y) i = if i <? len x then byte_at x i else byte_at y (i - len x).
Proof.
  intros H. unfold byte_at, len. destruct (i <? Z.of_nat (length x)) eqn:E.
  - apply Z.ltb_lt in E. apply app_nth1. lia.
  - apply Z.ltb_ge in E. rewrite app_nth2 by lia. f_equal. lia.
Qed.

Lemma byte_at_py_slice (l : list byte) (a b i : Z) :
  0 <= a <= b -> b <= len l -> 0 <= i < b - a ->
  byte_at (py_slice l a b) i = byte_at l (a + i).
Proof.
  intros H1 H2 H3. rewrite py_slice_inside by lia. unfold byte_at.
  rewrite nth_firstn.
  replace (Z.to_nat i <? Z.to_nat (b - a))%nat with true
    by (symmetry; apply Nat.ltb_lt; lia).
  rewrite nth_skipn. f_equal. lia.
Qed.

Lemma byte_at_ext (l l' : list byte) :
  len l = len l' ->
  (forall i, 0 <= i < len l -> byte_at l i = byte_at l' i) -> l = l'.
Proof.
  intros Hl H. unfold len in *. apply (nth_ext l l' x00 x00); [lia |].
  intros n Hn. specialize (H (Z.of_nat n) ltac:(lia)). unfold byte_at in H.
  now rewrite Nat2Z.id in H.
Qed.

Lemma sink_write_spec (k : Sink) (x : list byte) :
  0 <= sk_pos k ->
  len (sk_data (sink_write k x)) = Z.max (len (sk_data k)) (sk_pos k + len x) /\
  sk_pos (sink_write k x) = sk_pos k + len x /\
  forall i, 0 <= i ->
    byte_at (sk_data (sink_write k x)) i =
      if (sk_pos k <=? i) && (i <? sk_pos k + len x)
      then byte_at x (i - sk_pos k)
      else byte_at (sk_data k) i.
Proof.
  intros Hp. unfold sink_write. cbn [sk_data sk_pos].
  set (p := Z.to_nat (sk_pos k)). set (old := sk_data k).
  set (head := (firstn p old ++ repeat x00 (p - length old))%list).
  assert (Hh : length head = p).
  { subst head. rewrite length_app, length_firstn, repeat_length. lia. }
  split; [| split; [reflexivity |]].
  - unfold len. rewrite !length_app, Hh, length_skipn. lia.
  - intros i Hi. unfold byte_at, len.
    destruct (sk_pos k <=? i) eqn:E1; cbn [andb].
    + apply Z.leb_le in E1. rewrite app_nth2 by lia. rewrite Hh.
      destruct (i <? sk_pos k + Z.of_nat (length x)) eqn:E2.
      * apply Z.ltb_lt in E2. rewrite app_nth1 by lia. f_equal. lia.
      * apply Z.ltb_ge in E2. rewrite app_nth2 by lia.
        rewrite nth_skipn. f_equal. lia.
    + apply Z.leb_gt in E1. rewrite app_nth1 by lia. subst head.
      destruct (Nat.lt_ge_cases (Z.to_nat i) (length old)) as [H | H].
      * rewrite app_nth1 by (rewrite length_firstn; lia).
        rewrite nth_firstn.
        replace (Z.to_nat i <? p)%nat with true
          by (symmetry; apply Nat.ltb_lt; lia).
        reflexivity.
      * rewrite (nth_overflow old) by lia.
        rewrite app_nth2 by (rewrite length_firstn; lia).
        destruct (Nat.lt_ge_cases
                    (Z.to_nat i - length (firstn p old)) (p - length old))
          as [H' | H'].
        -- now apply nth_repeat_lt.
        -- apply nth_overflow. now rewrite repeat_length.
Qed.

Lemma sink_write_append (k : Sink) (x : list byte) :
  sk_pos k = len (sk_data k) ->
  sk_data (sink_write k x) = (sk_data k ++ x)%list /\
  sk_pos (sink_write k x) = len (sk_data k ++ x).
Proof.
  intros Hp. unfold sink_write. cbn [sk_data sk_pos]. rewrite Hp.
  unfold len. rewrite Nat2Z.id.
  rewrite firstn_all, Nat.sub_diag. cbn [repeat].
  rewrite skipn_all2 by lia. rewrite !app_nil_r, length_app.
  split; [reflexivity | lia].
Qed.

(** ** The plan of a downloader *)

Lemma offsets_from_range (step last : Z) :
  0 < step ->
  forall n x c,
    (forall n', n = S n' -> x + Z.of_nat n' * step < last) ->
    In c (offsets_from n x step) -> x <= c < last.
Proof.
  intros Hs. induction n as [| n IH]; intros x c Hn; cbn [offsets_from];
    [intros [] |].
  specialize (Hn n eq_refl) as Hn'.
  intros [<- | Hc]; [nia |].
  assert (x + step <= c < last); [| lia].
  apply IH; [| exact Hc]. intros n' ->. nia.
Qed.

Lemma offsets_from_cover (step last : Z) :
  0 < step ->
  forall n x j,
    last - x <= Z.of_nat n * step -> x <= j < last ->
    exists c, In c (offsets_from n x step) /\ c <= j < Z.min (c + step) last.
Proof.
  intros Hs. induction n as [| n IH]; intros x j Hn Hj; [lia |].
  cbn [offsets_from]. destruct (Z.lt_ge_cases j (x + step)) as [H | H].
  - exists x. split; [now left | lia].
  - destruct (IH (x + step) j ltac:(nia) ltac:(lia)) as (c & Hc & Hr).
    exists c. split; [now right | exact Hr].
Qed.

Lemma chunk_count_cover (d : Downloader) :
  0 < chunk_size d ->
  end_index d - start_index d <= Z.of_nat (chunk_count d) * chunk_size d.
Proof.
  intros Hc. unfold chunk_count.
  replace (chunk_size d <=? 0) with false by (symmetry; apply Z.leb_gt; lia).
  set (a := end_index d - start_index d + chunk_size d - 1).
  pose proof (Z.mul_succ_div_gt a (chunk_size d) Hc) as H.
  destruct (Z.le_gt_cases 0 (a / chunk_size d)) as [Hq | Hq].
  - rewrite Z2Nat.id by lia. nia.
  - replace (Z.to_nat (a / chunk_size d)) with 0%nat by lia. nia.
Qed.

Lemma plan_range (d : Downloader) (c : Z) :
  0 < chunk_size d -> In c (get_chunk_offsets d) ->
  start_index d <= c < end_index d.
Proof.
  intros Hc. apply offsets_from_range; [exact Hc |].
  intros n' E. pose proof (chunk_count_bound d n' Hc E). lia.
Qed.

Lemma plan_cover (d : Downloader) (j : Z) :
  0 < chunk_size d -> start_index d <= j < end_index d ->
  exists c, In c (get_chunk_offsets d) /\ c <= j < chunk_end d c.
Proof.
  intros Hc Hj. apply offsets_from_cover; [exact Hc | | exact Hj].
  apply chunk_count_cover. exact Hc.
Qed.

(** ** Assembling the chunks *)

Section Assembly.

Variables (env : Env) (blob : list byte) (d : Downloader).
Hypothesis F : faithful env blob.
Hypothesis R : reliable env blob.
Hypothesis Hcs : 0 < chunk_size d.
Hypothesis Hstart : 0 <= start_index d.
Hypothesis Hend : end_index d <= len blob.
Hypothesis Hranges :
  forall ranges, dl_non_empty_ranges d = Some ranges ->
                 get_page_ranges env = Some ranges.

Lemma process_chunk_ok (k : Sink) (c : Z) :
  start_index d <= c < end_index d ->
  exists reqs,
    process_chunk env d k c =
      (None, _write_to_stream d k (py_slice blob c (chunk_end d c)) c, reqs).
Proof.
  intros Hc. unfold process_chunk. rewrite calculate_range_min.
  fold (chunk_end d c).
  assert (Hce : c < chunk_end d c <= len blob) by (unfold chunk_end; lia).
  destruct (download_chunk_reliable env blob d c (chunk_end d c - 1) F R
              ltac:(lia) ltac:(lia)) as (data & cl & reqs & E).
  pose proof (download_chunk_faithful env blob d c (chunk_end d c - 1) F
                ltac:(lia) ltac:(lia) Hranges) as H.
  rewrite E in *. destruct H as [-> _].
  replace (chunk_end d c - 1 + 1) with (chunk_end d c) by lia.
  replace (chunk_end d c - c >? 0) with true
    by (symmetry; apply Z.gtb_lt; lia).
  eexists. reflexivity.
Qed.

Lemma run_one_at_a_time :
  forall n x k,
    parallel d = false ->
    start_index d <= x <= end_index d ->
    (forall n', n = S n' -> x + Z.of_nat n' * chunk_size d < end_index d) ->
    end_index d - x <= Z.of_nat n * chunk_size d ->
    sk_pos k = len (sk_data k) ->
    exists k' reqs,
      run_events env d (one_at_a_time (offsets_from n x (chunk_size d))) k =
        (None, k', reqs) /\
      sk_data k' = (sk_data k ++ py_slice blob x (end_index d))%list.
Proof.
  induction n as [| n IH]; intros x k Hpar Hx Hn Hcov Hpos.
  - cbn. exists k, []. split; [reflexivity |].
    replace x with (end_index d) by lia.
    rewrite py_slice_empty, app_nil_r by lia. reflexivity.
  - cbn [offsets_from one_at_a_time flat_map app run_events].
    specialize (Hn n eq_refl) as Hx'.
    assert (Hxr : start_index d <= x < end_index d) by nia.
    destruct (process_chunk_ok k x Hxr) as (reqs & E). rewrite E.
    unfold _write_to_stream. rewrite Hpar.
    destruct (sink_write_append k (py_slice blob x (chunk_end d x)) Hpos)
      as [Hd Hp].
    destruct n as [| n'].
    + cbn [offsets_from flat_map run_events].
      eexists; eexists. split; [reflexivity |]. rewrite Hd.
      f_equal. f_equal. unfold chunk_end. lia.
    + assert (Hce : chunk_end d x = x + chunk_size d) by (unfold chunk_end; nia).
      destruct (IH (x + chunk_size d)
                  (sink_write k (py_slice blob x (chunk_end d x))) Hpar
                  ltac:(nia)) as (k' & reqs' & E' & Hk').
      * intros m Hm. injection Hm as <-. nia.
      * nia.
      * rewrite Hp, Hd. reflexivity.
      * fold (one_at_a_time (offsets_from (S n') (x + chunk_size d) (chunk_size d))).
        rewrite E'. eexists; eexists. split; [reflexivity |].
        rewrite Hk', Hd, Hce, <- app_assoc. f_equal.
        symmetry. apply py_slice_split; lia.
Qed.

Variable piece : list byte.
Hypothesis Hpar : parallel d = true.
Hypothesis Hbase : stream_start d = Some (len piece).
Hypothesis Horder : start_index d <= end_index d.

Lemma len_target :
  len (piece ++ py_slice blob (start_index d) (end_index d)) =
  len piece + (end_index d - start_index d).
Proof. rewrite len_app, len_py_slice by lia. reflexivity. Qed.

Lemma byte_at_target (i : Z) :
  len piece <= i < len piece + (end_index d - start_index d) ->
  byte_at (piece ++ py_slice blob (start_index d) (end_index d)) i =
  byte_at blob (start_index d + (i - len piece)).
Proof.
  intros Hi. pose proof (len_nonneg piece). rewrite byte_at_app by lia.
  replace (i <? len piece) with false by (symmetry; apply Z.ltb_ge; lia).
  apply byte_at_py_slice; lia.
Qed.

Lemma assembled_incl (done done' : list Z) (k : Sink) :
  (forall c, In c done' -> In c done) ->
  assembled d (piece ++ py_slice blob (start_index d) (end_index d))
    (len piece) done k ->
  assembled d (piece ++ py_slice blob (start_index d) (end_index d))
    (len piece) done' k.
Proof.
  intros Hi (Hl & Hh & Hd). split; [exact Hl |]. split; [exact Hh |].
  intros c Hc. apply Hd, Hi, Hc.
Qed.

Lemma assembled_write (done : list Z) (k : Sink) (c : Z) :
  start_index d <= c < end_index d ->
  assembled d (piece ++ py_slice blob (start_index d) (end_index d))
    (len piece) done k ->
  assembled d (piece ++ py_slice blob (start_index d) (end_index d))
    (len piece) (c :: done)
    (_write_to_stream d k (py_slice blob c (chunk_end d c)) c).
Proof.
  intros Hc (Hl & Hh & Hd). unfold _write_to_stream. rewrite Hpar, Hbase.
  pose proof (len_nonneg piece) as Hp0.
  assert (Hce : c < chunk_end d c <= end_index d) by (unfold chunk_end; lia).
  set (x := py_slice blob c (chunk_end d c)).
  assert (Hx : len x = chunk_end d c - c) by (subst x; rewrite len_py_slice; lia).
  set (p := len piece + (c - start_index d)).
  destruct (sink_write_spec (sink_seek k p) x) as (Hlen & _ & Hat);
    [cbn; subst p; lia |].
  cbn [sink_seek sk_pos sk_data] in Hlen, Hat.
  unfold assembled. rewrite len_target in *.
  assert (Hnew : forall i, p <= i < p + len x ->
            byte_at (sk_data (sink_write (sink_seek k p) x)) i =
            byte_at (piece ++ py_slice blob (start_index d) (end_index d)) i).
  { intros i Hi. rewrite Hat by lia.
    replace ((p <=? i) && (i <? p + len x)) with true
      by (symmetry; apply andb_true_iff; split;
          [apply Z.leb_le | apply Z.ltb_lt]; lia).
    subst x. rewrite byte_at_py_slice by lia.
    rewrite byte_at_target by (subst p; lia). f_equal. subst p. lia. }
  assert (Hold : forall i, 0 <= i -> ~ (p <= i < p + len x) ->
            byte_at (sk_data (sink_write (sink_seek k p) x)) i =
            byte_at (sk_data k) i).
  { intros i Hi Hn. rewrite Hat by lia.
    replace ((p <=? i) && (i <? p + len x)) with false; [reflexivity |].
    symmetry. apply andb_false_iff.
    destruct (Z.lt_ge_cases i p); [left; apply Z.leb_gt | right; apply Z.ltb_ge];
      lia. }
  assert (Hpdef : p = len piece + (c - start_index d)) by reflexivity.
  clearbody p x.
  split; [lia |]. split.
  - intros i Hi. rewrite Hold by lia. apply Hh. exact Hi.
  - intros c' [<- | Hc'].
    + split; [lia |]. split; [lia |]. intros i Hi. apply Hnew. lia.
    + destruct (Hd c' Hc') as (Hs' & Hl' & Ha'). split; [lia |].
      split; [lia |]. intros i Hi.
      destruct (Z.lt_ge_cases i p) as [H1 | H1];
        [rewrite Hold by lia; apply Ha'; exact Hi |].
      destruct (Z.lt_ge_cases i (p + len x)) as [H2 | H2];
        [apply Hnew; lia | rewrite Hold by lia; apply Ha'; exact Hi].
Qed.

Lemma run_parallel :
  forall evs k done,
    (forall c, In c (completed evs) -> start_index d <= c < end_index d) ->
    assembled d (piece ++ py_slice blob (start_index d) (end_index d))
      (len piece) done k ->
    exists k' reqs,
      run_events env d evs k = (None, k', reqs) /\
      assembled d (piece ++ py_slice blob (start_index d) (end_index d))
        (len piece) (completed evs ++ done) k'.
Proof.
  induction evs as [| [c | c] evs IH]; intros k done Hin Ha;
    cbn [run_events].
  - exists k, []. split; [reflexivity | exact Ha].
  - destruct (IH k done Hin Ha) as (k' & reqs' & E & Ha').
    destruct (process_chunk env d k c) as [[r0 k0] reqs]. rewrite E.
    eexists; eexists. split; [reflexivity | exact Ha'].
  - assert (Hc : start_index d <= c < end_index d)
      by (apply Hin; unfold completed; cbn; now left).
    destruct (process_chunk_ok k c Hc) as (reqs & E). rewrite E.
    destruct (IH _ (c :: done)
                ltac:(intros c' Hc'; apply Hin; unfold completed in *; cbn;
                      now right)
                (assembled_write done k c Hc Ha)) as (k' & reqs' & E' & Ha').
    rewrite E'. eexists; eexists. split; [reflexivity |].
    eapply assembled_incl; [| exact Ha'].
    intros c' Hc'. unfold completed in *. cbn in Hc'.
    apply in_or_app. destruct Hc' as [<- | Hc'].
    + right. now left.
    + apply in_app_or in Hc' as [H | H]; [now left | right; now right].
Qed.

Lemma assembled_whole (done : list Z) (k : Sink) :
  assembled d (piece ++ py_slice blob (start_index d) (end_index d))
    (len piece) done k ->
  (forall c, In c (get_chunk_offsets d) -> In c done) ->
  sk_data k = (piece ++ py_slice blob (start_index d) (end_index d))%list.
Proof.
  intros (Hl & Hh & Hd) Hall. rewrite len_target in Hl.
  pose proof (len_nonneg piece) as Hp0.
  assert (Hlen : len (sk_data k) = len piece + (end_index d - start_index d)).
  { destruct (Z.eq_dec (start_index d) (end_index d)) as [E | E]; [lia |].
    destruct (plan_cover d (end_index d - 1) Hcs ltac:(lia)) as (c & Hc & Hr).
    destruct (Hd c (Hall c Hc)) as (_ & H & _). unfold chunk_end in *. lia. }
  apply byte_at_ext; [rewrite len_target; exact Hlen |].
  intros i Hi. destruct (Z.lt_ge_cases i (len piece)) as [H | H].
  - apply Hh. lia.
  - destruct (plan_cover d (start_index d + (i - len piece)) Hcs ltac:(lia))
      as (c & Hc & Hr).
    destruct (Hd c (Hall c Hc)) as (_ & _ & Ha). apply Ha. lia.
Qed.

End Assembly.

(** ** The loop with one fetch at a time *)

Lemma wait_single (o : nat * (nat -> bool)) (c : Z) :
  wait_first_completed o [c] = ([c], []).
Proof.
  unfold wait_first_completed. cbn [length split_done].
  rewrite Nat.mod_1_r. reflexivity.
Qed.

Lemma drain_nil (fuel : nat) (orc : Oracle) (step : nat) :
  drain fuel orc step [] = [].
Proof. destruct fuel; reflexivity. Qed.

Lemma dispatch_loop_single (orc : Oracle) :
  forall rest fuel step c,
    (length rest < fuel)%nat ->
    dispatch_loop fuel orc step rest [c] = Complete c :: one_at_a_time rest.
Proof.
  induction rest as [| c' rest IH]; intros fuel step c Hf;
    (destruct fuel as [| fuel]; [cbn in Hf; lia |]);
    cbn [dispatch_loop]; rewrite wait_single; cbn [length firstn map app].
  - cbn. now rewrite drain_nil.
  - cbn [Nat.ltb Nat.leb skipn]. rewrite IH by (cbn in Hf; lia). reflexivity.
Qed.

Lemma schedule_one (orc : Oracle) (plan : list Z) :
  schedule orc 1 plan = one_at_a_time plan.
Proof.
  unfold schedule. change (Z.to_nat 1) with 1%nat.
  destruct plan as [| c rest]; [reflexivity |].
  cbn [firstn skipn map app]. rewrite dispatch_loop_single by (cbn; lia).
  reflexivity.
Qed.

(** Whatever the scheduling, when no fetch fails the sink ends up holding
    what it held followed by the bytes from the first chunk of the plan to
    the end of the window. *)
Lemma run_schedule_assembles (env : Env) (blob : list byte) (d : Downloader)
    (orc : Oracle) (max_concurrency : Z) (piece : list byte) (seekable : bool) :
  faithful env blob -> reliable env blob ->
  0 < chunk_size d -> 0 <= start_index d <= end_index d ->
  end_index d <= len blob ->
  (forall ranges, dl_non_empty_ranges d = Some ranges ->
                  get_page_ranges env = Some ranges) ->
  1 <= max_concurrency ->
  parallel d = (max_concurrency >? 1) ->
  stream_start d = (if parallel d then Some (len piece) else None) ->
  exists k' reqs,
    run_events env d (schedule orc max_concurrency (get_chunk_offsets d))
      {| sk_data := piece; sk_pos := len piece; sk_seekable := seekable |} =
      (None, k', reqs) /\
    sk_data k' = (piece ++ py_slice blob (start_index d) (end_index d))%list.
Proof.
  intros F R Hcs Hse Hend Hranges Hmc Hpar Hbase.
  destruct (parallel d) eqn:Ep.
  - destruct (schedule_spec orc max_concurrency (get_chunk_offsets d) Hmc)
      as (_ & C & _).
    destruct (run_parallel env blob d F R Hcs ltac:(lia) Hend Hranges piece Ep
                Hbase ltac:(lia)
                (schedule orc max_concurrency (get_chunk_offsets d))
                {| sk_data := piece; sk_pos := len piece; sk_seekable := seekable |}
                []) as (k' & reqs & E & Ha).
    + intros c Hc. apply plan_range; [exact Hcs |].
      eapply Permutation_in; [exact C | exact Hc].
    + unfold assembled. cbn [sk_data]. pose proof (len_nonneg piece).
      rewrite len_target by lia. split; [lia |]. split.
      * intros i Hi. rewrite byte_at_app by lia.
        replace (i <? len piece) with true by (symmetry; apply Z.ltb_lt; lia).
        reflexivity.
      * intros c [].
    + exists k', reqs. split; [exact E |].
      eapply assembled_whole; try exact Ha; try lia.
      intros c Hc. apply in_or_app. left.
      eapply Permutation_in; [apply Permutation_sym; exact C | exact Hc].
  - assert (max_concurrency = 1).
    { symmetry in Hpar. rewrite Z.gtb_ltb in Hpar. apply Z.ltb_ge in Hpar. lia. }
    subst max_concurrency. rewrite schedule_one. unfold get_chunk_offsets.
    destruct (run_one_at_a_time env blob d F R Hcs ltac:(lia) Hend Hranges
                (chunk_count d) (start_index d)
                {| sk_data := piece; sk_pos := len piece; sk_seekable := seekable |}
                Ep ltac:(lia)) as (k' & reqs & E & Hk).
    + intros n' E. pose proof (chunk_count_bound d n' Hcs E). lia.
    + apply chunk_count_cover. exact Hcs.
    + reflexivity.
    + exists k', reqs. split; [exact E | exact Hk].
Qed.

(** ** Reading everything *)

Lemma window_split (blob : list byte) (s : Stream) (a m b : Z) :
  0 <= _download_start s -> 0 <= a <= m -> m <= b ->
  _download_start s + b <= len blob ->
  window blob s a b = (window blob s a m ++ window blob s m b)%list.
Proof.
  intros H0 H1 H2 H3. unfold window. apply py_slice_split; lia.
Qed.

Lemma len_window (blob : list byte) (s : Stream) (a b : Z) :
  0 <= _download_start s -> 0 <= a <= b ->
  _download_start s + b <= len blob ->
  len (window blob s a b) = b - a.
Proof.
  intros H0 H1 H2. unfold window. rewrite len_py_slice; lia.
Qed.

Lemma len_pos_nonempty {A : Type} (l : list A) : 0 < len l -> l <> [].
Proof. intros H E. subst l. cbn in H. lia. Qed.

(** Out of text mode, an unbounded [read] returns what is left of the
    window and completes the stream. *)
Lemma read_data_all (env : Env) (blob : list byte) (orc : Oracle) (s : Stream)
    (size0 : Z) (chars : option Z) :
  faithful env blob -> reliable env blob -> Inv env blob s ->
  in_text_mode s = false -> size0 <= 0 ->
  1 <= _max_concurrency (config s) <= maxsize ->
  len blob < maxsize ->
  exists s' reqs,
    read_data env orc s size0 chars =
      finish_read s' (CBytes (window blob s (_read_offset s) (size s))) reqs /\
    _download_complete env s' = true /\ _read_offset s' = size s /\
    config s' = config s /\ size s' = size s /\
    in_text_mode s' = in_text_mode s.
Proof.
  intros F R HI Ht Hsz Hmc Hblob.
  pose proof (inv_offsets_ordered _ _ _ HI) as Hord.
  pose proof (inv_window _ _ _ HI) as (Hds & Hs0 & Hfit).
  pose proof (inv_download _ _ _ HI) as Hdl.
  pose proof (inv_cursor _ _ _ HI) as Hcur.
  pose proof (inv_cfg _ _ _ HI) as (_ & Hchunk & _).
  pose proof (inv_mode _ _ _ HI) as Hmode.
  unfold mode_inv in Hmode. rewrite Ht in Hmode.
  destruct Hmode as (b & Hc & Heq & Htail & _).
  rewrite Hc in Hcur. cbn [clen] in Hcur.
  unfold read_data. rewrite Ht.
  replace (size0 >? 0) with false by (symmetry; rewrite Z.gtb_ltb; apply Z.ltb_ge; lia).
  rewrite Hc. cbn [clen].
  replace (Z.min (len b - _current_content_offset s) maxsize)
    with (len b - _current_content_offset s) by lia.
  replace (_current_content_offset s + (len b - _current_content_offset s))
    with (len b) by lia.
  cbn [cslice same_kind negb].
  assert (Hpiece : py_slice b (_current_content_offset s) (len b) =
                   window blob s (_read_offset s) (_download_offset s)).
  { rewrite <- py_slice_from_inside by lia. exact Htail. }
  rewrite Hpiece.
  set (pb := window blob s (_read_offset s) (_download_offset s)).
  assert (Hlen : len pb = _download_offset s - _read_offset s).
  { subst pb. apply len_window; lia. }
  cbn [clen]. rewrite Hlen.
  replace (maxsize - (_download_offset s - _read_offset s) >? 0) with true
    by (symmetry; apply Z.gtb_lt; lia).
  cbn [andb].
  set (s1 := consume s (_download_offset s - _read_offset s)).
  change (_download_complete env s1) with (_download_complete env s).
  destruct (_download_complete env s) eqn:Ecomp; cbn [negb].
  - apply (complete_iff_all_downloaded env blob s F HI) in Ecomp as Hall.
    exists s1, []. subst pb. rewrite Hall.
    split; [reflexivity |]. split; [exact Ecomp |].
    split; [cbn; lia |]. repeat split; try reflexivity; exact Ht.
  - change (maxsize =? maxsize) with true. cbn [andb].
    change (config (set_first_chunk s1 false)) with (config s).
    replace ((_max_concurrency (config s) <? 0) ||
             (_max_concurrency (config s) >? maxsize)) with false.
    2: { symmetry. apply orb_false_iff. split;
           [apply Z.ltb_ge | rewrite Z.gtb_ltb; apply Z.ltb_ge]; lia. }
    set (d := new_downloader s1 _ _ _).
    destruct (run_schedule_assembles env blob d orc
                (_max_concurrency (config s)) pb true F R)
      as (k' & reqs & E & Hk); try (cbn; lia).
    + cbn. apply (inv_ranges _ _ _ HI).
    + cbn. rewrite Hlen. destruct (_max_concurrency (config s) >? 1); reflexivity.
    + rewrite <- Hlen. rewrite E.
      exists (_complete_read (set_first_chunk s1 false)), reqs.
      split; [| split; [| repeat split; try reflexivity; exact Ht]].
      * f_equal. f_equal. rewrite Hk. subst pb. cbn.
        symmetry. apply window_split; lia.
      * unfold _download_complete. cbn.
        destruct (is_encryption_v2 env); apply Z.geb_le; lia.
Qed.

Lemma usage_check_no_chars (s : Stream) (size0 : Z) :
  size0 < 0 -> usage_check s size0 None = None.
Proof.
  intros H. unfold usage_check. cbn [is_some].
  replace (size0 >? -1) with false
    by (symmetry; rewrite Z.gtb_ltb; apply Z.ltb_ge; lia).
  rewrite !andb_false_r. reflexivity.
Qed.

Lemma finish_read_delivered (s : Stream) (data : list byte)
    (reqs : list Request) :
  in_text_mode s = false -> data <> [] ->
  finish_read s (CBytes data) reqs = outcome_of (delivered (config s) data) s reqs.
Proof.
  intros Ht Hd. unfold finish_read, delivered. rewrite Ht.
  destruct (_encoding (config s)) as [codec |]; [| reflexivity].
  destruct data as [| h t]; [congruence |].
  destruct (bytes_decode codec (h :: t)); reflexivity.
Qed.

Lemma empty_result_delivered (s : Stream) :
  Ret (empty_result s) s [] = outcome_of (delivered (config s) []) s [].
Proof.
  unfold empty_result, has_encoding, delivered.
  destruct (_encoding (config s)); reflexivity.
Qed.

(** Out of text mode, [read] with a negative [size] returns what is left of
    the window, decoded when an encoding is configured, and leaves the
    stream complete. *)
Lemma read_all (env : Env) (blob : list byte) (orc : Oracle) (s : Stream)
    (size0 : Z) :
  faithful env blob -> reliable env blob -> Inv env blob s ->
  in_text_mode s = false -> size0 < 0 ->
  1 <= _max_concurrency (config s) <= maxsize ->
  len blob < maxsize ->
  exists s' reqs,
    read env orc s size0 None =
      outcome_of (delivered (config s) (window blob s (_read_offset s) (size s)))
        s' reqs /\
    _download_complete env s' = true /\ _read_offset s' = size s.
Proof.
  intros F R HI Ht Hsz Hmc Hblob.
  pose proof (inv_offsets_ordered _ _ _ HI) as Hord.
  pose proof (inv_window _ _ _ HI) as (Hds & Hs0 & Hfit).
  pose proof (inv_download _ _ _ HI) as Hdl.
  pose proof (inv_cursor _ _ _ HI) as Hcur.
  pose proof (complete_iff_all_downloaded env blob s F HI) as Hiff.
  pose proof (inv_mode _ _ _ HI) as Hmode.
  unfold mode_inv in Hmode. rewrite Ht in Hmode.
  destruct Hmode as (b & Hc & Heq & _).
  rewrite Hc in Hcur. cbn [clen] in Hcur.
  unfold read. rewrite (usage_check_no_chars s size0 Hsz).
  replace (size0 =? 0) with false by (symmetry; apply Z.eqb_neq; lia).
  cbn [is_zero orb].
  destruct (_download_complete env s &&
            (_current_content_offset s >=? clen (_current_content s))) eqn:Eearly.
  - apply andb_true_iff in Eearly as [Ec Eb].
    rewrite Hc in Eb. cbn [clen] in Eb. apply Z.geb_le in Eb.
    apply Hiff in Ec as Hall.
    exists s, []. split; [| split; [exact Ec | lia]].
    replace (_read_offset s) with (size s) by lia.
    unfold window. rewrite py_slice_empty by lia.
    apply empty_result_delivered.
  - assert (Hw : window blob s (_read_offset s) (size s) <> []).
    { apply len_pos_nonempty. rewrite len_window by lia.
      apply andb_false_iff in Eearly as [Ec | Eb].
      - destruct (Z.eq_dec (_download_offset s) (size s)) as [E | E]; [| lia].
        apply Hiff in E. congruence.
      - rewrite Hc in Eb. cbn [clen] in Eb. rewrite Z.geb_leb in Eb.
        apply Z.leb_gt in Eb. lia. }
    pose proof (enter_mode_inv env blob s size0 None HI
                  (usage_check_no_chars s size0 Hsz)) as He.
    unfold enter_mode in *. rewrite Ht in *. cbn [negb is_some andb] in *.
    destruct (_text_mode s) as [m |] eqn:Em.
    + destruct He as (HI1 & _ & _).
      destruct (read_data_all env blob orc s size0 None F R HI1 Ht ltac:(lia)
                  Hmc Hblob) as (s' & reqs & E & Hcomp & Hro & Hcfg & _ & Ht').
      exists s', reqs. rewrite E, <- Hcfg. rewrite Ht in Ht'.
      split; [apply finish_read_delivered; assumption | split; assumption].
    + destruct He as (HI1 & _ & _).
      destruct (read_data_all env blob orc _ size0 None F R HI1 eq_refl
                  ltac:(lia) Hmc Hblob)
        as (s' & reqs & E & Hcomp & Hro & Hcfg & _ & Ht').
      exists s', reqs. rewrite E.
      change (config s' = config s) in Hcfg. rewrite <- Hcfg.
      split; [apply finish_read_delivered; assumption | split; assumption].
Qed.

Lemma read_negative_size (env : Env) (orc : Oracle) (s : Stream) (size0 : Z) :
  size0 < 0 -> read env orc s size0 None = read env orc s (-1) None.
Proof.
  intros H. unfold read, read_data.
  rewrite !usage_check_no_chars by lia.
  replace (size0 =? 0) with false by (symmetry; apply Z.eqb_neq; lia).
  replace (size0 >? 0) with false
    by (symmetry; rewrite Z.gtb_ltb; apply Z.ltb_ge; lia).
  reflexivity.
Qed.

(** C10: out of text mode, [read] with any negative [size] is the same call
    as [read(-1)]: the size is replaced by [sys.maxsize] before anything is
    served, and the call returns all that is left of the window (the bytes
    themselves when no encoding is configured) and completes the stream. *)
Theorem negative_size_reads_all (env : Env) (blob : list byte) (cfg : Config)
    (s0 : Stream) (reqs0 : list Request)
    (calls : list (Oracle * Z * option Z)) (orc : Oracle) (size0 : Z) :
  faithful env blob -> reliable env blob -> well_formed cfg ->
  _setup env cfg = (inr s0, reqs0) ->
  let s := reads env s0 calls in
  in_text_mode s = false ->
  1 <= _max_concurrency (config s) <= maxsize ->
  len blob < maxsize ->
  size0 < 0 ->
  read env orc s size0 None = read env orc s (-1) None /\
  exists s' reqs,
    read env orc s size0 None =
      outcome_of
        (delivered (config s) (window blob s (_read_offset s) (size s)))
        s' reqs /\
    (_encoding (config s) = None ->
     read env orc s size0 None =
       Ret (CBytes (window blob s (_read_offset s) (size s))) s' reqs) /\
    _download_complete env s' = true /\ _read_offset s' = size s.
Proof.
  intros F R Hwf Hs s Ht Hmc Hblob Hsz.
  split; [apply read_negative_size; exact Hsz |].
  destruct (setup_inv env blob cfg s0 reqs0 F Hwf Hs) as (HI0 & _).
  destruct (reads_inv env blob F calls s0 HI0) as [HI _]. fold s in HI.
  destruct (read_all env blob orc s size0 F R HI Ht Hsz Hmc Hblob)
    as (s' & reqs & E & Hc & Hr).
  exists s', reqs. split; [exact E |]. split; [| split; assumption].
  intros He. rewrite E. unfold delivered. rewrite He. reflexivity.
Qed.

Lemma negative_size_reads_all_witness :
  let env := plain_env ten_bytes None in
  exists s0 reqs0,
    _setup env (default_config 4 2) = (inr s0, reqs0) /\
    let s := reads env s0 [(fifo, 3, None)] in
    read env out_of_order s (-5) None = read env out_of_order s (-1) None /\
    exists s' reqs,
      read env out_of_order s (-5) None =
        outcome_of
          (delivered (config s) (window ten_bytes s (_read_offset s) (size s)))
          s' reqs /\
      (_encoding (config s) = None ->
       read env out_of_order s (-5) None =
         Ret (CBytes (window ten_bytes s (_read_offset s) (size s))) s' reqs) /\
      _download_complete env s' = true /\ _read_offset s' = size s.
Proof.
  eexists; eexists. split; [reflexivity |].
  refine (negative_size_reads_all (plain_env ten_bytes None) ten_bytes
            (default_config 4 2) _ _ [(fifo, 3, None)] out_of_order (-5)
            (serve_faithful ten_bytes) (serve_reliable ten_bytes)
            (default_config_well_formed 4 2 _) eq_refl eq_refl _ _ _).
  - lia.
  - vm_compute. split; discriminate.
  - reflexivity.
  - lia.
Defined.

(** C8: [readall()] is [read()] with no bound; on a fresh stream over a
    whole blob it returns the bytes of the blob, all [size] of them, or
    their decoding when an encoding is configured (raising if they do not
    decode), and leaves the stream complete with everything read. *)
Theorem readall_returns_whole_blob (env : Env) (blob : list byte)
    (cfg : Config) (s0 : Stream) (reqs0 : list Request) (orc : Oracle) :
  faithful env blob -> reliable env blob -> well_formed cfg ->
  _start_range cfg = None -> _end_range cfg = None ->
  1 <= _max_concurrency cfg <= maxsize ->
  len blob < maxsize ->
  _setup env cfg = (inr s0, reqs0) ->
  readall env orc s0 = read env orc s0 (-1) None /\
  size s0 = len blob /\
  exists s' reqs,
    readall env orc s0 = outcome_of (delivered cfg blob) s' reqs /\
    (_encoding cfg = None -> readall env orc s0 = Ret (CBytes blob) s' reqs) /\
    _download_complete env s' = true /\
    _read_offset s' = len blob.
Proof.
  intros F R Hwf Hst Hen Hmc Hblob Hs.
  split; [reflexivity |].
  destruct (setup_inv env blob cfg s0 reqs0 F Hwf Hs)
    as (HI0 & Hcfg & Hm & _ & Hds & Hsize).
  specialize (Hsize Hst Hen). rewrite Hst in Hds.
  split; [exact Hsize |].
  destruct (inv_unset _ _ _ HI0 Hm) as [_ Hro].
  assert (Ht : in_text_mode s0 = false) by (unfold in_text_mode; now rewrite Hm).
  rewrite <- Hcfg in Hmc.
  destruct (read_all env blob orc s0 (-1) F R HI0 Ht ltac:(lia) Hmc Hblob)
    as (s' & reqs & E & Hc & Hr).
  assert (Hw : window blob s0 (_read_offset s0) (size s0) = blob).
  { unfold window. rewrite Hds, Hro, Hsize. cbn [Z.add]. apply py_slice_all. }
  rewrite Hw, Hcfg in E.
  exists s', reqs. unfold readall. split; [exact E |].
  split; [| split; [exact Hc | lia]].
  intros He. rewrite E. unfold delivered. rewrite He. reflexivity.
Qed.

Lemma readall_returns_whole_blob_witness :
  let env := plain_env ten_bytes None in
  exists s0 reqs0,
    _setup env (default_config 4 3) = (inr s0, reqs0) /\
    readall env out_of_order s0 = read env out_of_order s0 (-1) None /\
    size s0 = len ten_bytes /\
    exists s' reqs,
      readall env out_of_order s0 =
        outcome_of (delivered (default_config 4 3) ten_bytes) s' reqs /\
      (_encoding (default_config 4 3) = None ->
       readall env out_of_order s0 = Ret (CBytes ten_bytes) s' reqs) /\
      _download_complete env s' = true /\
      _read_offset s' = len ten_bytes.
Proof.
  eexists; eexists. split; [reflexivity |].
  refine (readall_returns_whole_blob (plain_env ten_bytes None) ten_bytes
            (default_config 4 3) _ _ out_of_order
            (serve_faithful ten_bytes) (serve_reliable ten_bytes)
            (default_config_well_formed 4 3 _) eq_refl eq_refl _ _ eq_refl).
  - lia.
  - vm_compute. split; discriminate.
  - reflexivity.
Defined.

(** ** Iterating over the chunks *)

Lemma iterate_complete (fuel : nat) (env : Env) (it : ChunkIterator) :
  it_complete it = true -> iterate (S fuel) env it = Exhausted [] [].
Proof. intros H. cbn [iterate]. unfold __anext__. rewrite H. reflexivity. Qed.

(** Without a downloader the iterator cuts its buffer into chunks. *)
Lemma iterate_buffer (env : Env) :
  forall t it,
    it_downloader it = None -> it_complete it = false ->
    0 < it_chunk_size it ->
    (length (it_current_content it) <= t)%nat ->
    forall fuel, (t + 2 <= fuel)%nat ->
      exists chunks,
        iterate fuel env it = Exhausted chunks [] /\
        concat chunks = it_current_content it.
Proof.
  induction t as [| t IH]; intros it Hd Hc Hcs Hlen fuel Hf;
    (destruct fuel as [| fuel]; [lia |]); cbn [iterate];
    unfold __anext__; rewrite Hc, Hd;
    destruct (len (it_current_content it) >? it_chunk_size it) eqn:E;
    try (apply Z.gtb_lt in E; unfold len in E; lia).
  - destruct fuel as [| fuel]; [lia |]. rewrite iterate_complete by reflexivity.
    eexists. split; [reflexivity |]. cbn. apply app_nil_r.
  - apply Z.gtb_lt in E. cbn [_get_chunk_data].
    destruct (IH (it_update it
                    (py_slice_from (it_current_content it) (it_chunk_size it))
                    (it_iter_chunks it) (it_complete it)))
      with (fuel := fuel) as (chunks & Ei & Hcat); try assumption; try lia.
    + cbn. unfold py_slice_from.
      rewrite clamp_index_inside by lia. rewrite length_skipn.
      unfold len in *. lia.
    + rewrite Ei. eexists. split; [reflexivity |].
      cbn [concat]. rewrite Hcat. cbn. apply py_slice_to_from.
  - destruct fuel as [| fuel]; [lia |]. rewrite iterate_complete by reflexivity.
    eexists. split; [reflexivity |]. cbn. apply app_nil_r.
Qed.

Section Iteration.

Variables (env : Env) (blob : list byte) (d : Downloader).
Hypothesis F : faithful env blob.
Hypothesis R : reliable env blob.
Hypothesis Hcs : 0 < chunk_size d.
Hypothesis Hstart : 0 <= start_index d.
Hypothesis Hend : end_index d <= len blob.
Hypothesis Hranges :
  forall ranges, dl_non_empty_ranges d = Some ranges ->
                 get_page_ranges env = Some ranges.

Lemma yield_chunk_ok (c : Z) :
  start_index d <= c < end_index d ->
  exists cl reqs,
    yield_chunk env d c = Fetched (py_slice blob c (chunk_end d c)) cl reqs.
Proof.
  intros Hc. unfold yield_chunk. rewrite calculate_range_min.
  fold (chunk_end d c).
  assert (Hce : c < chunk_end d c <= len blob) by (unfold chunk_end; lia).
  destruct (download_chunk_reliable env blob d c (chunk_end d c - 1) F R
              ltac:(lia) ltac:(lia)) as (data & cl & reqs & E).
  pose proof (download_chunk_faithful env blob d c (chunk_end d c - 1) F
                ltac:(lia) ltac:(lia) Hranges) as H.
  rewrite E in *. destruct H as [-> _].
  replace (chunk_end d c - 1 + 1) with (chunk_end d c) by lia.
  eauto.
Qed.

(** With a downloader the iterator yields its buffer and then the window
    from the next chunk of its plan on. *)
Lemma iterate_download :
  forall t it x n y,
    it_downloader it = Some d -> it_complete it = false ->
    it_chunk_size it = chunk_size d ->
    match it_iter_chunks it with
    | None => get_chunk_offsets d
    | Some l => l
    end = offsets_from n y (chunk_size d) ->
    start_index d <= x <= end_index d ->
    (n = O -> x = end_index d) ->
    (forall n', n = S n' ->
       y = x /\ x + Z.of_nat n' * chunk_size d < end_index d /\
       end_index d - x <= Z.of_nat n * chunk_size d) ->
    len (it_current_content it) + (end_index d - x) <= Z.of_nat t ->
    forall fuel, (t + 2 <= fuel)%nat ->
      exists chunks reqs,
        iterate fuel env it = Exhausted chunks reqs /\
        concat chunks =
          (it_current_content it ++ py_slice blob x (end_index d))%list.
Proof.
  induction t as [| t IH]; intros it x n y Hd Hc Hsz Hplan Hx Hn0 HnS Hm fuel Hf;
    (destruct fuel as [| fuel]; [lia |]); cbn [iterate];
    unfold __anext__; rewrite Hc, Hd, Hplan; cbn [it_update it_chunk_size
      it_current_content]; rewrite Hsz;
    pose proof (len_nonneg (it_current_content it)) as Hl0.
  - (* nothing is left *)
    replace (len (it_current_content it) >=? chunk_size d) with false
      by (symmetry; rewrite Z.geb_leb; apply Z.leb_gt; lia).
    destruct n as [| n'].
    + cbn [offsets_from]. rewrite (Hn0 eq_refl).
      destruct (it_current_content it) as [| h tl] eqn:Ec.
      * exists [], []. split; [reflexivity |].
        rewrite py_slice_empty by lia. reflexivity.
      * unfold len in Hm. cbn [length] in Hm. lia.
    + destruct (HnS n' eq_refl) as (_ & H1 & _). nia.
  - destruct (len (it_current_content it) >=? chunk_size d) eqn:E.
    + (* the buffer holds a whole chunk *)
      apply Z.geb_le in E. cbn [_get_chunk_data it_update it_chunk_size
        it_current_content it_iter_chunks it_complete].
      rewrite Hsz.
      destruct (IH (it_update
                      (it_update it (it_current_content it)
                         (Some (offsets_from n y (chunk_size d))) false)
                      (py_slice_from (it_current_content it) (chunk_size d))
                      (Some (offsets_from n y (chunk_size d))) false)
                  x n y) with (fuel := fuel)
        as (chunks & reqs & Ei & Hcat); try assumption; try reflexivity; try lia.
      * cbn. unfold py_slice_from. rewrite clamp_index_inside by lia.
        rewrite len_skipn by lia. lia.
      * rewrite Ei. eexists; eexists. split; [reflexivity |].
        cbn [concat]. rewrite Hcat. cbn [it_update it_current_content].
        rewrite app_assoc. f_equal. apply py_slice_to_from.
    + rewrite Z.geb_leb in E. apply Z.leb_gt in E.
      destruct n as [| n'].
      * (* the plan is exhausted *)
        cbn [offsets_from it_update it_current_content].
        rewrite (Hn0 eq_refl).
        rewrite py_slice_empty, app_nil_r by lia.
        destruct (it_current_content it) as [| h tl] eqn:Ec.
        -- exists [], []. split; reflexivity.
        -- destruct fuel as [| fuel]; [lia |].
           rewrite iterate_complete by reflexivity.
           eexists; eexists. split; [reflexivity |]. cbn. now rewrite app_nil_r.
      * (* the next chunk is fetched *)
        destruct (HnS n' eq_refl) as (-> & H1 & H2).
        cbn [offsets_from it_update it_current_content it_chunk_size].
        assert (Hxr : start_index d <= x < end_index d) by nia.
        destruct (yield_chunk_ok x Hxr) as (cl & r & Ey). rewrite Ey.
        cbn [_get_chunk_data it_update it_chunk_size it_current_content
             it_iter_chunks it_complete].
        rewrite Hsz.
        set (data := py_slice blob x (chunk_end d x)).
        assert (Hce : x < chunk_end d x <= end_index d) by (unfold chunk_end; lia).
        assert (Hdl : len data = chunk_end d x - x)
          by (subst data; rewrite len_py_slice; lia).
        set (content3 := (it_current_content it ++ data)%list).
        assert (Hl3 : len content3 = len (it_current_content it) + len data)
          by (subst content3; apply len_app).
        destruct (IH (it_update
                        (it_update
                           (it_update
                              (it_update it (it_current_content it)
                                 (Some (x :: offsets_from n' (x + chunk_size d)
                                               (chunk_size d))) false)
                              (it_current_content it)
                              (Some (offsets_from n' (x + chunk_size d)
                                       (chunk_size d))) false)
                           content3
                           (Some (offsets_from n' (x + chunk_size d)
                                    (chunk_size d))) false)
                        (py_slice_from content3 (chunk_size d))
                        (Some (offsets_from n' (x + chunk_size d) (chunk_size d)))
                        false)
                    (chunk_end d x) n' (x + chunk_size d)) with (fuel := fuel)
          as (chunks & reqs & Ei & Hcat); try assumption; try reflexivity;
          try lia.
        -- intros ->. unfold chunk_end. nia.
        -- intros n'' ->. unfold chunk_end. split; [nia |]. split; nia.
        -- cbn [it_update it_current_content].
           assert (Hfrom : len (py_slice_from content3 (chunk_size d)) =
                           len content3 - Z.min (chunk_size d) (len content3)).
           { pose proof (py_slice_to_from content3 (chunk_size d)) as Hsplit.
             apply (f_equal (@len byte)) in Hsplit.
             rewrite len_app, len_py_slice_to in Hsplit by lia. lia. }
           lia.
        -- rewrite Ei. eexists; eexists. split; [reflexivity |].
           cbn [concat]. rewrite Hcat. cbn [it_update it_current_content].
           rewrite app_assoc, py_slice_to_from. subst content3 data.
           rewrite <- app_assoc. f_equal. symmetry. apply py_slice_split; lia.
Qed.

End Iteration.

(** X20: out of text mode, on a stream that was only ever consumed by
    [read] calls, however many, one iteration over [chunks()] ends and the
    chunks it yields, concatenated, are the whole window of the stream,
    [size] bytes. *)
Theorem chunks_yield_whole_window (env : Env) (blob : list byte) (cfg : Config)
    (s0 : Stream) (reqs0 : list Request)
    (calls : list (Oracle * Z * option Z)) :
  faithful env blob -> reliable env blob -> well_formed cfg ->
  _setup env cfg = (inr s0, reqs0) ->
  let s := reads env s0 calls in
  in_text_mode s = false ->
  exists it,
    chunks env s = inr it /\
    exists n, forall fuel, (n <= fuel)%nat ->
      exists yielded reqs,
        iterate fuel env it = Exhausted yielded reqs /\
        concat yielded = window blob s 0 (size s) /\
        len (concat yielded) = size s.
Proof.
  intros F R Hwf Hs s Ht.
  destruct (setup_inv env blob cfg s0 reqs0 F Hwf Hs) as (HI0 & _).
  destruct (reads_inv env blob F calls s0 HI0) as [HI _]. fold s in HI.
  clearbody s. clear HI0 Hs.
  pose proof (inv_offsets_ordered _ _ _ HI) as Hord.
  pose proof (inv_window _ _ _ HI) as (Hds & Hs0 & Hfit).
  pose proof (inv_download _ _ _ HI) as Hdl.
  pose proof (inv_cfg _ _ _ HI) as (_ & Hchunk & _).
  pose proof (complete_iff_all_downloaded env blob s F HI) as Hiff.
  pose proof (inv_mode _ _ _ HI) as Hmode.
  unfold mode_inv in Hmode. rewrite Ht in Hmode.
  destruct Hmode as (b & Hc & _ & _ & Hfirst).
  assert (Hgoal : forall it n,
            (forall fuel, (n <= fuel)%nat ->
               exists yielded reqs,
                 iterate fuel env it = Exhausted yielded reqs /\
                 concat yielded = window blob s 0 (size s)) ->
            exists n, forall fuel, (n <= fuel)%nat ->
              exists yielded reqs,
                iterate fuel env it = Exhausted yielded reqs /\
                concat yielded = window blob s 0 (size s) /\
                len (concat yielded) = size s).
  { intros it n H. exists n. intros fuel Hf.
    destruct (H fuel Hf) as (yielded & reqs & E & Hcat).
    exists yielded, reqs. split; [exact E |]. split; [exact Hcat |].
    rewrite Hcat. rewrite len_window; lia. }
  unfold chunks. rewrite Ht, Hc.
  destruct (size s =? 0) eqn:Ez.
  - (* an empty window *)
    apply Z.eqb_eq in Ez.
    destruct (_first_chunk s); eexists; (split; [reflexivity |]);
      apply (Hgoal _ 1%nat); intros fuel Hf;
      (destruct fuel as [| fuel]; [lia |]);
      rewrite iterate_complete by reflexivity;
      exists [], []; (split; [reflexivity |]);
      unfold window; rewrite Ez, py_slice_empty by lia; reflexivity.
  - apply Z.eqb_neq in Ez.
    destruct (_first_chunk s) eqn:Efc; cbn [negb orb].
    + destruct (Hfirst eq_refl) as [Hb _].
      assert (Hlb : len b = _download_offset s)
        by (rewrite Hb; rewrite len_window; lia).
      destruct (_download_complete env s) eqn:Ecomp; cbn [negb].
      * (* the first chunk is everything *)
        pose proof (proj1 Hiff eq_refl) as Hall.
        eexists. split; [reflexivity |].
        apply (Hgoal _ (length b + 2)%nat). intros fuel Hf.
        destruct (iterate_buffer env (length b)
                    {| it_size := size s;
                       it_chunk_size := max_chunk_get_size (config s);
                       it_current_content := b; it_downloader := None;
                       it_iter_chunks := None; it_complete := false |}
                    eq_refl eq_refl Hchunk (Nat.le_refl _) fuel Hf)
          as (yielded & E & Hcat).
        exists yielded, []. split; [exact E |].
        cbn in Hcat. rewrite Hcat, Hb, Hall. reflexivity.
      * (* the first chunk, then the rest of the window *)
        assert (Hlt : _download_offset s < size s).
        { destruct (Z.eq_dec (_download_offset s) (size s)) as [E | E]; [| lia].
          apply (proj2 Hiff) in E. discriminate. }
        eexists. split; [reflexivity |].
        set (d := new_downloader s (_download_start s + clen (CBytes b)) false 0).
        apply (Hgoal _ (Z.to_nat (size s) + 2)%nat). intros fuel Hf.
        destruct (iterate_download env blob d F R) with
          (t := Z.to_nat (size s))
          (it := {| it_size := size s;
                    it_chunk_size := max_chunk_get_size (config s);
                    it_current_content := b; it_downloader := Some d;
                    it_iter_chunks := None; it_complete := false |})
          (x := _download_start s + _download_offset s)
          (n := chunk_count d) (y := start_index d) (fuel := fuel)
          as (yielded & reqs & E & Hcat);
          try reflexivity; try assumption; try (cbn; lia).
        -- cbn. apply (inv_ranges _ _ _ HI).
        -- intros E0. pose proof (chunk_count_cover d Hchunk) as Hcov.
           rewrite E0 in Hcov.
           change (end_index d) with (_download_start s + size s) in *.
           change (start_index d) with (_download_start s + len b) in *.
           lia.
        -- intros n' E0. pose proof (chunk_count_bound d n' Hchunk E0) as Hb1.
           pose proof (chunk_count_cover d Hchunk) as Hcov.
           rewrite E0 in Hcov |- *.
           change (chunk_size d) with (max_chunk_get_size (config s)) in *.
           change (end_index d) with (_download_start s + size s) in *.
           change (start_index d) with (_download_start s + len b) in *.
           lia.
        -- exists yielded, reqs. split; [exact E |].
           cbn [it_current_content] in Hcat. rewrite Hcat. cbn [end_index d].
           rewrite Hb at 1. symmetry.
           apply (window_split blob s 0 (_download_offset s) (size s)); lia.
    + (* everything is downloaded again *)
      eexists. split; [reflexivity |].
      set (d := new_downloader s (_download_start s) false 0).
      apply (Hgoal _ (Z.to_nat (size s) + 2)%nat). intros fuel Hf.
      destruct (iterate_download env blob d F R) with
        (t := Z.to_nat (size s))
        (it := {| it_size := size s;
                  it_chunk_size := max_chunk_get_size (config s);
                  it_current_content := []; it_downloader := Some d;
                  it_iter_chunks := None; it_complete := false |})
        (x := _download_start s)
        (n := chunk_count d) (y := start_index d) (fuel := fuel)
        as (yielded & reqs & E & Hcat);
        try reflexivity; try assumption; try (cbn; lia).
      * cbn. apply (inv_ranges _ _ _ HI).
      * intros E0. pose proof (chunk_count_cover d Hchunk) as Hcov.
        rewrite E0 in Hcov.
        change (end_index d) with (_download_start s + size s) in *.
        change (start_index d) with (_download_start s) in *.
        lia.
      * intros n' E0. pose proof (chunk_count_bound d n' Hchunk E0) as Hb1.
        pose proof (chunk_count_cover d Hchunk) as Hcov.
        rewrite E0 in Hcov |- *.
        change (chunk_size d) with (max_chunk_get_size (config s)) in *.
        change (end_index d) with (_download_start s + size s) in *.
        change (start_index d) with (_download_start s) in *.
        lia.
      * exists yielded, reqs. split; [exact E |].
        cbn [it_current_content app] in Hcat. rewrite Hcat.
        unfold window. cbn. now rewrite Z.add_0_r.
Qed.

Lemma chunks_yield_whole_window_witness :
  let env := plain_env ten_bytes None in
  exists s0 reqs0,
    _setup env (default_config 4 1) = (inr s0, reqs0) /\
    let s := reads env s0 [(fifo, 6, None)] in
    exists it,
      chunks env s = inr it /\
      exists n, forall fuel, (n <= fuel)%nat ->
        exists yielded reqs,
          iterate fuel env it = Exhausted yielded reqs /\
          concat yielded = window ten_bytes s 0 (size s) /\
          len (concat yielded) = size s.
Proof.
  eexists; eexists. split; [reflexivity |].
  exact (chunks_yield_whole_window (plain_env ten_bytes None) ten_bytes
           (default_config 4 1) _ _ [(fifo, 6, None)]
           (serve_faithful ten_bytes) (serve_reliable ten_bytes)
           (default_config_well_formed 4 1 ltac:(lia)) eq_refl eq_refl).
Defined.

(** That holds of [read] histories only.  [readinto] completes the
    stream without giving up the first chunk, and [chunks()] then yields
    the first chunk alone. *)
Example chunks_after_readinto :
  let env := plain_env ten_bytes None in
  exists s0 s1 k it,
    fst (_setup env (default_config 4 1)) = inr s0 /\
    readinto env fifo s0 (new_sink true) = (Ret 10 s1 [ReqDownload (Some (4, 7));
                                                        ReqDownload (Some (8, 9))], k) /\
    sk_data k = ten_bytes /\
    chunks env s1 = inr it /\
    iterate 5 env it = Exhausted [bytes_of [1; 2; 3; 4]] [].
Proof.
  eexists; eexists; eexists; eexists.
  split; [vm_compute; reflexivity |].
  split; [vm_compute; reflexivity |].
  split; [reflexivity |].
  split; vm_compute; reflexivity.
Qed.

(** C3: the claim fails on the code.  On a blob of ten bytes fetched four
    at a time, [read(1)] puts the stream in bytes mode and is served from
    the first chunk; [readinto] then writes the other nine bytes and
    completes the stream, and neither call gives up the first chunk.  One
    iteration over [chunks()] on that stream yields the first chunk alone,
    four bytes and no request, not the window of ten bytes that the
    docstring of [chunks()] promises whatever was read before. *)
Theorem chunks_after_read_and_readinto_miss_the_window :
  let env := plain_env ten_bytes None in
  exists s0 reqs0 s2 reqs k it,
    _setup env (default_config 4 1) = (inr s0, reqs0) /\
    let s1 := reads env s0 [(fifo, 1, None)] in
    in_bytes_mode s1 = true /\
    readinto env fifo s1 (new_sink true) = (Ret 9 s2 reqs, k) /\
    sk_data k = window ten_bytes s1 1 10 /\
    in_bytes_mode s2 = true /\ size s2 = 10 /\
    chunks env s2 = inr it /\
    (forall fuel, (2 <= fuel)%nat ->
       iterate fuel env it = Exhausted [bytes_of [1; 2; 3; 4]] []) /\
    concat [bytes_of [1; 2; 3; 4]] <> window ten_bytes s2 0 (size s2).
Proof.
  do 6 eexists.
  split; [vm_compute; reflexivity |].
  split; [reflexivity |].
  split; [vm_compute; reflexivity |].
  split; [reflexivity |].
  split; [reflexivity |].
  split; [reflexivity |].
  split; [vm_compute; reflexivity |].
  split.
  - intros fuel Hfuel. destruct fuel as [| [| fuel]]; try lia. reflexivity.
  - vm_compute. discriminate.
Qed.

(** * Further properties *)

(** ** What a call never changes *)

Lemma same_session_refl (s : Stream) : same_session s s.
Proof. repeat split. Qed.

Lemma same_session_trans (a b c : Stream) :
  same_session a b -> same_session b c -> same_session a c.
Proof.
  intros (A1 & A2 & A3 & A4 & A5) (B1 & B2 & B3 & B4 & B5).
  repeat split; congruence.
Qed.

Lemma chunk_loop_frame (env : Env) (d : Downloader) :
  forall chunks_iter s out remaining reqs,
    same_session s
      (outcome_state (chunk_loop env d chunks_iter s out remaining reqs)) /\
    forall m, _text_mode s = Some m ->
      _text_mode (outcome_state (chunk_loop env d chunks_iter s out remaining reqs))
        = Some m.
Proof.
  induction chunks_iter as [| x rest IH]; intros s out remaining reqs;
    cbn [chunk_loop].
  - rewrite finish_read_state. split; [repeat split | intros ? E; exact E].
  - destruct (remaining >? 0);
      [| rewrite finish_read_state; split; [repeat split | intros ? E; exact E]].
    destruct (yield_chunk env d x) as [data cl r | e r];
      [| cbn; split; [repeat split | intros ? E; exact E]].
    change (in_text_mode (downloaded s (len data) cl)) with (in_text_mode s).
    change (config (downloaded s (len data) cl)) with (config s).
    change (_decoder (downloaded s (len data) cl)) with (_decoder s).
    destruct (in_text_mode s) eqn:Ht.
    + destruct (_encoding (config s)) as [codec |];
        [| cbn; split; [repeat split | intros ? E; exact E]].
      destruct (_decoder s) as [buffer |];
        [| cbn; split; [repeat split | intros ? E; exact E]].
      destruct (decoder_decode codec buffer data _) as [[buffer' text] |];
        [| cbn; split; [repeat split | intros ? E; exact E]].
      match goal with
      | |- context [chunk_loop env d rest ?s4 ?o ?rm ?rq] =>
          destruct (IH s4 o rm rq) as [Hf Hm]
      end.
      split.
      * eapply same_session_trans; [| exact Hf]. repeat split.
      * intros m E. apply Hm. cbn.
        unfold in_text_mode in Ht. rewrite E in Ht.
        destruct m; [reflexivity | discriminate].
    + match goal with
      | |- context [chunk_loop env d rest ?s4 ?o ?rm ?rq] =>
          destruct (IH s4 o rm rq) as [Hf Hm]
      end.
      split.
      * eapply same_session_trans; [| exact Hf]. repeat split.
      * intros m E. apply Hm. exact E.
Qed.

Lemma enter_mode_frame (env : Env) (s : Stream) (size0 : Z) (chars : option Z) :
  usage_check s size0 chars = None ->
  match enter_mode env s chars with
  | inl (_, s') =>
      same_session s s' /\ forall m, _text_mode s = Some m -> _text_mode s' = Some m
  | inr s1 =>
      same_session s s1 /\ forall m, _text_mode s = Some m -> _text_mode s1 = Some m
  end.
Proof.
  intros Hu. unfold enter_mode.
  destruct (in_text_mode s) eqn:Ht; cbn [negb andb].
  - destruct (_text_mode s) eqn:Em;
      (split; [repeat split | intros ? E; congruence]).
  - destruct chars as [c |]; cbn [is_some].
    + destruct (usage_check_text_unset _ _ _ Hu Ht) as [Hm _].
      destruct (_encoding (config s)) as [codec |];
        [| split; [repeat split | intros m E; congruence]].
      destruct (_current_content s) as [b | t];
        [| split; [repeat split | intros m E; congruence]].
      destruct (decoder_decode codec [] b _) as [[buffer text] |];
        (split; [repeat split | intros m E; congruence]).
    + destruct (_text_mode s) as [m0 |] eqn:Em.
      * split; [repeat split | intros ? E; congruence].
      * split; [repeat split | intros m E; discriminate].
Qed.

Lemma read_data_frame (env : Env) (orc : Oracle) (s : Stream) (size0 : Z)
    (chars : option Z) :
  same_session s (outcome_state (read_data env orc s size0 chars)) /\
  forall m, _text_mode s = Some m ->
    _text_mode (outcome_state (read_data env orc s size0 chars)) = Some m.
Proof.
  unfold read_data.
  destruct (negb (same_kind _ _)); [cbn; split; [repeat split | intros ? E; exact E] |].
  destruct (_ && negb (_download_complete _ _));
    [| rewrite finish_read_state; split; [repeat split | intros ? E; exact E]].
  destruct (_ && negb (in_text_mode s)).
  - destruct (_ || _); [cbn; split; [repeat split | intros ? E; exact E] |].
    destruct (run_events _ _ _ _) as [[[e |] k'] reqs].
    + cbn. split; [repeat split | intros ? E; exact E].
    + rewrite finish_read_state. split; [repeat split | intros ? E; exact E].
  - match goal with
    | |- context [chunk_loop env ?d ?ci ?s2 ?o ?rm ?rq] =>
        destruct (chunk_loop_frame env d ci s2 o rm rq) as [Hf Hm]
    end.
    split; [eapply same_session_trans; [| exact Hf]; repeat split |].
    intros m E. apply Hm. exact E.
Qed.

Lemma call_frame (env : Env) (orc : Oracle) (s : Stream) (c : Call) :
  same_session s (call_state (call env orc s c)) /\
  forall m, _text_mode s = Some m ->
    _text_mode (call_state (call env orc s c)) = Some m.
Proof.
  destruct c as [size0 chars | stream]; cbn [call call_state].
  - unfold read.
    destruct (usage_check s size0 chars) eqn:Hu;
      [cbn; split; [repeat split | intros ? E; exact E] |].
    destruct (_ || _ || _); [cbn; split; [repeat split | intros ? E; exact E] |].
    pose proof (enter_mode_frame env s size0 chars Hu) as He.
    destruct (enter_mode env s chars) as [[e s'] | s1]; [exact He |].
    destruct He as [Hf1 Hm1].
    destruct (read_data_frame env orc s1 size0 chars) as [Hf2 Hm2].
    split; [eapply same_session_trans; eassumption | auto].
  - unfold readinto.
    destruct (in_text_mode s); [cbn; split; [repeat split | intros ? E; exact E] |].
    destruct (_ && _); [cbn; split; [repeat split | intros ? E; exact E] |].
    destruct (_ <=? 0); [cbn; split; [repeat split | intros ? E; exact E] |].
    destruct (cslice _ _ _); [| cbn; split; [repeat split | intros ? E; exact E]].
    destruct (_download_complete _ _); [cbn; split; [repeat split | intros ? E; exact E] |].
    destruct (_ || _); [cbn; split; [repeat split | intros ? E; exact E] |].
    destruct (run_events _ _ _ _) as [[[e |] k'] reqs];
      cbn; (split; [repeat split | intros ? E; exact E]).
Qed.

(** X1: the mode of a stream is fixed for good: once [_text_mode] is set,
    to bytes or to text, no [read] and no [readinto], whatever its arguments
    and whether it returns or raises, changes it. *)
Theorem mode_is_irrevocable (env : Env) (orc : Oracle) (s : Stream) (c : Call)
    (m : bool) :
  _text_mode s = Some m ->
  _text_mode (call_state (call env orc s c)) = Some m.
Proof. intros H. now apply call_frame. Qed.

Lemma mode_is_irrevocable_witness :
  let env := plain_env ten_bytes None in
  exists s0 reqs,
    _setup env (text_config 4 1) = (inr s0, reqs) /\
    let s := reads env s0 [(fifo, -1, Some 2)] in
    _text_mode s = Some true /\
    _text_mode (call_state (call env fifo s (CallRead (-1) None))) = Some true.
Proof.
  eexists; eexists. split; [reflexivity |]. split; [reflexivity |].
  match goal with
  | |- _text_mode (call_state (call _ _ ?s _)) = _ =>
      exact (mode_is_irrevocable (plain_env ten_bytes None) fifo s
               (CallRead (-1) None) true eq_refl)
  end.
Defined.

(** X2: no [read] and no [readinto] changes what the initial request fixed:
    the size of the window, the size of the blob, the start of the range,
    the configuration and the map of non-empty ranges stay as they were,
    also when the call raises. *)
Theorem calls_keep_the_session (env : Env) (orc : Oracle) (s : Stream)
    (c : Call) :
  same_session s (call_state (call env orc s c)).
Proof. apply call_frame. Qed.

(** ** Bounded reads *)

Lemma yield_chunk_fetched (env : Env) (blob : list byte) (d : Downloader)
    (x : Z) :
  faithful env blob -> reliable env blob ->
  0 < chunk_size d -> 0 <= x < end_index d -> end_index d <= len blob ->
  (forall ranges, dl_non_empty_ranges d = Some ranges ->
                  get_page_ranges env = Some ranges) ->
  exists cl reqs,
    yield_chunk env d x = Fetched (py_slice blob x (chunk_end d x)) cl reqs /\
    cl = chunk_end d x - x /\
    len (py_slice blob x (chunk_end d x)) = chunk_end d x - x.
Proof.
  intros F R Hc Hx He Hr.
  pose proof (yield_chunk_faithful env blob d x F Hc Hx He Hr) as Hy.
  unfold yield_chunk in *. rewrite calculate_range_min in *.
  fold (chunk_end d x) in *.
  assert (Hce : x < chunk_end d x <= len blob) by (unfold chunk_end; lia).
  destruct (download_chunk_reliable env blob d x (chunk_end d x - 1) F R
              ltac:(lia) ltac:(lia)) as (data & cl & reqs & E).
  rewrite E in *. destruct Hy as (-> & -> & Hl).
  exists (len (py_slice blob x (chunk_end d x))), reqs.
  split; [reflexivity |]. split; exact Hl.
Qed.

(** Out of text mode the chunk loop appends to what was collected the next
    [remaining] bytes of the window after [download_offset], or what is left
    of the window if that is less. *)
Lemma chunk_loop_bytes (env : Env) (blob : list byte) (d : Downloader) :
  faithful env blob -> reliable env blob ->
  forall n chunks_iter s o remaining reqs,
    Inv env blob s ->
    in_text_mode s = false -> _first_chunk s = false ->
    _text_mode s <> None ->
    (0 < remaining -> _current_content_offset s = clen (_current_content s)) ->
    0 <= remaining ->
    chunk_size d = max_chunk_get_size (config s) ->
    end_index d = _download_start s + size s ->
    dl_non_empty_ranges d = _non_empty_ranges s ->
    chunks_iter =
      offsets_from n (_download_start s + _download_offset s) (chunk_size d) ->
    (forall n', n = S n' ->
       Z.of_nat n' * chunk_size d < size s - _download_offset s) ->
    size s - _download_offset s <= Z.of_nat n * chunk_size d ->
    exists s' reqs',
      chunk_loop env d chunks_iter s (CBytes o) remaining reqs =
        finish_read s'
          (CBytes (o ++ window blob s (_download_offset s)
                          (Z.min (_download_offset s + remaining) (size s))))
          reqs' /\
      _read_offset s' =
        _read_offset s +
        (Z.min (_download_offset s + remaining) (size s) - _download_offset s) /\
      Inv env blob s' /\ same_session s s' /\ _text_mode s' = _text_mode s.
Proof.
  intros F R. induction n as [| n IH];
    intros chunks_iter s o remaining reqs HI Ht Hfc Hm Hcco Hrem Hcs Hend
      Hranges Hplan Hn Hcov;
    pose proof (inv_offsets_ordered _ _ _ HI) as Hord;
    pose proof (inv_window _ _ _ HI) as (Hds & Hs0 & Hfit);
    pose proof (inv_download _ _ _ HI) as Hdl;
    pose proof (inv_cfg _ _ _ HI) as (_ & Hchunk & _);
    subst chunks_iter; cbn [offsets_from chunk_loop].
  - exists s, reqs. cbn [Z.of_nat Z.mul] in Hcov.
    replace (Z.min (_download_offset s + remaining) (size s))
      with (_download_offset s) by lia.
    unfold window. rewrite py_slice_empty, app_nil_r by lia.
    split; [reflexivity |]. split; [lia |].
    split; [exact HI |]. split; [apply same_session_refl | reflexivity].
  - destruct (remaining >? 0) eqn:Er.
    2: { rewrite Z.gtb_ltb in Er. apply Z.ltb_ge in Er.
         assert (remaining = 0) by lia. subst remaining.
         exists s, reqs. rewrite Z.add_0_r.
         replace (Z.min (_download_offset s) (size s))
           with (_download_offset s) by lia.
         unfold window. rewrite py_slice_empty, app_nil_r by lia.
         split; [reflexivity |]. split; [lia |].
         split; [exact HI |]. split; [apply same_session_refl | reflexivity]. }
    apply Z.gtb_lt in Er. specialize (Hcco Er).
    specialize (Hn n eq_refl) as Hn1.
    assert (Hpos : 0 <= Z.of_nat n * chunk_size d) by (rewrite Hcs; nia).
    set (x := _download_start s + _download_offset s) in *.
    destruct (yield_chunk_fetched env blob d x F R ltac:(lia) ltac:(subst x; lia)
                ltac:(lia)
                ltac:(rewrite Hranges; apply (inv_ranges _ _ _ HI)))
      as (cl & r & Ey & -> & Hlen).
    rewrite Ey.
    set (data := py_slice blob x (chunk_end d x)) in *.
    assert (Hce : chunk_end d x - x =
                  Z.min (chunk_size d) (size s - _download_offset s))
      by (unfold chunk_end; subst x; lia).
    rewrite <- Hlen.
    change (in_text_mode (downloaded s (len data) (len data)))
      with (in_text_mode s).
    rewrite Ht.
    assert (Hdata : data =
              window blob s (_download_offset s) (_download_offset s + len data)).
    { unfold window. subst data. f_equal. fold x. lia. }
    set (piece := if remaining <? clen (CBytes data)
                  then cslice_to (CBytes data) remaining else CBytes data).
    assert (Hpiece : piece = CBytes (py_slice_to data (Z.min remaining (len data)))).
    { subst piece. cbn [clen cslice_to].
      destruct (remaining <? len data) eqn:El.
      - apply Z.ltb_lt in El. now rewrite Z.min_l by lia.
      - apply Z.ltb_ge in El. rewrite Z.min_r by lia.
        unfold py_slice_to. rewrite clamp_index_inside by (pose proof (len_nonneg data); lia).
        unfold len. rewrite Nat2Z.id, firstn_all. reflexivity. }
    assert (Hread : clen piece = Z.min remaining (len data)).
    { rewrite Hpiece. cbn [clen]. pose proof (len_nonneg data).
      rewrite len_py_slice_to by lia. lia. }
    pose proof (len_nonneg data) as Hd0.
    match goal with
    | |- context [chunk_loop env d _ ?st _ _ _] => set (s4 := st)
    end.
    assert (HI4 : Inv env blob s4).
    { apply (step_bytes env blob s data (clen piece) HI Ht Hfc Hm Hcco Hdata);
        lia. }
    destruct (IH (offsets_from n (x + chunk_size d) (chunk_size d)) s4
                (o ++ py_slice_to data (Z.min remaining (len data)))%list
                (remaining - clen piece) (reqs ++ r)%list HI4)
      as (s' & reqs' & E & Hro & HI' & Hss & Hmm);
      try assumption; try reflexivity.
    + intros Hr. change (clen piece = len data). lia.
    + lia.
    + apply offsets_from_start. intros Hn0. subst s4. cbn.
      destruct n; [congruence |]. subst x. nia.
    + intros n' ->. subst s4. cbn. nia.
    + subst s4. cbn. nia.
    + exists s', reqs'.
      replace (capp (CBytes o) piece)
        with (CBytes (o ++ py_slice_to data (Z.min remaining (len data))))
        by (rewrite Hpiece; reflexivity).
      rewrite E.
      change (_download_offset s4) with (_download_offset s + len data) in *.
      change (_read_offset s4) with (_read_offset s + clen piece) in *.
      change (size s4) with (size s) in *.
      change (window blob s4) with (window blob s) in *.
      split; [| split; [| split; [exact HI' |
                split; [eapply same_session_trans; [| exact Hss]; repeat split
                       | exact Hmm]]]].
      * f_equal. f_equal. rewrite <- app_assoc. f_equal.
        destruct (Z.lt_ge_cases remaining (len data)) as [Hlt | Hge].
        -- rewrite Hread, Z.min_l in * by lia.
           replace (remaining - remaining) with 0 by lia.
           rewrite Z.add_0_r.
           replace (Z.min (_download_offset s + len data) (size s))
             with (_download_offset s + len data) by lia.
           replace (Z.min (_download_offset s + remaining) (size s))
             with (_download_offset s + remaining) by lia.
           unfold window at 1. rewrite py_slice_empty, app_nil_r by lia.
           rewrite py_slice_to_inside by lia. rewrite Hdata.
           unfold window. rewrite py_slice_py_slice by lia. f_equal; lia.
        -- rewrite Hread, Z.min_r in * by lia.
           unfold py_slice_to. rewrite clamp_index_inside by lia.
           unfold len at 1. rewrite Nat2Z.id, firstn_all.
           replace (_download_offset s + len data + (remaining - len data))
             with (_download_offset s + remaining) by lia.
           rewrite Hdata at 1. symmetry. apply window_split; lia.
      * rewrite Hro. rewrite Hread.
        destruct (Z.lt_ge_cases remaining (len data)) as [Hlt | Hge].
        -- rewrite Z.min_l by lia. lia.
        -- rewrite (Z.min_r remaining) by lia.
           replace (_download_offset s + len data + (remaining - len data))
             with (_download_offset s + remaining) by lia.
           lia.
Qed.

Lemma read_data_bounded (env : Env) (blob : list byte) (orc : Oracle)
    (s : Stream) (size0 : Z) (chars : option Z) :
  faithful env blob -> reliable env blob -> Inv env blob s ->
  in_text_mode s = false -> _text_mode s <> None -> 0 < size0 < maxsize ->
  exists s' reqs,
    read_data env orc s size0 chars =
      finish_read s'
        (CBytes (window blob s (_read_offset s)
                   (Z.min (_read_offset s + size0) (size s)))) reqs /\
    _read_offset s' = Z.min (_read_offset s + size0) (size s) /\
    Inv env blob s' /\ same_session s s' /\ _text_mode s' = _text_mode s.
Proof.
  intros F R HI Ht Hm Hsz.
  pose proof (inv_offsets_ordered _ _ _ HI) as Hord.
  pose proof (inv_window _ _ _ HI) as (Hds & Hs0 & Hfit).
  pose proof (inv_download _ _ _ HI) as Hdl.
  pose proof (inv_cursor _ _ _ HI) as Hcur.
  pose proof (inv_cfg _ _ _ HI) as (_ & Hchunk & _).
  pose proof (inv_mode _ _ _ HI) as Hmode.
  pose proof (complete_iff_all_downloaded env blob s F HI) as Hiff.
  unfold mode_inv in Hmode. rewrite Ht in Hmode.
  destruct Hmode as (b & Hc & Heq & Htail & _).
  rewrite Hc in Hcur. cbn [clen] in Hcur.
  unfold read_data. rewrite Ht.
  replace (size0 >? 0) with true by (symmetry; apply Z.gtb_lt; lia).
  replace (size0 =? maxsize) with false by (symmetry; apply Z.eqb_neq; lia).
  cbn [andb].
  rewrite Hc. cbn [clen].
  set (length := Z.min (len b - _current_content_offset s) size0).
  assert (Hl0 : 0 <= length) by (subst length; lia).
  cbn [cslice same_kind negb].
  assert (Hpiece : py_slice b (_current_content_offset s)
                     (_current_content_offset s + length) =
                   window blob s (_read_offset s) (_read_offset s + length)).
  { rewrite py_slice_head by (subst length; lia). rewrite Htail.
    unfold window.
    rewrite py_slice_to_inside
      by (rewrite len_py_slice by lia; subst length; lia).
    rewrite py_slice_py_slice by (subst length; lia).
    f_equal; lia. }
  rewrite Hpiece.
  set (pb := window blob s (_read_offset s) (_read_offset s + length)).
  assert (Hlen : len pb = length).
  { subst pb. rewrite len_window by (subst length; lia). lia. }
  cbn [clen]. rewrite Hlen.
  assert (Hk : same_kind (in_text_mode s) (_current_content s) = true)
    by (rewrite Ht, Hc; reflexivity).
  destruct (inv_consume env blob s length HI Hm Hk
              ltac:(rewrite Hc; cbn [clen]; subst length; lia)) as [HI1 _].
  set (s1 := consume s length) in *.
  change (_download_complete env s1) with (_download_complete env s).
  destruct ((size0 - length >? 0) && negb (_download_complete env s)) eqn:Ego.
  - apply andb_true_iff in Ego as [Hrem Hnc]. apply Z.gtb_lt in Hrem.
    apply negb_true_iff in Hnc.
    assert (Hlt : _download_offset s < size s).
    { destruct (Z.eq_dec (_download_offset s) (size s)) as [E | E]; [| lia].
      apply Hiff in E. congruence. }
    assert (Hlength : length = _download_offset s - _read_offset s)
      by (subst length; lia).
    pose proof (inv_first_chunk_false _ _ _ HI1) as HI2.
    set (s2 := set_first_chunk s1 false) in *.
    set (d := new_downloader s1 _ _ _).
    destruct (chunk_loop_bytes env blob d F R (chunk_count d)
                (get_chunk_offsets d) s2 pb (size0 - length) [] HI2)
      as (s' & reqs' & E & Hro & HI' & Hss & Hmm);
      try reflexivity; try assumption; try (cbn; lia).
    + intros _. cbn. rewrite Hc. cbn [clen]. lia.
    + intros n' En. pose proof (chunk_count_bound d n' Hchunk En) as Hb.
      cbn in Hb. cbn. lia.
    + pose proof (chunk_count_cover d Hchunk) as Hcv. cbn in Hcv. cbn. lia.
    + exists s', reqs'. rewrite E.
      change (_download_offset s2) with (_download_offset s) in *.
      change (_read_offset s2) with (_read_offset s + length) in *.
      change (size s2) with (size s) in *.
      change (window blob s2) with (window blob s) in *.
      change (_text_mode s2) with (_text_mode s) in *.
      replace (_download_offset s + (size0 - length))
        with (_read_offset s + size0) in * by lia.
      split; [| split; [lia | split; [exact HI' |
                split; [eapply same_session_trans; [| exact Hss]; repeat split
                       | exact Hmm]]]].
      f_equal. f_equal. subst pb. rewrite Hlength.
      replace (_read_offset s + (_download_offset s - _read_offset s))
        with (_download_offset s) by lia.
      symmetry. apply window_split; lia.
  - exists s1, []. 
    assert (Hend : _read_offset s + length =
                   Z.min (_read_offset s + size0) (size s)).
    { apply andb_false_iff in Ego as [Hrem | Hc'].
      - rewrite Z.gtb_ltb in Hrem. apply Z.ltb_ge in Hrem. subst length. lia.
      - apply negb_false_iff in Hc'. apply Hiff in Hc'. subst length. lia. }
    subst pb. rewrite Hend.
    split; [reflexivity |]. split; [cbn; lia |]. split; [exact HI1 |].
    split; [repeat split | reflexivity].
Qed.

(** X3: out of text mode, [read(n)] with [0 < n < sys.maxsize] returns the
    next [n] bytes of the window after [read_offset], or all that is left
    when that is less (decoded when an encoding is configured), from the
    buffer and as many chunks as it takes, and moves [read_offset] past
    them. *)
Theorem read_returns_next_bytes (env : Env) (blob : list byte) (cfg : Config)
    (s0 : Stream) (reqs0 : list Request)
    (calls : list (Oracle * Z * option Z)) (orc : Oracle) (n : Z) :
  faithful env blob -> reliable env blob -> well_formed cfg ->
  _setup env cfg = (inr s0, reqs0) ->
  let s := reads env s0 calls in
  in_text_mode s = false -> 0 < n < maxsize ->
  exists s' reqs,
    read env orc s n None =
      outcome_of
        (delivered cfg
           (window blob s (_read_offset s) (Z.min (_read_offset s + n) (size s))))
        s' reqs /\
    _read_offset s' = Z.min (_read_offset s + n) (size s).
Proof.
  intros F R Hcfg Hsetup s Ht Hn.
  destruct (setup_inv env blob cfg s0 reqs0 F Hcfg Hsetup) as (HI0 & Hc0 & _).
  destruct (reads_inv env blob F calls s0 HI0) as [HI _]. fold s in HI.
  assert (Hcs : config s = cfg).
  { subst s. clear - Hc0. revert s0 Hc0.
    induction calls as [| [[o z] c] rest IH]; intros s0 Hc0; [exact Hc0 |].
    cbn [reads]. apply IH.
    destruct (call_frame env o s0 (CallRead z c)) as [(Hcf & _) _].
    cbn in Hcf. congruence. }
  pose proof (inv_offsets_ordered _ _ _ HI) as Hord.
  pose proof (inv_window _ _ _ HI) as (Hds & Hs0 & Hfit).
  pose proof (inv_download _ _ _ HI) as Hdl.
  pose proof (inv_cursor _ _ _ HI) as Hcur.
  pose proof (complete_iff_all_downloaded env blob s F HI) as Hiff.
  pose proof (inv_mode _ _ _ HI) as Hmode.
  unfold mode_inv in Hmode. rewrite Ht in Hmode.
  destruct Hmode as (b & Hc & Heq & _).
  rewrite Hc in Hcur. cbn [clen] in Hcur.
  assert (Hu : usage_check s n None = None).
  { unfold usage_check. cbn [is_some]. rewrite !andb_false_r, Ht. reflexivity. }
  unfold read. rewrite Hu.
  replace (n =? 0) with false by (symmetry; apply Z.eqb_neq; lia).
  cbn [is_zero orb]. rewrite <- Hcs.
  destruct (_download_complete env s &&
            (_current_content_offset s >=? clen (_current_content s))) eqn:Eearly.
  - apply andb_true_iff in Eearly as [Ec Eb].
    rewrite Hc in Eb. cbn [clen] in Eb. apply Z.geb_le in Eb.
    apply Hiff in Ec as Hall.
    exists s, []. split; [| lia].
    replace (Z.min (_read_offset s + n) (size s)) with (_read_offset s) by lia.
    unfold window. rewrite py_slice_empty by lia.
    apply empty_result_delivered.
  - assert (Hw : window blob s (_read_offset s)
                   (Z.min (_read_offset s + n) (size s)) <> []).
    { apply len_pos_nonempty. rewrite len_window by lia.
      apply andb_false_iff in Eearly as [Ec | Eb].
      - destruct (Z.eq_dec (_download_offset s) (size s)) as [E | E]; [| lia].
        apply Hiff in E. congruence.
      - rewrite Hc in Eb. cbn [clen] in Eb. rewrite Z.geb_leb in Eb.
        apply Z.leb_gt in Eb. lia. }
    pose proof (enter_mode_inv env blob s n None HI Hu) as He.
    pose proof (enter_mode_frame env s n None Hu) as Hf.
    destruct (enter_mode env s None) as [[e s'] | s1] eqn:Em.
    + unfold enter_mode in Em. rewrite Ht in Em. cbn in Em.
      destruct (_text_mode s); discriminate.
    + destruct He as (HI1 & Hro1 & Hm1). destruct Hf as (Hss1 & _).
      assert (Ht1 : in_text_mode s1 = false).
      { unfold enter_mode in Em. rewrite Ht in Em. cbn in Em.
        unfold in_text_mode in *.
        destruct (_text_mode s) as [m |] eqn:Emode; inversion Em; subst;
          [rewrite Emode; exact Ht | reflexivity]. }
      destruct (read_data_bounded env blob orc s1 n None F R HI1 Ht1 Hm1 Hn)
        as (s' & reqs & E & Hro & HI' & Hss & Hmm).
      destruct Hss1 as (Hcf1 & Hsz1 & _ & _ & Hst1).
      assert (Hwin : window blob s1 = window blob s)
        by (unfold window; rewrite Hst1; reflexivity).
      rewrite Hwin, Hro1, Hsz1 in *.
      exists s', reqs. rewrite E. split; [| exact Hro].
      destruct Hss as (Hcf & _).
      replace (config s) with (config s') by congruence.
      apply finish_read_delivered; [| exact Hw].
      unfold in_text_mode in *. rewrite Hmm. exact Ht1.
Qed.

Lemma read_returns_next_bytes_witness :
  let env := plain_env ten_bytes None in
  exists s0 reqs0,
    _setup env (default_config 4 1) = (inr s0, reqs0) /\
    let s := reads env s0 [(fifo, 3, None)] in
    exists s' reqs,
      read env fifo s 6 None =
        outcome_of
          (delivered (default_config 4 1)
             (window ten_bytes s (_read_offset s)
                (Z.min (_read_offset s + 6) (size s))))
          s' reqs /\
      _read_offset s' = Z.min (_read_offset s + 6) (size s).
Proof.
  eexists; eexists. split; [reflexivity |].
  refine (read_returns_next_bytes (plain_env ten_bytes None) ten_bytes
            (default_config 4 1) _ _ [(fifo, 3, None)] fifo 6
            (serve_faithful ten_bytes) (serve_reliable ten_bytes)
            (default_config_well_formed 4 1 _) eq_refl eq_refl _).
  - lia.
  - vm_compute. split; reflexivity.
Defined.

(** ** Successive reads *)

Lemma read_keeps_bytes_mode (env : Env) (orc : Oracle) (s : Stream) (size0 : Z) :
  in_text_mode s = false ->
  in_text_mode (outcome_state (read env orc s size0 None)) = false.
Proof.
  intros Ht. unfold read.
  destruct (usage_check s size0 None); [exact Ht |].
  destruct (_ || _ || _); [exact Ht |].
  unfold enter_mode. rewrite Ht. cbn [negb is_some andb].
  destruct (_text_mode s) as [m |] eqn:Em.
  - destruct (read_data_frame env orc s size0 None) as [_ Hm].
    specialize (Hm m Em). unfold in_text_mode in *. rewrite Hm.
    rewrite Em in Ht. exact Ht.
  - set (s1 := set_text_mode s (Some false) (_decoder s)).
    destruct (read_data_frame env orc s1 size0 None) as [_ Hm].
    specialize (Hm false eq_refl). unfold in_text_mode. rewrite Hm. reflexivity.
Qed.

(** Out of text mode every [read(size)] delivers the bytes of the window
    from the old [read_offset] to the new one. *)
Lemma read_step (env : Env) (blob : list byte) (orc : Oracle) (s : Stream)
    (size0 : Z) :
  faithful env blob -> reliable env blob -> Inv env blob s ->
  in_text_mode s = false -> size0 < maxsize ->
  1 <= _max_concurrency (config s) <= maxsize -> len blob < maxsize ->
  exists s' reqs,
    read env orc s size0 None =
      outcome_of
        (delivered (config s) (window blob s (_read_offset s) (_read_offset s')))
        s' reqs /\
    _read_offset s <= _read_offset s' <= size s.
Proof.
  intros F R HI Ht Hsz Hmc Hblob.
  pose proof (inv_offsets_ordered _ _ _ HI) as Hord.
  pose proof (inv_window _ _ _ HI) as (Hds & Hs0 & Hfit).
  pose proof (inv_download _ _ _ HI) as Hdl.
  destruct (Z.lt_trichotomy size0 0) as [Hneg | [-> | Hpos]].
  - destruct (read_all env blob orc s size0 F R HI Ht Hneg Hmc Hblob)
      as (s' & reqs & E & _ & Hro).
    exists s', reqs. rewrite Hro. split; [exact E | lia].
  - exists s, []. split; [| lia].
    unfold read.
    assert (Hu : usage_check s 0 None = None).
    { unfold usage_check. cbn [is_some]. rewrite !andb_false_r, Ht. reflexivity. }
    rewrite Hu. cbn [Z.eqb orb].
    unfold window. rewrite py_slice_empty by lia.
    apply empty_result_delivered.
  - assert (Hu : usage_check s size0 None = None).
    { unfold usage_check. cbn [is_some]. rewrite !andb_false_r, Ht. reflexivity. }
    pose proof (inv_cursor _ _ _ HI) as Hcur.
    pose proof (complete_iff_all_downloaded env blob s F HI) as Hiff.
    pose proof (inv_mode _ _ _ HI) as Hmode.
    unfold mode_inv in Hmode. rewrite Ht in Hmode.
    destruct Hmode as (b & Hc & Heq & _).
    rewrite Hc in Hcur. cbn [clen] in Hcur.
    unfold read. rewrite Hu.
    replace (size0 =? 0) with false by (symmetry; apply Z.eqb_neq; lia).
    cbn [is_zero orb].
    destruct (_download_complete env s &&
              (_current_content_offset s >=? clen (_current_content s))) eqn:Eearly.
    + exists s, []. split; [| lia].
      unfold window. rewrite py_slice_empty by lia.
      apply empty_result_delivered.
    + assert (Hlt : _read_offset s < size s).
      { apply andb_false_iff in Eearly as [Ec | Eb].
        - destruct (Z.eq_dec (_download_offset s) (size s)) as [E | E]; [| lia].
          apply Hiff in E. congruence.
        - rewrite Hc in Eb. cbn [clen] in Eb. rewrite Z.geb_leb in Eb.
          apply Z.leb_gt in Eb. lia. }
      pose proof (enter_mode_inv env blob s size0 None HI Hu) as He.
      pose proof (enter_mode_frame env s size0 None Hu) as Hf.
      destruct (enter_mode env s None) as [[e s'] | s1] eqn:Em.
      * unfold enter_mode in Em. rewrite Ht in Em. cbn in Em.
        destruct (_text_mode s); discriminate.
      * destruct He as (HI1 & Hro1 & Hm1). destruct Hf as (Hss1 & _).
        assert (Ht1 : in_text_mode s1 = false).
        { unfold enter_mode in Em. rewrite Ht in Em. cbn in Em.
          unfold in_text_mode in *.
          destruct (_text_mode s) as [m |] eqn:Emode; inversion Em; subst;
            [rewrite Emode; exact Ht | reflexivity]. }
        destruct (read_data_bounded env blob orc s1 size0 None F R HI1 Ht1 Hm1
                    ltac:(lia))
          as (s' & reqs & E & Hro & HI' & Hss & Hmm).
        destruct Hss1 as (Hcf1 & Hsz1 & _ & _ & Hst1).
        assert (Hwin : window blob s1 = window blob s)
          by (unfold window; rewrite Hst1; reflexivity).
        rewrite Hwin, Hro1, Hsz1 in *.
        exists s', reqs. rewrite E, Hro. split; [| lia].
        destruct Hss as (Hcf & _).
        replace (config s) with (config s') by congruence.
        apply finish_read_delivered.
        -- unfold in_text_mode in *. rewrite Hmm. exact Ht1.
        -- apply len_pos_nonempty. rewrite len_window by lia. lia.
Qed.

Lemma read_each_window (env : Env) (blob : list byte) :
  faithful env blob -> reliable env blob -> len blob < maxsize ->
  forall calls s,
    Inv env blob s -> in_text_mode s = false ->
    _encoding (config s) = None ->
    1 <= _max_concurrency (config s) <= maxsize ->
    Forall (fun c => snd c < maxsize) calls ->
    let (data, s') := read_each env s calls in
    data = window blob s (_read_offset s) (_read_offset s') /\
    _read_offset s <= _read_offset s' <= size s.
Proof.
  intros F R Hblob. induction calls as [| [orc size0] rest IH];
    intros s HI Ht Henc Hmc Hall;
    pose proof (inv_offsets_ordered _ _ _ HI) as Hord;
    pose proof (inv_window _ _ _ HI) as (Hds & Hs0 & Hfit);
    pose proof (inv_download _ _ _ HI) as Hdl.
  - cbn [read_each]. unfold window. rewrite py_slice_empty by lia.
    split; [reflexivity | lia].
  - cbn [read_each]. inversion Hall as [| ? ? Hsz Hrest]; subst.
    cbn [snd] in Hsz.
    destruct (read_step env blob orc s size0 F R HI Ht Hsz Hmc Hblob)
      as (s1 & reqs & E & Hro).
    destruct (read_inv env blob orc s size0 None F HI) as [HI1 _].
    pose proof (read_keeps_bytes_mode env orc s size0 Ht) as Ht1.
    destruct (call_frame env orc s (CallRead size0 None)) as [Hss _].
    cbn [call call_state] in Hss.
    unfold delivered in E. rewrite Henc in E. cbn [outcome_of] in E.
    rewrite E in *. cbn [outcome_state] in *.
    destruct Hss as (Hcf & Hsz1 & _ & _ & Hst).
    specialize (IH s1 HI1 Ht1 ltac:(congruence) ltac:(rewrite Hcf; exact Hmc)
                  Hrest).
    destruct (read_each env s1 rest) as [tail s'].
    destruct IH as [-> Hro'].
    replace (window blob s1) with (window blob s)
      by (unfold window; rewrite Hst; reflexivity).
    split; [| lia].
    symmetry. apply window_split; lia.
Qed.

(** X4: out of text mode and with no encoding, the results of successive
    [read(size)] calls on a fresh stream, put one after the other, are the
    window of the blob up to the final [read_offset]: no byte is lost,
    repeated or reordered between calls, whatever sizes are asked. *)
Theorem reads_concatenate (env : Env) (blob : list byte) (cfg : Config)
    (s0 : Stream) (reqs0 : list Request) (calls : list (Oracle * Z)) :
  faithful env blob -> reliable env blob -> well_formed cfg ->
  _encoding cfg = None -> 1 <= _max_concurrency cfg <= maxsize ->
  len blob < maxsize ->
  Forall (fun c => snd c < maxsize) calls ->
  _setup env cfg = (inr s0, reqs0) ->
  fst (read_each env s0 calls) =
    window blob s0 0 (_read_offset (snd (read_each env s0 calls))) /\
  _read_offset (snd (read_each env s0 calls)) <= size s0.
Proof.
  intros F R Hcfg Henc Hmc Hblob Hall Hsetup.
  destruct (setup_inv env blob cfg s0 reqs0 F Hcfg Hsetup)
    as (HI0 & Hc0 & Hm0 & _).
  pose proof (inv_unset _ _ _ HI0 Hm0) as [_ Hro0].
  assert (Ht0 : in_text_mode s0 = false)
    by (unfold in_text_mode; rewrite Hm0; reflexivity).
  pose proof (read_each_window env blob F R Hblob calls s0 HI0 Ht0
                ltac:(congruence) ltac:(rewrite Hc0; exact Hmc) Hall) as H.
  destruct (read_each env s0 calls) as [data s']. cbn [fst snd].
  rewrite Hro0 in H. destruct H as [-> Hr]. split; [reflexivity | lia].
Qed.

Lemma reads_concatenate_witness :
  let env := plain_env ten_bytes None in
  let calls := [(fifo, 3); (fifo, 0); (out_of_order, 5); (fifo, -1)] in
  exists s0 reqs0,
    _setup env (default_config 4 2) = (inr s0, reqs0) /\
    fst (read_each env s0 calls) =
      window ten_bytes s0 0 (_read_offset (snd (read_each env s0 calls))) /\
    _read_offset (snd (read_each env s0 calls)) <= size s0.
Proof.
  eexists; eexists. split; [reflexivity |].
  refine (reads_concatenate (plain_env ten_bytes None) ten_bytes
            (default_config 4 2) _ _
            [(fifo, 3); (fifo, 0); (out_of_order, 5); (fifo, -1)]
            (serve_faithful ten_bytes) (serve_reliable ten_bytes)
            (default_config_well_formed 4 2 _) eq_refl _ _ _ eq_refl).
  - lia.
  - vm_compute. split; discriminate.
  - reflexivity.
  - repeat constructor.
Defined.

(** ** [readinto] *)

Lemma readinto_appends (env : Env) (blob : list byte) (orc : Oracle)
    (s : Stream) (k : Sink) :
  faithful env blob -> reliable env blob -> Inv env blob s ->
  in_text_mode s = false ->
  1 <= _max_concurrency (config s) <= maxsize ->
  (1 < _max_concurrency (config s) -> sk_seekable k = true) ->
  sk_pos k = len (sk_data k) ->
  exists s' reqs k',
    readinto env orc s k = (Ret (size s - _read_offset s) s' reqs, k') /\
    sk_data k' = (sk_data k ++ window blob s (_read_offset s) (size s))%list /\
    _read_offset s' = size s /\ _download_complete env s' = true.
Proof.
  intros F R HI Ht Hmc Hseek Hpos.
  pose proof (inv_offsets_ordered _ _ _ HI) as Hord.
  pose proof (inv_window _ _ _ HI) as (Hds & Hs0 & Hfit).
  pose proof (inv_download _ _ _ HI) as Hdl.
  pose proof (inv_cursor _ _ _ HI) as Hcur.
  pose proof (inv_cfg _ _ _ HI) as (_ & Hchunk & _).
  pose proof (complete_iff_all_downloaded env blob s F HI) as Hiff.
  pose proof (inv_mode _ _ _ HI) as Hmode.
  unfold mode_inv in Hmode. rewrite Ht in Hmode.
  destruct Hmode as (b & Hc & Heq & Htail & _).
  rewrite Hc in Hcur. cbn [clen] in Hcur.
  unfold readinto. rewrite Ht.
  assert (Hseekable : (_max_concurrency (config s) >? 1) && negb (sk_seekable k)
                  = false).
  { destruct (_max_concurrency (config s) >? 1) eqn:E; [| reflexivity].
    apply Z.gtb_lt in E. rewrite (Hseek E). reflexivity. }
  rewrite Hseekable.
  destruct (size s - _read_offset s <=? 0) eqn:Erem.
  - apply Z.leb_le in Erem.
    assert (Hall : _download_offset s = size s) by lia.
    exists s, [], k.
    split; [replace (size s - _read_offset s) with 0 by lia; reflexivity |].
    split; [| split; [lia | apply Hiff; exact Hall]].
    unfold window. replace (_read_offset s) with (size s) by lia.
    rewrite py_slice_empty, app_nil_r by lia. reflexivity.
  - apply Z.leb_gt in Erem.
    rewrite Hc. cbn [clen cslice].
    replace (_current_content_offset s + (len b - _current_content_offset s))
      with (len b) by lia.
    assert (Hpiece : py_slice b (_current_content_offset s) (len b) =
                     window blob s (_read_offset s) (_download_offset s)).
    { rewrite <- py_slice_from_inside by lia. exact Htail. }
    rewrite Hpiece.
    set (pb := window blob s (_read_offset s) (_download_offset s)).
    assert (Hlen : len pb = _download_offset s - _read_offset s).
    { subst pb. apply len_window; lia. }
    destruct (sink_write_append k pb Hpos) as [Hd1 Hp1].
    set (k1 := sink_write k pb) in *.
    set (s1 := consume s (len pb)).
    change (_download_complete env s1) with (_download_complete env s).
    destruct (Z.eq_dec (_download_offset s) (size s)) as [Hall | Hne].
    + pose proof (proj2 Hiff Hall) as Ecomp. rewrite Ecomp.
      exists s1, [], k1. split; [reflexivity |].
      split; [rewrite Hd1; subst pb; rewrite Hall; reflexivity |].
      split; [cbn; lia | exact Ecomp].
    + assert (Hlt : _download_offset s < size s) by lia.
      assert (Ecomp : _download_complete env s = false).
      { destruct (_download_complete env s) eqn:E; [| reflexivity].
        exfalso. apply Hne. apply Hiff. reflexivity. }
      rewrite Ecomp.
      change (config s1) with (config s).
      replace ((_max_concurrency (config s) <? 0) ||
               (_max_concurrency (config s) >? maxsize)) with false.
      2: { symmetry. apply orb_false_iff. split;
             [apply Z.ltb_ge | rewrite Z.gtb_ltb; apply Z.ltb_ge]; lia. }
      set (d := new_downloader s1 _ _ _).
      destruct (run_schedule_assembles env blob d orc
                  (_max_concurrency (config s)) (sk_data k ++ pb)
                  (sk_seekable k) F R)
        as (k' & reqs & E & Hk); try (cbn; lia).
      * cbn. apply (inv_ranges _ _ _ HI).
      * subst d. unfold new_downloader. cbn [stream_start parallel].
        rewrite Hp1.
        destruct (_max_concurrency (config s) >? 1); reflexivity.
      * assert (Hk1 : k1 = {| sk_data := (sk_data k ++ pb)%list;
                              sk_pos := len (sk_data k ++ pb);
                              sk_seekable := sk_seekable k |}).
        { destruct k1 as [kd kp ks] eqn:Ek. cbn [sk_data sk_pos] in Hd1, Hp1.
          subst kd kp. f_equal.
          change ks with (sk_seekable {| sk_data := (sk_data k ++ pb)%list;
                                         sk_pos := len (sk_data k ++ pb);
                                         sk_seekable := ks |}).
          rewrite <- Ek. reflexivity. }
        rewrite Hk1, E.
        exists (_complete_read s1), reqs, k'.
        split; [reflexivity |].
        split; [| split; [reflexivity |]].
        -- rewrite Hk, <- app_assoc. f_equal.
           change (start_index d)
             with (_download_start s + (_read_offset s + len pb)).
           change (end_index d) with (_download_start s + size s).
           rewrite Hlen.
           replace (_read_offset s + (_download_offset s - _read_offset s))
             with (_download_offset s) by lia.
           change (pb ++ window blob s (_download_offset s) (size s) =
                   window blob s (_read_offset s) (size s))%list.
           subst pb. symmetry. apply window_split; lia.
        -- unfold _download_complete. cbn.
           destruct (is_encryption_v2 env); apply Z.geb_le; lia.
Qed.

(** X5: out of text mode, [readinto] on a sink that stands at its end
    appends to it exactly the bytes of the window not yet read, in order,
    under every scheduling of the chunk tasks; it returns their number and
    leaves the stream complete. *)
Theorem readinto_appends_the_rest (env : Env) (blob : list byte) (cfg : Config)
    (s0 : Stream) (reqs0 : list Request)
    (calls : list (Oracle * Z * option Z)) (orc : Oracle) (k : Sink) :
  faithful env blob -> reliable env blob -> well_formed cfg ->
  1 <= _max_concurrency cfg <= maxsize ->
  _setup env cfg = (inr s0, reqs0) ->
  let s := reads env s0 calls in
  in_text_mode s = false ->
  (1 < _max_concurrency cfg -> sk_seekable k = true) ->
  sk_pos k = len (sk_data k) ->
  exists s' reqs k',
    readinto env orc s k = (Ret (size s - _read_offset s) s' reqs, k') /\
    sk_data k' = (sk_data k ++ window blob s (_read_offset s) (size s))%list /\
    _read_offset s' = size s /\ _download_complete env s' = true.
Proof.
  intros F R Hcfg Hmc Hsetup s Ht Hseek Hpos.
  destruct (setup_inv env blob cfg s0 reqs0 F Hcfg Hsetup) as (HI0 & Hc0 & _).
  destruct (reads_inv env blob F calls s0 HI0) as [HI _]. fold s in HI.
  assert (Hcs : config s = cfg).
  { subst s. clear - Hc0. revert s0 Hc0.
    induction calls as [| [[o z] c] rest IH]; intros s0 Hc0; [exact Hc0 |].
    cbn [reads]. apply IH.
    destruct (call_frame env o s0 (CallRead z c)) as [(Hcf & _) _].
    cbn in Hcf. congruence. }
  apply readinto_appends; try assumption; rewrite Hcs; assumption.
Qed.

Lemma readinto_appends_the_rest_witness :
  let env := plain_env ten_bytes None in
  let k := {| sk_data := three_bytes; sk_pos := 3; sk_seekable := true |} in
  exists s0 reqs0,
    _setup env (default_config 3 2) = (inr s0, reqs0) /\
    let s := reads env s0 [(fifo, 2, None)] in
    exists s' reqs k',
      readinto env out_of_order s k =
        (Ret (size s - _read_offset s) s' reqs, k') /\
      sk_data k' = (sk_data k ++ window ten_bytes s (_read_offset s) (size s))%list /\
      _read_offset s' = size s /\ _download_complete env s' = true.
Proof.
  eexists; eexists. split; [reflexivity |].
  refine (readinto_appends_the_rest (plain_env ten_bytes None) ten_bytes
            (default_config 3 2) _ _ [(fifo, 2, None)] out_of_order
            {| sk_data := three_bytes; sk_pos := 3; sk_seekable := true |}
            (serve_faithful ten_bytes) (serve_reliable ten_bytes)
            (default_config_well_formed 3 2 _) _ eq_refl eq_refl _ eq_refl).
  - lia.
  - vm_compute. split; discriminate.
  - reflexivity.
Defined.

(** ** Concurrency settings outside the usual range *)

Lemma reads_same_session (env : Env) :
  forall calls s, same_session s (reads env s calls).
Proof.
  induction calls as [| [[o z] c] rest IH]; intros s;
    [apply same_session_refl |].
  cbn [reads]. eapply same_session_trans; [| apply IH].
  destruct (call_frame env o s (CallRead z c)) as [H _]. exact H.
Qed.

Lemma schedule_nothing (orc : Oracle) (plan : list Z) : schedule orc 0 plan = [].
Proof. reflexivity. Qed.

(** What an unbounded [read] or a [readinto] does first, out of text mode:
    it takes what is left of the buffer, the window from [read_offset] to
    [download_offset]. *)
Lemma buffer_tail (env : Env) (blob : list byte) (s : Stream) :
  Inv env blob s -> in_text_mode s = false ->
  exists b,
    _current_content s = CBytes b /\
    0 <= _current_content_offset s <= len b /\
    py_slice b (_current_content_offset s) (len b) =
      window blob s (_read_offset s) (_download_offset s) /\
    len (window blob s (_read_offset s) (_download_offset s)) =
      _download_offset s - _read_offset s /\
    len b - _current_content_offset s = _download_offset s - _read_offset s.
Proof.
  intros HI Ht.
  pose proof (inv_offsets_ordered _ _ _ HI) as Hord.
  pose proof (inv_window _ _ _ HI) as (Hds & Hs0 & Hfit).
  pose proof (inv_download _ _ _ HI) as Hdl.
  pose proof (inv_cursor _ _ _ HI) as Hcur.
  pose proof (inv_mode _ _ _ HI) as Hmode.
  unfold mode_inv in Hmode. rewrite Ht in Hmode.
  destruct Hmode as (b & Hc & Heq & Htail & _).
  rewrite Hc in Hcur. cbn [clen] in Hcur.
  exists b. split; [exact Hc |]. split; [exact Hcur |].
  split; [rewrite <- py_slice_from_inside by lia; exact Htail |].
  split; [apply len_window; lia | lia].
Qed.

Lemma not_complete (env : Env) (blob : list byte) (s : Stream) :
  faithful env blob -> Inv env blob s -> _download_offset s < size s ->
  _download_complete env s = false.
Proof.
  intros F HI Hlt.
  destruct (_download_complete env s) eqn:E; [| reflexivity].
  apply (complete_iff_all_downloaded env blob s F HI) in E. lia.
Qed.

(** The start of an unbounded [read] out of text mode on a stream that is
    not complete, up to the choice between the loops. *)
Lemma read_unbounded_unfold (env : Env) (blob : list byte) (orc : Oracle)
    (s : Stream) (size0 : Z) :
  faithful env blob -> Inv env blob s -> in_text_mode s = false ->
  size0 < 0 -> len blob < maxsize -> _download_offset s < size s ->
  exists s1 pb,
    pb = window blob s (_read_offset s) (_download_offset s) /\
    config s1 = config s /\ _read_offset s1 = _download_offset s /\
    in_text_mode s1 = false /\
    read env orc s size0 None =
      if (_max_concurrency (config s) <? 0) ||
         (_max_concurrency (config s) >? maxsize)
      then Raise (ValueError Msg.islice_stop) s1 []
      else
        match run_events env
                (new_downloader s1 (_download_start s + _download_offset s)
                   (_max_concurrency (config s) >? 1) (len pb))
                (schedule orc (_max_concurrency (config s))
                   (get_chunk_offsets
                      (new_downloader s1 (_download_start s + _download_offset s)
                         (_max_concurrency (config s) >? 1) (len pb))))
                {| sk_data := pb; sk_pos := len pb; sk_seekable := true |} with
        | (Some e, _, reqs) => Raise e s1 reqs
        | (None, k', reqs) =>
            finish_read (_complete_read s1) (CBytes (sk_data k')) reqs
        end.
Proof.
  intros F HI Ht Hsz Hblob Hlt.
  pose proof (inv_offsets_ordered _ _ _ HI) as Hord.
  pose proof (inv_window _ _ _ HI) as (Hds & Hs0 & Hfit).
  pose proof (not_complete env blob s F HI Hlt) as Hnc.
  destruct (buffer_tail env blob s HI Ht) as (b & Hc & Hcur & Hpiece & Hlen & Hb).
  unfold read. rewrite (usage_check_no_chars s size0 Hsz).
  replace (size0 =? 0) with false by (symmetry; apply Z.eqb_neq; lia).
  rewrite Hnc. cbn [is_zero orb andb].
  assert (Hread : forall s1,
            _current_content s1 = CBytes b ->
            _current_content_offset s1 = _current_content_offset s ->
            in_text_mode s1 = false ->
            _download_complete env s1 = false ->
            read_data env orc s1 size0 None =
            let s2 := set_first_chunk
                        (consume s1 (len (py_slice b (_current_content_offset s)
                                            (len b)))) false in
            let pb := py_slice b (_current_content_offset s) (len b) in
            let d := new_downloader s2
                       (_download_start s1 + _download_offset s1)
                       (_max_concurrency (config s1) >? 1) (len pb) in
            if (_max_concurrency (config s1) <? 0) ||
               (_max_concurrency (config s1) >? maxsize)
            then Raise (ValueError Msg.islice_stop) s2 []
            else
              match run_events env d
                      (schedule orc (_max_concurrency (config s1))
                         (get_chunk_offsets d))
                      {| sk_data := pb; sk_pos := len pb; sk_seekable := true |}
              with
              | (Some e, _, reqs) => Raise e s2 reqs
              | (None, k', reqs) =>
                  finish_read (_complete_read s2) (CBytes (sk_data k')) reqs
              end).
  { intros s1 Hc1 Hcco1 Ht1 Hnc1. unfold read_data. rewrite Ht1, Hc1, Hcco1.
    replace (size0 >? 0) with false
      by (symmetry; rewrite Z.gtb_ltb; apply Z.ltb_ge; lia).
    cbn [clen].
    replace (Z.min (len b - _current_content_offset s) maxsize)
      with (len b - _current_content_offset s) by lia.
    replace (_current_content_offset s + (len b - _current_content_offset s))
      with (len b) by lia.
    cbn [cslice same_kind negb clen].
    rewrite Hpiece, Hlen.
    replace (maxsize - (_download_offset s - _read_offset s) >? 0) with true
      by (symmetry; apply Z.gtb_lt; lia).
    change (_download_complete env (consume s1 ?n))
      with (_download_complete env s1).
    rewrite Hnc1. cbn [andb negb]. change (maxsize =? maxsize) with true.
    cbn [andb]. reflexivity. }
  unfold enter_mode. rewrite Ht. cbn [negb is_some andb].
  destruct (_text_mode s) as [m |] eqn:Em.
  - rewrite (Hread s Hc eq_refl Ht Hnc). cbn zeta.
    rewrite Hpiece.
    eexists; eexists. split; [reflexivity |].
    split; [| split; [| split; [| reflexivity]]].
    + reflexivity.
    + cbn. lia.
    + exact Ht.
  - rewrite (Hread (set_text_mode s (Some false) (_decoder s)) Hc eq_refl
               eq_refl Hnc).
    cbn zeta. rewrite Hpiece.
    eexists; eexists. split; [reflexivity |].
    split; [| split; [| split; [| reflexivity]]].
    + reflexivity.
    + cbn. lia.
    + reflexivity.
Qed.

(** X6: with [max_concurrency = 0] an unbounded [read] out of text mode
    starts no chunk task: on a stream that still has chunks to fetch it
    returns only what was left of the buffer, issues no request, and marks
    the stream complete all the same, so the rest of the window is never
    delivered. *)
Theorem zero_concurrency_read_stops_at_buffer (env : Env) (blob : list byte)
    (cfg : Config) (s0 : Stream) (reqs0 : list Request)
    (calls : list (Oracle * Z * option Z)) (orc : Oracle) (size0 : Z) :
  faithful env blob -> well_formed cfg ->
  _max_concurrency cfg = 0 -> _encoding cfg = None -> len blob < maxsize ->
  _setup env cfg = (inr s0, reqs0) ->
  let s := reads env s0 calls in
  in_text_mode s = false -> size0 < 0 -> _download_offset s < size s ->
  exists s',
    read env orc s size0 None =
      Ret (CBytes (window blob s (_read_offset s) (_download_offset s))) s' [] /\
    _read_offset s' = size s /\ _download_complete env s' = true /\
    read env orc s' size0 None = Ret (CBytes []) s' [].
Proof.
  intros F Hcfg Hmc Henc Hblob Hsetup s Ht Hsz Hlt.
  destruct (setup_inv env blob cfg s0 reqs0 F Hcfg Hsetup) as (HI0 & Hc0 & _).
  destruct (reads_inv env blob F calls s0 HI0) as [HI _]. fold s in HI.
  destruct (reads_same_session env calls s0) as (Hcs & _). fold s in Hcs.
  rewrite Hc0 in Hcs.
  destruct (read_unbounded_unfold env blob orc s size0 F HI Ht Hsz Hblob Hlt)
    as (s1 & pb & -> & Hc1 & Hro1 & Ht1 & E).
  rewrite Hcs, Hmc in E. cbn [Z.ltb Z.gtb Z.compare orb] in E.
  change (0 >? maxsize) with false in E. cbn [orb] in E.
  rewrite schedule_nothing in E. cbn [run_events sk_data] in E.
  unfold finish_read in E.
  change (in_text_mode (_complete_read s1)) with (in_text_mode s1) in E.
  change (config (_complete_read s1)) with (config s1) in E.
  rewrite Ht1, Hc1, Hcs, Henc in E.
  exists (_complete_read s1). split; [exact E |].
  assert (Hsz1 : size s1 = size s).
  { pose proof (call_frame env orc s (CallRead size0 None)) as [(_ & H & _) _].
    cbn [call call_state] in H. rewrite E in H. exact H. }
  assert (Hcomp : _download_complete env (_complete_read s1) = true).
  { unfold _download_complete. cbn.
    destruct (is_encryption_v2 env); apply Z.geb_le; lia. }
  split; [cbn; exact Hsz1 |]. split; [exact Hcomp |].
  unfold read. rewrite (usage_check_no_chars _ size0 Hsz).
  rewrite Hcomp.
  replace (_current_content_offset (_complete_read s1) >=?
           clen (_current_content (_complete_read s1))) with true
    by (symmetry; cbn; apply Z.geb_le; lia).
  rewrite orb_true_r. unfold empty_result, has_encoding.
  change (config (_complete_read s1)) with (config s1).
  rewrite Hc1, Hcs, Henc. reflexivity.
Qed.

Lemma zero_concurrency_read_stops_at_buffer_witness :
  let env := plain_env ten_bytes None in
  exists s0 reqs0,
    _setup env (default_config 4 0) = (inr s0, reqs0) /\
    let s := reads env s0 [(fifo, 1, None)] in
    exists s',
      read env fifo s (-1) None =
        Ret (CBytes (window ten_bytes s (_read_offset s) (_download_offset s)))
          s' [] /\
      _read_offset s' = size s /\ _download_complete env s' = true /\
      read env fifo s' (-1) None = Ret (CBytes []) s' [].
Proof.
  eexists; eexists. split; [reflexivity |].
  refine (zero_concurrency_read_stops_at_buffer (plain_env ten_bytes None)
            ten_bytes (default_config 4 0) _ _ [(fifo, 1, None)] fifo (-1)
            (serve_faithful ten_bytes) (default_config_well_formed 4 0 _)
            eq_refl eq_refl _ eq_refl eq_refl _ _).
  - lia.
  - reflexivity.
  - lia.
  - vm_compute. reflexivity.
Defined.

(** X7: with [max_concurrency = 0], [readinto] on a stream that still has
    chunks to fetch writes only what was left of the buffer and issues no
    request, yet returns the number of all the bytes not yet read and marks
    the stream complete. *)
Theorem zero_concurrency_readinto_overcounts (env : Env) (blob : list byte)
    (cfg : Config) (s0 : Stream) (reqs0 : list Request)
    (calls : list (Oracle * Z * option Z)) (orc : Oracle) (k : Sink) :
  faithful env blob -> well_formed cfg ->
  _max_concurrency cfg = 0 ->
  _setup env cfg = (inr s0, reqs0) ->
  let s := reads env s0 calls in
  in_text_mode s = false -> _download_offset s < size s ->
  sk_pos k = len (sk_data k) ->
  exists s' k',
    readinto env orc s k = (Ret (size s - _read_offset s) s' [], k') /\
    sk_data k' =
      (sk_data k ++ window blob s (_read_offset s) (_download_offset s))%list /\
    len (sk_data k') - len (sk_data k) < size s - _read_offset s /\
    _read_offset s' = size s /\ _download_complete env s' = true.
Proof.
  intros F Hcfg Hmc Hsetup s Ht Hlt Hpos.
  destruct (setup_inv env blob cfg s0 reqs0 F Hcfg Hsetup) as (HI0 & Hc0 & _).
  destruct (reads_inv env blob F calls s0 HI0) as [HI _]. fold s in HI.
  destruct (reads_same_session env calls s0) as (Hcs & _). fold s in Hcs.
  rewrite Hc0 in Hcs.
  pose proof (inv_offsets_ordered _ _ _ HI) as Hord.
  pose proof (not_complete env blob s F HI Hlt) as Hnc.
  destruct (buffer_tail env blob s HI Ht) as (b & Hc & Hcur & Hpiece & Hlen & Hb).
  unfold readinto. rewrite Ht, Hcs, Hmc. cbn [Z.gtb Z.compare andb].
  replace (size s - _read_offset s <=? 0) with false
    by (symmetry; apply Z.leb_gt; lia).
  rewrite Hc. cbn [clen cslice].
  replace (_current_content_offset s + (len b - _current_content_offset s))
    with (len b) by lia.
  rewrite Hpiece.
  set (pb := window blob s (_read_offset s) (_download_offset s)) in *.
  change (_download_complete env (consume s (len pb)))
    with (_download_complete env s).
  rewrite Hnc.
  change (config (consume s (len pb))) with (config s).
  rewrite Hcs, Hmc. cbn [Z.ltb Z.compare orb].
  change (0 >? maxsize) with false. cbn [orb].
  rewrite schedule_nothing. cbn [run_events].
  destruct (sink_write_append k pb Hpos) as [Hd1 _].
  exists (_complete_read (consume s (len pb))), (sink_write k pb).
  split; [reflexivity |]. split; [exact Hd1 |].
  split; [rewrite Hd1, len_app; lia |].
  split; [reflexivity |].
  unfold _download_complete. cbn.
  destruct (is_encryption_v2 env); apply Z.geb_le; lia.
Qed.

Lemma zero_concurrency_readinto_overcounts_witness :
  let env := plain_env ten_bytes None in
  exists s0 reqs0,
    _setup env (default_config 4 0) = (inr s0, reqs0) /\
    let s := reads env s0 [] in
    exists s' k',
      readinto env fifo s (new_sink false) =
        (Ret (size s - _read_offset s) s' [], k') /\
      sk_data k' =
        (sk_data (new_sink false) ++
         window ten_bytes s (_read_offset s) (_download_offset s))%list /\
      len (sk_data k') - len (sk_data (new_sink false)) < size s - _read_offset s /\
      _read_offset s' = size s /\ _download_complete env s' = true.
Proof.
  eexists; eexists. split; [reflexivity |].
  refine (zero_concurrency_readinto_overcounts (plain_env ten_bytes None)
            ten_bytes (default_config 4 0) _ _ [] fifo (new_sink false)
            (serve_faithful ten_bytes) (default_config_well_formed 4 0 _)
            eq_refl eq_refl eq_refl _ eq_refl).
  - lia.
  - vm_compute. reflexivity.
Defined.

(** X8: with a negative [max_concurrency] an unbounded [read] out of text
    mode, on a stream that still has chunks to fetch, raises the
    [ValueError] of [islice] before any request; by then it has taken the
    rest of the buffer, which the caller never gets: [read_offset] stands at
    [download_offset]. *)
Theorem negative_concurrency_read_raises (env : Env) (blob : list byte)
    (cfg : Config) (s0 : Stream) (reqs0 : list Request)
    (calls : list (Oracle * Z * option Z)) (orc : Oracle) (size0 : Z) :
  faithful env blob -> well_formed cfg ->
  _max_concurrency cfg < 0 -> len blob < maxsize ->
  _setup env cfg = (inr s0, reqs0) ->
  let s := reads env s0 calls in
  in_text_mode s = false -> size0 < 0 -> _download_offset s < size s ->
  exists s',
    read env orc s size0 None = Raise (ValueError Msg.islice_stop) s' [] /\
    _read_offset s' = _download_offset s.
Proof.
  intros F Hcfg Hmc Hblob Hsetup s Ht Hsz Hlt.
  destruct (setup_inv env blob cfg s0 reqs0 F Hcfg Hsetup) as (HI0 & Hc0 & _).
  destruct (reads_inv env blob F calls s0 HI0) as [HI _]. fold s in HI.
  destruct (reads_same_session env calls s0) as (Hcs & _). fold s in Hcs.
  rewrite Hc0 in Hcs.
  destruct (read_unbounded_unfold env blob orc s size0 F HI Ht Hsz Hblob Hlt)
    as (s1 & pb & -> & Hc1 & Hro1 & Ht1 & E).
  rewrite Hcs in E.
  replace (_max_concurrency cfg <? 0) with true in E
    by (symmetry; apply Z.ltb_lt; lia).
  cbn [orb] in E. exists s1. split; [exact E | exact Hro1].
Qed.

Lemma negative_concurrency_read_raises_witness :
  let env := plain_env ten_bytes None in
  exists s0 reqs0,
    _setup env (default_config 4 (-1)) = (inr s0, reqs0) /\
    let s := reads env s0 [] in
    exists s',
      read env fifo s (-1) None = Raise (ValueError Msg.islice_stop) s' [] /\
      _read_offset s' = _download_offset s.
Proof.
  eexists; eexists. split; [reflexivity |].
  refine (negative_concurrency_read_raises (plain_env ten_bytes None)
            ten_bytes (default_config 4 (-1)) _ _ [] fifo (-1)
            (serve_faithful ten_bytes) (default_config_well_formed 4 (-1) _)
            _ _ eq_refl eq_refl _ _).
  - lia.
  - cbn. lia.
  - reflexivity.
  - lia.
  - vm_compute. reflexivity.
Defined.

(** ** Reads in text mode *)

Lemma chunk_loop_text_count (env : Env) (d : Downloader) :
  forall chunks_iter s o remaining reqs v s' r,
    in_text_mode s = true -> 0 <= remaining ->
    chunk_loop env d chunks_iter s (CStr o) remaining reqs = Ret v s' r ->
    exists t,
      v = CStr t /\
      len t - len o = _read_offset s' - _read_offset s /\
      0 <= _read_offset s' - _read_offset s <= remaining.
Proof.
  induction chunks_iter as [| chunk rest IH];
    intros s o remaining reqs v s' r Ht Hrem E; cbn [chunk_loop] in E.
  - unfold finish_read in E. rewrite Ht in E. injection E as <- <- <-.
    exists o. split; [reflexivity | lia].
  - destruct (remaining >? 0) eqn:Er.
    2: { unfold finish_read in E. rewrite Ht in E. injection E as <- <- <-.
         exists o. split; [reflexivity | lia]. }
    apply Z.gtb_lt in Er.
    destruct (yield_chunk env d chunk) as [data cl r0 | e r0]; [| discriminate].
    change (in_text_mode (downloaded s (len data) cl)) with (in_text_mode s) in E.
    rewrite Ht in E.
    change (config (downloaded s (len data) cl)) with (config s) in E.
    change (_decoder (downloaded s (len data) cl)) with (_decoder s) in E.
    destruct (_encoding (config s)) as [codec |]; [| discriminate].
    destruct (_decoder s) as [buffer |]; [| discriminate].
    destruct (decoder_decode codec buffer data _) as [[buffer' text] |];
      [| discriminate].
    set (piece := if remaining <? clen (CStr text)
                  then cslice_to (CStr text) remaining else CStr text) in E.
    assert (Hp : exists p, piece = CStr p /\ 0 <= len p <= remaining).
    { subst piece. cbn [clen cslice_to].
      destruct (remaining <? len text) eqn:El.
      - apply Z.ltb_lt in El. exists (py_slice_to text remaining).
        split; [reflexivity |]. rewrite len_py_slice_to by lia. lia.
      - apply Z.ltb_ge in El. exists text. split; [reflexivity |].
        pose proof (len_nonneg text). lia. }
    destruct Hp as (p & Hp & Hlen). rewrite Hp in E. cbn [capp clen] in E.
    apply IH in E; [| reflexivity | lia].
    destruct E as (t & -> & Hd & Hr). cbn in Hd, Hr.
    exists t. split; [reflexivity |]. rewrite len_app in Hd. lia.
Qed.

Lemma enter_text_mode (env : Env) (s s1 : Stream) (n : Z) :
  enter_mode env s (Some n) = inr s1 ->
  usage_check s (-1) (Some n) = None ->
  in_text_mode s1 = true.
Proof.
  unfold enter_mode, usage_check. cbn [is_some].
  destruct (in_text_mode s) eqn:Ht; cbn [negb andb].
  - unfold in_text_mode in Ht.
    destruct (_text_mode s) as [[|] |] eqn:Em; try discriminate.
    intros E _. injection E as <-. unfold in_text_mode. rewrite Em. reflexivity.
  - destruct (_encoding (config s)); [| discriminate].
    destruct (_current_content s); [| discriminate].
    destruct (decoder_decode _ _ _ _) as [[buffer text] |]; [| discriminate].
    intros E _. injection E as <-. reflexivity.
Qed.

(** X9: in text mode [read(chars=n)] counts code points: what it returns is
    text of at most [n] code points, and [read_offset] advances by the
    number of code points returned, not by the bytes they took. *)
Theorem text_read_counts_code_points (env : Env) (blob : list byte)
    (cfg : Config) (s0 : Stream) (reqs0 : list Request)
    (calls : list (Oracle * Z * option Z)) (orc : Oracle) (n : Z)
    (v : Content) (s' : Stream) (reqs : list Request) :
  faithful env blob -> well_formed cfg ->
  _setup env cfg = (inr s0, reqs0) ->
  let s := reads env s0 calls in
  0 <= n ->
  read env orc s (-1) (Some n) = Ret v s' reqs ->
  exists t,
    v = CStr t /\ len t <= n /\ _read_offset s' = _read_offset s + len t.
Proof.
  intros F Hcfg Hsetup s Hn E.
  destruct (setup_inv env blob cfg s0 reqs0 F Hcfg Hsetup) as (HI0 & _).
  destruct (reads_inv env blob F calls s0 HI0) as [HI _]. fold s in HI.
  unfold read in E.
  destruct (usage_check s (-1) (Some n)) eqn:Hu; [discriminate |].
  assert (Henc : has_encoding s = true).
  { unfold usage_check in Hu. cbn [is_some Z.gtb Z.compare andb] in Hu.
    rewrite andb_true_r in Hu.
    destruct (has_encoding s); [reflexivity | discriminate]. }
  destruct (_ || _ || _) eqn:Eearly.
  - injection E as <- <- <-. unfold empty_result. rewrite Henc.
    exists []. split; [reflexivity |]. cbn. lia.
  - cbn [Z.eqb orb is_zero] in Eearly.
    apply orb_false_iff in Eearly as [Hz _]. apply Z.eqb_neq in Hz.
    pose proof (enter_mode_inv env blob s (-1) (Some n) HI Hu) as He.
    destruct (enter_mode env s (Some n)) as [[e sx] | s1] eqn:Em;
      [discriminate |].
    destruct He as (HI1 & Hro1 & Hm1).
    pose proof (enter_text_mode env s s1 n Em Hu) as Ht1.
    pose proof (inv_cursor _ _ _ HI1) as Hcur.
    unfold read_data in E. rewrite Ht1 in E.
    replace (n =? 0) with false in E by (symmetry; apply Z.eqb_neq; lia).
    rewrite same_kind_cslice in E.
    destruct (_current_content s1) as [b | t0] eqn:Hc; [discriminate |].
    cbn [same_kind negb clen cslice] in E, Hcur.
    set (length := Z.min (len t0 - _current_content_offset s1) n) in E.
    assert (Hread : len (py_slice t0 (_current_content_offset s1)
                           (_current_content_offset s1 + length)) = length)
      by (rewrite len_py_slice; subst length; lia).
    set (piece := py_slice t0 _ _) in *.
    rewrite andb_false_r in E.
    destruct ((n - len piece >? 0) && _) in E.
    + apply chunk_loop_text_count in E; [| exact Ht1 | subst length; lia].
      destruct E as (t & -> & Hd & Hr). cbn in Hd, Hr.
      exists t. split; [reflexivity |]. subst length. lia.
    + unfold finish_read in E.
      change (in_text_mode (consume s1 (len piece))) with (in_text_mode s1) in E.
      rewrite Ht1 in E. injection E as <- <- <-.
      exists piece. split; [reflexivity |]. cbn. subst length. lia.
Qed.

Lemma text_read_counts_code_points_witness :
  let env := plain_env ten_bytes None in
  exists s0 reqs0 v s' reqs,
    _setup env (text_config 4 1) = (inr s0, reqs0) /\
    let s := reads env s0 [(fifo, -1, Some 3)] in
    read env fifo s (-1) (Some 6) = Ret v s' reqs /\
    exists t,
      v = CStr t /\ len t <= 6 /\ _read_offset s' = _read_offset s + len t.
Proof.
  do 5 eexists. split; [reflexivity |].
  split; [vm_compute; reflexivity |].
  refine (text_read_counts_code_points (plain_env ten_bytes None) ten_bytes
            (text_config 4 1) _ _ [(fifo, -1, Some 3)] fifo 6 _ _ _
            (serve_faithful ten_bytes) (text_config_well_formed 4 1 _)
            eq_refl _ _).
  - lia.
  - lia.
  - vm_compute. reflexivity.
Defined.

Lemma clen_nonneg (c : Content) : 0 <= clen c.
Proof. destruct c; apply len_nonneg. Qed.

(** X10: a negative [chars] never fetches anything: [read(chars=c)] with
    [c < 0] issues no request and leaves [download_offset] where it was,
    whatever state the stream is in; at most a part of the buffer is
    returned. *)
Theorem negative_chars_never_downloads (env : Env) (orc : Oracle) (s : Stream)
    (size0 c : Z) :
  c < 0 ->
  outcome_requests (read env orc s size0 (Some c)) = [] /\
  _download_offset (outcome_state (read env orc s size0 (Some c))) =
    _download_offset s.
Proof.
  intros Hc. unfold read.
  destruct (usage_check s size0 (Some c)); [split; reflexivity |].
  destruct (_ || _ || _); [split; reflexivity |].
  assert (Hdl : match enter_mode env s (Some c) with
                | inl (_, s') => _download_offset s' = _download_offset s
                | inr s1 =>
                    _download_offset s1 = _download_offset s /\
                    in_text_mode s1 = true
                end).
  { unfold enter_mode. cbn [is_some].
    destruct (in_text_mode s) eqn:Ht; cbn [negb andb].
    - unfold in_text_mode in Ht.
      destruct (_text_mode s) as [[|] |] eqn:Em; try discriminate.
      split; [reflexivity |]. unfold in_text_mode. rewrite Em. reflexivity.
    - destruct (_encoding (config s)); [| reflexivity].
      destruct (_current_content s); [| reflexivity].
      destruct (decoder_decode _ _ _ _) as [[buffer text] |]; [| reflexivity].
      split; reflexivity. }
  destruct (enter_mode env s (Some c)) as [[e sx] | s1];
    [split; [reflexivity | exact Hdl] |].
  destruct Hdl as [Hdl Ht1].
  unfold read_data. rewrite Ht1.
  replace (c =? 0) with false by (symmetry; apply Z.eqb_neq; lia).
  set (length := Z.min _ c).
  set (piece := cslice _ _ _).
  pose proof (clen_nonneg piece) as Hp.
  destruct (negb (same_kind true piece)); [split; [reflexivity | exact Hdl] |].
  replace (c - clen piece >? 0) with false
    by (symmetry; rewrite Z.gtb_ltb; apply Z.ltb_ge; lia).
  cbn [andb]. rewrite finish_read_requests, finish_read_state.
  split; [reflexivity | exact Hdl].
Qed.

(** X11: a [read] that the buffer can satisfy is served from it alone: when
    the amount asked, bytes out of text mode and code points in it, is no
    more than what is left of the buffer, the call issues no request and
    downloads nothing, and the buffer itself stays as it is. *)
Theorem buffered_read_is_local (env : Env) (blob : list byte) (cfg : Config)
    (s0 : Stream) (reqs0 : list Request)
    (calls : list (Oracle * Z * option Z)) (orc : Oracle)
    (size0 : Z) (chars : option Z) (n : Z) :
  faithful env blob -> well_formed cfg ->
  _setup env cfg = (inr s0, reqs0) ->
  let s := reads env s0 calls in
  (if in_text_mode s then chars = Some n else chars = None /\ size0 = n) ->
  0 < n <= clen (_current_content s) - _current_content_offset s ->
  let o := read env orc s size0 chars in
  outcome_requests o = [] /\
  _download_offset (outcome_state o) = _download_offset s /\
  _current_content (outcome_state o) = _current_content s.
Proof.
  intros F Hcfg Hsetup s Hask Hn o. subst o.
  destruct (setup_inv env blob cfg s0 reqs0 F Hcfg Hsetup) as (HI0 & _).
  destruct (reads_inv env blob F calls s0 HI0) as [HI _]. fold s in HI.
  pose proof (inv_cursor _ _ _ HI) as Hcur.
  clearbody s. unfold read.
  destruct (usage_check s size0 chars); [repeat split |].
  destruct (_ || _ || _); [repeat split |].
  assert (He : exists s1,
             enter_mode env s chars = inr s1 /\
             in_text_mode s1 = in_text_mode s /\
             _current_content s1 = _current_content s /\
             _current_content_offset s1 = _current_content_offset s /\
             _download_offset s1 = _download_offset s).
  { unfold enter_mode. destruct (in_text_mode s) eqn:Ht.
    - cbn [negb andb]. unfold in_text_mode in Ht.
      destruct (_text_mode s) as [[|] |] eqn:Em; try discriminate.
      exists s. split; [reflexivity |]. repeat split.
      unfold in_text_mode. rewrite Em. reflexivity.
    - destruct Hask as [-> _]. cbn [is_some andb]. rewrite andb_false_r.
      unfold in_text_mode in Ht.
      destruct (_text_mode s) as [[|] |] eqn:Em; try discriminate;
        eexists; (split; [reflexivity |]); repeat split.
      unfold in_text_mode. rewrite Em. reflexivity. }
  destruct He as (s1 & -> & Ht1 & Hc1 & Hcco1 & Hdl1).
  unfold read_data. rewrite Hc1, Hcco1.
  assert (Hsize : (if in_text_mode s1
                   then match chars with
                        | Some c => if c =? 0 then maxsize else c
                        | None => maxsize
                        end
                   else if size0 >? 0 then size0 else maxsize) = n).
  { rewrite Ht1. destruct (in_text_mode s).
    - subst chars. replace (n =? 0) with false
        by (symmetry; apply Z.eqb_neq; lia). reflexivity.
    - destruct Hask as [_ ->].
      replace (n >? 0) with true by (symmetry; apply Z.gtb_lt; lia).
      reflexivity. }
  rewrite Hsize.
  replace (Z.min (clen (_current_content s) - _current_content_offset s) n)
    with n by lia.
  rewrite (clen_cslice (_current_content s) (_current_content_offset s) n)
    by lia.
  destruct (negb (same_kind _ _)); [cbn; repeat split; assumption |].
  rewrite Z.sub_diag. cbn [Z.gtb Z.compare andb].
  rewrite finish_read_requests, finish_read_state.
  split; [reflexivity |]. split; [exact Hdl1 | exact Hc1].
Qed.

Lemma buffered_read_is_local_witness :
  let env := plain_env ten_bytes None in
  exists s0 reqs0,
    _setup env (default_config 4 1) = (inr s0, reqs0) /\
    let s := reads env s0 [(fifo, 5, None)] in
    let o := read env fifo s 2 None in
    outcome_requests o = [] /\
    _download_offset (outcome_state o) = _download_offset s /\
    _current_content (outcome_state o) = _current_content s.
Proof.
  eexists; eexists. split; [reflexivity |].
  refine (buffered_read_is_local (plain_env ten_bytes None) ten_bytes
            (default_config 4 1) _ _ [(fifo, 5, None)] fifo 2 None 2
            (serve_faithful ten_bytes) (default_config_well_formed 4 1 _)
            eq_refl _ _).
  - lia.
  - vm_compute. split; reflexivity.
  - vm_compute. split; [reflexivity | discriminate].
Defined.

Lemma negative_chars_never_downloads_witness :
  let s := stream_of (text_config 4 1) (bytes_of [1; 2; 3; 4]) 10 in
  let o := read (plain_env ten_bytes None) fifo s (-1) (Some (-1)) in
  outcome_requests o = [] /\
  _download_offset (outcome_state o) = _download_offset s.
Proof.
  apply (negative_chars_never_downloads (plain_env ten_bytes None) fifo
           (stream_of (text_config 4 1) (bytes_of [1; 2; 3; 4]) 10) (-1) (-1)).
  lia.
Defined.

(** ** The sizes of the chunks of [chunks()] *)

Lemma full_but_last_cons (n : Z) (c : list byte) (rest : list (list byte)) :
  len c = n -> full_but_last n rest = true ->
  full_but_last n (c :: rest) = true.
Proof.
  intros Hc Hr. cbn [full_but_last]. rewrite Hr, andb_true_r.
  destruct rest; [apply Z.leb_le | apply Z.eqb_eq]; lia.
Qed.

Lemma iterate_step (fuel : nat) (env : Env) (it : ChunkIterator)
    (chunks : list (list byte)) (reqs : list Request) :
  iterate (S fuel) env it = Exhausted chunks reqs ->
  match __anext__ env it with
  | StopAsyncIteration _ => chunks = []
  | NextRaise _ _ _ => False
  | Yield chunk it' r =>
      exists cs rs, iterate fuel env it' = Exhausted cs rs /\ chunks = chunk :: cs
  end.
Proof.
  cbn [iterate]. destruct (__anext__ env it) as [it' | chunk it' r | e it' r].
  - intros E. injection E as <- _. reflexivity.
  - destruct (iterate fuel env it') as [cs rs | e cs rs |]; try discriminate.
    intros E. injection E as <- _. eauto.
  - discriminate.
Qed.

Lemma iterate_sizes_buffer (env : Env) :
  forall fuel it chunks reqs,
    it_downloader it = None -> 0 <= it_chunk_size it ->
    iterate fuel env it = Exhausted chunks reqs ->
    full_but_last (it_chunk_size it) chunks = true.
Proof.
  induction fuel as [| fuel IH]; intros it chunks reqs Hd Hcs E;
    [discriminate |].
  apply iterate_step in E. unfold __anext__ in E.
  destruct (it_complete it); [subst; reflexivity |].
  rewrite Hd in E.
  destruct (len (it_current_content it) >? it_chunk_size it) eqn:El.
  - apply Z.gtb_lt in El. cbn in E. destruct E as (cs & rs & E & ->).
    apply IH in E; [| exact Hd | exact Hcs]. cbn in E.
    apply full_but_last_cons; [| exact E].
    rewrite len_py_slice_to by lia. lia.
  - rewrite Z.gtb_ltb in El. apply Z.ltb_ge in El.
    destruct E as (cs & rs & E & ->).
    destruct fuel as [| fuel]; [discriminate |].
    rewrite iterate_complete in E by reflexivity. injection E as <- _.
    cbn. rewrite andb_true_r. apply Z.leb_le. exact El.
Qed.

Section ChunkSizes.

Variables (env : Env) (blob : list byte) (d : Downloader).
Hypothesis F : faithful env blob.
Hypothesis R : reliable env blob.
Hypothesis Hcs : 0 < chunk_size d.
Hypothesis Hstart : 0 <= start_index d.
Hypothesis Hend : end_index d <= len blob.
Hypothesis Hranges :
  forall ranges, dl_non_empty_ranges d = Some ranges ->
                 get_page_ranges env = Some ranges.

Lemma iterate_last (fuel : nat) (it : ChunkIterator)
    (chunks : list (list byte)) (reqs : list Request) :
  it_downloader it = Some d -> it_chunk_size it = chunk_size d ->
  it_iter_chunks it = Some [] -> it_current_content it = [] ->
  iterate fuel env it = Exhausted chunks reqs -> chunks = [].
Proof.
  intros Hd Hsz Hp Hc E. destruct fuel as [| fuel]; [discriminate |].
  apply iterate_step in E. unfold __anext__ in E.
  destruct (it_complete it); [exact E |].
  rewrite Hd, Hp in E. cbn [it_update it_current_content it_chunk_size] in E.
  rewrite Hc, Hsz in E.
  replace (len [] >=? chunk_size d) with false in E
    by (symmetry; rewrite Z.geb_leb; apply Z.leb_gt; cbn; lia).
  exact E.
Qed.

Lemma iterate_sizes_download :
  forall fuel it n y chunks reqs,
    it_downloader it = Some d -> it_chunk_size it = chunk_size d ->
    (it_complete it = false ->
     match it_iter_chunks it with
     | None => get_chunk_offsets d
     | Some l => l
     end = offsets_from n y (chunk_size d) /\
     start_index d <= y /\
     forall n', n = S n' -> y + Z.of_nat n' * chunk_size d < end_index d) ->
    iterate fuel env it = Exhausted chunks reqs ->
    full_but_last (chunk_size d) chunks = true.
Proof.
  induction fuel as [| fuel IH]; intros it n y chunks reqs Hd Hsz Hinv E;
    [discriminate |].
  apply iterate_step in E. unfold __anext__ in E.
  destruct (it_complete it); [subst; reflexivity |].
  destruct (Hinv eq_refl) as (Hplan & Hy & Hn). clear Hinv.
  rewrite Hd, Hplan in E.
  cbn [it_update it_current_content it_chunk_size] in E. rewrite Hsz in E.
  pose proof (len_nonneg (it_current_content it)) as Hl0.
  destruct (len (it_current_content it) >=? chunk_size d) eqn:El.
  - apply Z.geb_le in El. cbn in E. destruct E as (cs & rs & E & ->).
    apply (IH _ n y) in E; [| exact Hd | exact Hsz |].
    + apply full_but_last_cons; [| exact E].
      rewrite len_py_slice_to by lia. lia.
    + intros _. cbn. split; [reflexivity |]. split; assumption.
  - rewrite Z.geb_leb in El. apply Z.leb_gt in El.
    destruct n as [| n]; cbn [offsets_from] in E.
    + cbn [it_update it_current_content] in E.
      destruct (it_current_content it) as [| h t] eqn:Ec;
        [subst; reflexivity |].
      destruct E as (cs & rs & E & ->).
      destruct fuel as [| fuel]; [discriminate |].
      rewrite iterate_complete in E by reflexivity. injection E as <- _.
      cbn [full_but_last]. rewrite andb_true_r. apply Z.leb_le. lia.
    + specialize (Hn n eq_refl) as Hyn.
      assert (Hmul : 0 <= Z.of_nat n * chunk_size d)
        by (apply Z.mul_nonneg_nonneg; lia).
      assert (Hyend : y < end_index d) by lia.
      destruct (yield_chunk_ok env blob d F R Hcs Hstart Hend Hranges y
                  ltac:(lia)) as (cl & r & Ey).
      rewrite Ey in E. cbn in E. destruct E as (cs & rs & E & ->).
      set (data := py_slice blob y (chunk_end d y)) in *.
      assert (Hdata : len data = chunk_end d y - y)
        by (subst data; rewrite len_py_slice; unfold chunk_end; lia).
      set (cur := (it_current_content it ++ data)%list) in *.
      assert (Hcur : len cur = len (it_current_content it) + len data)
        by (subst cur; apply len_app).
      destruct (Z.lt_ge_cases (len cur) (chunk_size d)) as [Hshort | Hfull].
      * (* only the last fetch can leave the buffer short *)
        assert (Hn0 : n = O).
        { destruct n as [| n']; [reflexivity |].
          unfold chunk_end in Hdata. exfalso. nia. }
        subst n. cbn [offsets_from] in E.
        apply iterate_last in E; try reflexivity; try exact Hsz; try exact Hd.
        2: { cbn [it_update it_current_content]. unfold py_slice_from.
             pose proof (len_nonneg cur).
             rewrite clamp_index_past by lia.
             unfold len. rewrite Nat2Z.id. apply skipn_all. }
        subst cs. cbn [full_but_last]. rewrite andb_true_r. apply Z.leb_le.
        rewrite len_py_slice_to by lia. lia.
      * apply (IH _ n (y + chunk_size d)) in E; [| exact Hd | exact Hsz |].
        -- apply full_but_last_cons; [| exact E].
           rewrite len_py_slice_to by lia. lia.
        -- intros _. cbn. split; [reflexivity |]. split; [lia |].
           intros n' ->. specialize (Hn _ eq_refl). nia.
Qed.

End ChunkSizes.

(** X12: the chunks that an iteration over [chunks()] yields have the
    configured chunk size: every chunk but the last is exactly
    [max_chunk_get_size] bytes long and the last is no longer, however the
    first request and the later ones were sized. *)
Theorem chunks_have_the_chunk_size (env : Env) (blob : list byte)
    (cfg : Config) (s0 : Stream) (reqs0 : list Request)
    (calls : list (Oracle * Z * option Z)) (it : ChunkIterator) (fuel : nat)
    (yielded : list (list byte)) (reqs : list Request) :
  faithful env blob -> reliable env blob -> well_formed cfg ->
  _setup env cfg = (inr s0, reqs0) ->
  let s := reads env s0 calls in
  chunks env s = inr it ->
  iterate fuel env it = Exhausted yielded reqs ->
  full_but_last (max_chunk_get_size cfg) yielded = true.
Proof.
  intros F R Hwf Hs s Hit E.
  destruct (setup_inv env blob cfg s0 reqs0 F Hwf Hs) as (HI0 & Hc0 & _).
  destruct (reads_inv env blob F calls s0 HI0) as [HI _]. fold s in HI.
  destruct (reads_same_session env calls s0) as (Hcs & _). fold s in Hcs.
  rewrite Hc0 in Hcs. clearbody s. clear HI0 Hs.
  pose proof (inv_window _ _ _ HI) as (Hds & Hs0 & Hfit).
  pose proof (inv_cfg _ _ _ HI) as (_ & Hchunk & _).
  rewrite <- Hcs.
  unfold chunks in Hit.
  destruct (in_text_mode s); [discriminate |].
  destruct (if _first_chunk s then _current_content s else CBytes [])
    as [b | t] eqn:Eb; [| discriminate].
  injection Hit as <-.
  destruct (negb (_first_chunk s) || negb (_download_complete env s)).
  - set (d := new_downloader s _ false 0) in E.
    apply (iterate_sizes_download env blob d F R Hchunk) with
      (n := chunk_count d) (y := start_index d) in E;
      try reflexivity; try (cbn; lia).
    + exact E.
    + cbn. pose proof (clen_nonneg (_current_content s)).
      destruct (_first_chunk s); lia.
    + cbn. apply (inv_ranges _ _ _ HI).
    + intros _. split; [reflexivity |]. split; [lia |].
      intros n' En. pose proof (chunk_count_bound d n' Hchunk En). lia.
  - apply iterate_sizes_buffer in E; [exact E | reflexivity | cbn; lia].
Qed.

Lemma chunks_have_the_chunk_size_witness :
  let env := plain_env ten_bytes None in
  exists s0 reqs0 it yielded reqs,
    _setup env (default_config 4 1) = (inr s0, reqs0) /\
    let s := reads env s0 [(fifo, 3, None)] in
    chunks env s = inr it /\
    iterate 10 env it = Exhausted yielded reqs /\
    full_but_last (max_chunk_get_size (default_config 4 1)) yielded = true.
Proof.
  do 5 eexists. split; [reflexivity |].
  split; [reflexivity |]. split; [vm_compute; reflexivity |].
  refine (chunks_have_the_chunk_size (plain_env ten_bytes None) ten_bytes
            (default_config 4 1) _ _ [(fifo, 3, None)] _ 10%nat _ _
            (serve_faithful ten_bytes) (serve_reliable ten_bytes)
            (default_config_well_formed 4 1 _) eq_refl eq_refl _).
  - lia.
  - vm_compute. reflexivity.
Defined.

(** ** What the initial request leaves *)

Lemma initial_range_exact (env : Env) (blob : list byte) (cfg : Config) :
  faithful env blob ->
  initial_range_and_offset env cfg =
    (let a := match _start_range cfg with Some s => s | None => 0 end in
     (a, match _end_range cfg with
         | Some e =>
             if e - a <? first_get_size cfg then e
             else a + first_get_size cfg - 1
         | None => a + first_get_size cfg - 1
         end),
     (0, 0)).
Proof.
  intros F. unfold initial_range_and_offset, process_range_and_offset.
  rewrite (fs_plain _ _ F). reflexivity.
Qed.

Lemma first_get_size_pos (cfg : Config) : well_formed cfg -> 0 < first_get_size cfg.
Proof.
  intros (H1 & H2 & _). unfold first_get_size. destruct (negb _); assumption.
Qed.

(** What [_setup] leaves: the window inside the blob and its head in the
    buffer. *)
Lemma setup_head (env : Env) (blob : list byte) (cfg : Config)
    (s : Stream) (reqs : list Request) :
  faithful env blob -> well_formed cfg ->
  _setup env cfg = (inr s, reqs) ->
  0 <= size s /\ _download_start s + size s <= len blob /\
  _file_size s = len blob /\
  _download_offset s = Z.min (size s) (first_get_size cfg) /\
  _current_content s =
    CBytes (window blob s 0 (Z.min (size s) (first_get_size cfg))) /\
  _read_offset s = 0 /\ _current_content_offset s = 0.
Proof.
  intros F Hwf E.
  destruct (setup_inv env blob cfg s reqs F Hwf E) as (HI & _ & Hm & Hfc & _).
  pose proof (inv_window _ _ _ HI) as (Hds & Hs0 & Hfit).
  pose proof (inv_unset _ _ _ HI Hm) as [Hcco Hro].
  pose proof (inv_mode _ _ _ HI) as Hmode.
  unfold mode_inv, in_text_mode in Hmode. rewrite Hm in Hmode.
  destruct Hmode as (b0 & Hc & _ & _ & Hfirst).
  destruct (Hfirst Hfc) as [Hb0 _].
  pose proof (first_get_size_pos cfg Hwf) as Hf.
  assert (Hdl : _file_size s = len blob /\
                _download_offset s = Z.min (size s) (first_get_size cfg)).
  { clear Hb0 Hfirst Hc. revert E. unfold _setup.
    rewrite (initial_range_exact env blob cfg F). cbn zeta.
    destruct (initial_range_plain env blob cfg F Hwf)
      as (a & b & Eab & Ha & Hab & Hend).
    rewrite (initial_range_exact env blob cfg F) in Eab. cbn zeta in Eab.
    injection Eab as Ea Eb. rewrite Eb, Ea.
    unfold _initial_request, initial_download.
    rewrite (fs_plain _ _ F). cbn [app].
    destruct (blob_download env (Some (a, b))) as [r | status hr] eqn:Ed.
    - destruct (fs_range _ _ F a b r Hab Ed) as (Halen & Hbody & Hlen & ->).
      rewrite (fs_size _ _ F).
      pose proof (py_slice_clip blob a (b + 1) ltac:(lia) ltac:(lia))
        as [_ Hl].
      rewrite <- Hbody in Hl.
      unfold process_content. rewrite (fs_plain _ _ F).
      destruct (_end_range cfg) as [e |] eqn:Ee,
               (_start_range cfg) as [st |] eqn:Es;
        cbn [in_size in_response in_file_size]; try discriminate.
      + subst a. specialize (Hend e eq_refl).
        replace (Z.min (len blob - st) (e - st + 1) =? 0) with false
          by (symmetry; apply Z.eqb_neq; lia).
        intros E. destruct (is_page_blob r); injection E as <- <-; cbn;
          (split; [reflexivity |]);
          destruct (e - st <? first_get_size cfg) eqn:El;
          try apply Z.ltb_lt in El; try apply Z.ltb_ge in El; lia.
      + subst a.
        replace (len blob - st =? 0) with false
          by (symmetry; apply Z.eqb_neq; lia).
        intros E. destruct (is_page_blob r); injection E as <- <-; cbn;
          (split; [reflexivity | lia]).
      + subst a.
        replace (len blob =? 0) with false
          by (symmetry; apply Z.eqb_neq; lia).
        intros E. destruct (is_page_blob r); injection E as <- <-; cbn;
          (split; [reflexivity | lia]).
    - destruct (negb (is_some (_start_range cfg)) && hr && (status =? 416))
        eqn:E416; [| discriminate].
      apply andb_true_iff in E416 as [E1 E3].
      apply andb_true_iff in E1 as [E1 E2].
      apply Z.eqb_eq in E3. subst status.
      destruct (_start_range cfg) as [st |] eqn:Es; [discriminate |]. subst a.
      pose proof (fs_416 _ _ F 0 b hr Hab Ed) as Hempty.
      pose proof (len_nonneg blob).
      destruct (blob_download env None) as [r | status' hr'] eqn:Ew;
        [| discriminate].
      cbn [in_size in_response in_file_size]. change (0 =? 0) with true.
      cbn iota. intros E.
      destruct (is_page_blob r); injection E as <- <-; cbn; split; lia. }
  destruct Hdl as [Hfs Hdl]. rewrite <- Hdl.
  split; [exact Hs0 |]. split; [exact Hfit |]. split; [exact Hfs |].
  split; [reflexivity |]. split; [rewrite Hc, Hb0; reflexivity |].
  split; assumption.
Qed.

(** X13: a stream that [_setup] returns holds the head of its window: the
    window lies inside the blob, and the buffer is its first
    [min(size, first_get_size)] bytes, all of them downloaded and none of
    them read. *)
Theorem setup_buffers_the_head (env : Env) (blob : list byte) (cfg : Config)
    (s : Stream) (reqs : list Request) :
  faithful env blob -> well_formed cfg ->
  _setup env cfg = (inr s, reqs) ->
  0 <= size s /\ _download_start s + size s <= len blob /\
  _file_size s = len blob /\
  _download_offset s = Z.min (size s) (first_get_size cfg) /\
  _current_content s =
    CBytes (window blob s 0 (Z.min (size s) (first_get_size cfg))) /\
  _read_offset s = 0 /\ _current_content_offset s = 0.
Proof. apply setup_head. Qed.

Lemma setup_buffers_the_head_witness :
  let env := plain_env ten_bytes None in
  let cfg := ranged_config 2 20 3 in
  exists s reqs,
    _setup env cfg = (inr s, reqs) /\
    0 <= size s /\ _download_start s + size s <= len ten_bytes /\
    _file_size s = len ten_bytes /\
    _download_offset s = Z.min (size s) (first_get_size cfg) /\
    _current_content s =
      CBytes (window ten_bytes s 0 (Z.min (size s) (first_get_size cfg))) /\
    _read_offset s = 0 /\ _current_content_offset s = 0.
Proof.
  eexists; eexists. split; [reflexivity |].
  refine (setup_buffers_the_head (plain_env ten_bytes None) ten_bytes
            (ranged_config 2 20 3) _ _ (serve_faithful ten_bytes) _ eq_refl).
  split; [reflexivity |]. split; [reflexivity |]. split; [cbn; lia | exact I].
Defined.

(** ** The requests of a call *)

Section Requests.

Variables (env : Env) (d : Downloader).
Hypothesis Hplain : encryption_active env = false.
Hypothesis Hcs : 0 < chunk_size d.

Lemma download_chunk_requests (c : Z) :
  start_index d <= c < end_index d ->
  forallb (chunk_request d)
    (fetch_requests (_download_chunk env d c (chunk_end d c - 1))) = true.
Proof.
  intros Hc. unfold _download_chunk, process_range_and_offset, process_content.
  rewrite Hplain. cbn [fst snd].
  destruct (_do_optimize d c (chunk_end d c - 1)); [reflexivity |].
  assert (Hok : chunk_request d (ReqDownload (Some (c, chunk_end d c - 1))) = true).
  { unfold chunk_request, ranged_within, chunk_end.
    rewrite !andb_true_iff, !Z.leb_le, !Z.ltb_lt. lia. }
  destruct (blob_download env _); cbn [fetch_requests forallb];
    rewrite Hok; reflexivity.
Qed.

Lemma yield_chunk_requests (c : Z) :
  start_index d <= c < end_index d ->
  forallb (chunk_request d) (fetch_requests (yield_chunk env d c)) = true.
Proof.
  intros Hc. unfold yield_chunk. rewrite calculate_range_min.
  apply download_chunk_requests. exact Hc.
Qed.

Lemma process_chunk_requests_ok (k : Sink) (c : Z) :
  start_index d <= c < end_index d ->
  forallb (chunk_request d) (snd (process_chunk env d k c)) = true.
Proof.
  intros Hc. pose proof (download_chunk_requests c Hc) as H.
  unfold process_chunk. rewrite calculate_range_min.
  fold (chunk_end d c).
  destruct (_download_chunk env d c (chunk_end d c - 1)); cbn [fetch_requests] in H.
  - destruct (_ >? 0); exact H.
  - exact H.
Qed.

Lemma chunk_loop_requests :
  forall chunks_iter s out remaining reqs,
    Forall (fun c => start_index d <= c < end_index d) chunks_iter ->
    forallb (chunk_request d) reqs = true ->
    forallb (chunk_request d)
      (outcome_requests (chunk_loop env d chunks_iter s out remaining reqs))
      = true.
Proof.
  induction chunks_iter as [| c rest IH]; intros s out remaining reqs Hin Hr;
    cbn [chunk_loop].
  - rewrite finish_read_requests. exact Hr.
  - destruct (remaining >? 0); [| rewrite finish_read_requests; exact Hr].
    inversion Hin as [| ? ? Hc Hrest]; subst.
    pose proof (yield_chunk_requests c Hc) as Hy.
    destruct (yield_chunk env d c) as [data cl r | e r]; cbn [fetch_requests] in Hy.
    2: { cbn. rewrite forallb_app, Hr, Hy. reflexivity. }
    assert (Hrr : forallb (chunk_request d) (reqs ++ r) = true)
      by (rewrite forallb_app, Hr, Hy; reflexivity).
    destruct (in_text_mode (downloaded s (len data) cl)).
    + destruct (_encoding _); [| exact Hrr].
      destruct (_decoder _); [| exact Hrr].
      destruct (decoder_decode _ _ _ _) as [[buffer' text] |]; [| exact Hrr].
      apply IH; assumption.
    + apply IH; assumption.
Qed.

Lemma run_events_requests_ok :
  forall evs k,
    Forall (fun c => start_index d <= c < end_index d) (dispatched evs) ->
    forallb (chunk_request d) (snd (run_events env d evs k)) = true.
Proof.
  induction evs as [| [c | c] evs IH]; intros k Hin; cbn [run_events].
  - reflexivity.
  - unfold dispatched in Hin. cbn [flat_map app] in Hin.
    inversion Hin as [| ? ? Hc Hrest]; subst.
    pose proof (process_chunk_requests_ok k c Hc) as Hp.
    destruct (process_chunk env d k c) as [[r0 k0] reqs].
    specialize (IH k Hrest).
    destruct (run_events env d evs k) as [[r k'] reqs']. cbn [snd] in *.
    rewrite forallb_app, Hp, IH. reflexivity.
  - unfold dispatched in Hin. cbn [flat_map app] in Hin.
    destruct (process_chunk env d k c) as [[[e |] k0] reqs]; [reflexivity |].
    apply IH. exact Hin.
Qed.

Lemma schedule_dispatches_plan (orc : Oracle) (max_concurrency : Z) :
  Forall (fun c => start_index d <= c < end_index d)
    (dispatched (schedule orc max_concurrency (get_chunk_offsets d))).
Proof.
  destruct (Z.le_gt_cases 1 max_concurrency) as [H | H].
  - destruct (schedule_spec orc max_concurrency (get_chunk_offsets d) H)
      as (-> & _).
    apply Forall_forall. intros c Hc. apply plan_range; assumption.
  - replace (schedule orc max_concurrency (get_chunk_offsets d)) with (@nil Event);
      [constructor |].
    unfold schedule. replace (Z.to_nat max_concurrency) with 0%nat by lia.
    reflexivity.
Qed.

Lemma plan_in_range :
  Forall (fun c => start_index d <= c < end_index d) (get_chunk_offsets d).
Proof. apply Forall_forall. intros c Hc. apply plan_range; assumption. Qed.

End Requests.

Lemma enter_mode_download_offset (env : Env) (s : Stream) (chars : option Z) :
  match enter_mode env s chars with
  | inl (_, s') => _download_offset s' = _download_offset s
  | inr s1 => _download_offset s1 = _download_offset s
  end.
Proof.
  unfold enter_mode. destruct (negb (in_text_mode s) && is_some chars).
  - destruct (_encoding (config s)); [| reflexivity].
    destruct (_current_content s); [| reflexivity].
    destruct (decoder_decode _ _ _ _) as [[buffer text] |]; reflexivity.
  - destruct (_text_mode s); reflexivity.
Qed.

Lemma read_data_requests (env : Env) (orc : Oracle) (s : Stream) (size0 : Z)
    (chars : option Z) :
  encryption_active env = false -> 0 < max_chunk_get_size (config s) ->
  forallb (fetches_new_chunk s)
    (outcome_requests (read_data env orc s size0 chars)) = true.
Proof.
  intros Hplain Hcs. unfold read_data.
  set (piece := cslice _ _ _).
  destruct (negb (same_kind _ piece)); [reflexivity |].
  set (s1 := consume s (clen piece)).
  destruct ((_ >? 0) && negb (_download_complete env s1));
    [| rewrite finish_read_requests; reflexivity].
  set (d := new_downloader s1 _ _ _).
  change (fetches_new_chunk s)
    with (ranged_within (start_index d) (end_index d) (chunk_size d)).
  destruct (_ && negb (in_text_mode s)).
  - destruct (_ || _); [reflexivity |].
    pose proof (run_events_requests_ok env d Hplain Hcs
                  (schedule orc (_max_concurrency (config s)) (get_chunk_offsets d))
                  {| sk_data := match piece with CBytes b => b | CStr _ => [] end;
                     sk_pos := clen piece; sk_seekable := true |}
                  (schedule_dispatches_plan d Hcs orc _)) as H.
    change (config (set_first_chunk s1 false)) with (config s).
    destruct (run_events env d _ _) as [[[e |] k'] reqs]; cbn [snd] in H.
    + exact H.
    + rewrite finish_read_requests. exact H.
  - apply chunk_loop_requests; try assumption; [| reflexivity].
    apply plan_in_range. exact Hcs.
Qed.

(** X14: after the initial request, every request of a [read] or a
    [readinto] is a ranged download of bytes of the window that were not
    downloaded before, at most [max_chunk_get_size] of them: nothing is
    asked outside the window, nothing twice, and no other kind of request
    is made, whether the call returns or raises. *)
Theorem calls_fetch_only_new_chunks (env : Env) (blob : list byte)
    (cfg : Config) (s0 : Stream) (reqs0 : list Request)
    (calls : list (Oracle * Z * option Z)) (orc : Oracle) (c : Call) :
  faithful env blob -> well_formed cfg ->
  _setup env cfg = (inr s0, reqs0) ->
  let s := reads env s0 calls in
  forallb (fetches_new_chunk s) (call_requests (call env orc s c)) = true.
Proof.
  intros F Hwf Hs s.
  destruct (setup_inv env blob cfg s0 reqs0 F Hwf Hs) as (HI0 & _).
  destruct (reads_inv env blob F calls s0 HI0) as [HI _]. fold s in HI.
  clearbody s. clear HI0 Hs.
  pose proof (inv_cfg _ _ _ HI) as (_ & Hchunk & _).
  pose proof (fs_plain _ _ F) as Hplain.
  destruct c as [size0 chars | k]; cbn [call call_requests].
  - unfold read.
    destruct (usage_check s size0 chars) eqn:Hu; [reflexivity |].
    destruct (_ || _ || _); [reflexivity |].
    pose proof (enter_mode_frame env s size0 chars Hu) as Hf.
    pose proof (enter_mode_download_offset env s chars) as Hd.
    destruct (enter_mode env s chars) as [[e s'] | s1]; [reflexivity |].
    destruct Hf as [(Hcf & Hsz & _ & _ & Hst) _].
    replace (fetches_new_chunk s) with (fetches_new_chunk s1)
      by (unfold fetches_new_chunk; rewrite Hcf, Hsz, Hst, Hd; reflexivity).
    apply read_data_requests; [exact Hplain | rewrite Hcf; exact Hchunk].
  - unfold readinto.
    destruct (in_text_mode s) eqn:Ht; [reflexivity |].
    destruct (_ && negb (sk_seekable k)); [reflexivity |].
    destruct (_ <=? 0); [reflexivity |].
    destruct (buffer_tail env blob s HI Ht) as (b & Hc & Hcur & Hpiece & Hlen & Hb).
    rewrite Hc. cbn [clen cslice].
    replace (_current_content_offset s + (len b - _current_content_offset s))
      with (len b) by lia.
    rewrite Hpiece.
    set (pb := window blob s (_read_offset s) (_download_offset s)) in *.
    set (s1 := consume s (len pb)).
    destruct (_download_complete env s1); [reflexivity |].
    destruct (_ || _); [reflexivity |].
    set (d := new_downloader s1 _ _ _).
    assert (Hstart : start_index d = _download_start s + _download_offset s)
      by (cbn; lia).
    replace (fetches_new_chunk s)
      with (ranged_within (start_index d) (end_index d) (chunk_size d))
      by (rewrite Hstart; reflexivity).
    pose proof (run_events_requests_ok env d Hplain Hchunk
                  (schedule orc (_max_concurrency (config s1)) (get_chunk_offsets d))
                  (sink_write k pb)
                  (schedule_dispatches_plan d Hchunk orc _)) as H.
    destruct (run_events env d _ _) as [[[e |] k'] reqs]; exact H.
Qed.

Lemma calls_fetch_only_new_chunks_witness :
  let env := plain_env ten_bytes None in
  exists s0 reqs0,
    _setup env (default_config 3 2) = (inr s0, reqs0) /\
    let s := reads env s0 [(fifo, 4, None)] in
    forallb (fetches_new_chunk s)
      (call_requests (call env out_of_order s (CallReadinto (new_sink true))))
      = true.
Proof.
  eexists; eexists. split; [reflexivity |].
  refine (calls_fetch_only_new_chunks (plain_env ten_bytes None) ten_bytes
            (default_config 3 2) _ _ [(fifo, 4, None)] out_of_order
            (CallReadinto (new_sink true))
            (serve_faithful ten_bytes) (default_config_well_formed 3 2 _)
            eq_refl).
  lia.
Defined.

(** ** The deprecated wrappers *)

Lemma inv_with_config (env : Env) (blob : list byte) (s : Stream)
    (cfg : Config) :
  Inv env blob s -> in_text_mode s = false -> well_formed cfg ->
  Inv env blob (with_config s cfg).
Proof.
  intros [Hcfg Hwin Hcur Hro Hdl Hraw Hrng Hunset Hmode] Ht Hwf.
  constructor; try assumption.
  unfold mode_inv in *.
  change (in_text_mode (with_config s cfg)) with (in_text_mode s).
  rewrite Ht in *. exact Hmode.
Qed.

Lemma well_formed_set_max_concurrency (s : Stream) (n : Z) :
  well_formed (config s) -> well_formed (config (set_max_concurrency s n)).
Proof. intros H. exact H. Qed.

Lemma well_formed_set_encoding (s : Stream) (c : Codec) :
  well_formed (config s) -> shrinking c ->
  well_formed (config (set_encoding s c)).
Proof.
  intros (H1 & H2 & H3 & _) Hc. split; [exact H1 |]. split; [exact H2 |].
  split; [exact H3 | exact Hc].
Qed.

(** X15: out of text mode [content_as_bytes(max_concurrency)] is [readall]
    under the concurrency it is given, whatever was configured before: it
    returns all that is left of the window and completes the stream, and
    the new concurrency stays in force.  With an encoding configured what
    it returns is the decoded text, not bytes. *)
Theorem content_as_bytes_reads_all (env : Env) (blob : list byte)
    (cfg : Config) (s0 : Stream) (reqs0 : list Request)
    (calls : list (Oracle * Z * option Z)) (orc : Oracle)
    (max_concurrency : Z) :
  faithful env blob -> reliable env blob -> well_formed cfg ->
  len blob < maxsize -> 1 <= max_concurrency <= maxsize ->
  _setup env cfg = (inr s0, reqs0) ->
  let s := reads env s0 calls in
  in_text_mode s = false ->
  exists s' reqs,
    content_as_bytes env orc s max_concurrency =
      outcome_of
        (delivered cfg (window blob s (_read_offset s) (size s))) s' reqs /\
    _download_complete env s' = true /\ _read_offset s' = size s /\
    _max_concurrency (config s') = max_concurrency.
Proof.
  intros F R Hwf Hblob Hmc Hs s Ht.
  destruct (setup_inv env blob cfg s0 reqs0 F Hwf Hs) as (HI0 & Hc0 & _).
  destruct (reads_inv env blob F calls s0 HI0) as [HI _]. fold s in HI.
  destruct (reads_same_session env calls s0) as (Hcs & _). fold s in Hcs.
  rewrite Hc0 in Hcs. clearbody s.
  unfold content_as_bytes, readall. rewrite Ht.
  set (s1 := set_max_concurrency s max_concurrency).
  assert (HI1 : Inv env blob s1).
  { apply inv_with_config; [exact HI | exact Ht |].
    apply (well_formed_set_max_concurrency s). exact (inv_cfg _ _ _ HI). }
  destruct (read_all env blob orc s1 (-1) F R HI1 Ht ltac:(lia) Hmc Hblob)
    as (s' & reqs & E & Hcomp & Hro).
  exists s', reqs. split; [| split; [exact Hcomp | split; [exact Hro |]]].
  - rewrite E. unfold delivered. cbn [config s1 set_max_concurrency with_config
      _encoding]. rewrite Hcs. reflexivity.
  - destruct (call_frame env orc s1 (CallRead (-1) None)) as [(Hcf & _) _].
    cbn [call call_state] in Hcf. rewrite E in Hcf.
    assert (Hs' : outcome_state
                    (outcome_of (delivered (config s1)
                       (window blob s1 (_read_offset s1) (size s1))) s' reqs) = s')
      by (destruct (delivered _ _); reflexivity).
    rewrite Hs' in Hcf. rewrite Hcf. reflexivity.
Qed.

Lemma content_as_bytes_reads_all_witness :
  let env := plain_env ten_bytes None in
  exists s0 reqs0,
    _setup env (text_config 4 0) = (inr s0, reqs0) /\
    let s := reads env s0 [(fifo, 3, None)] in
    exists s' reqs,
      content_as_bytes env out_of_order s 3 =
        outcome_of
          (delivered (text_config 4 0)
             (window ten_bytes s (_read_offset s) (size s))) s' reqs /\
      _download_complete env s' = true /\ _read_offset s' = size s /\
      _max_concurrency (config s') = 3.
Proof.
  eexists; eexists. split; [reflexivity |].
  refine (content_as_bytes_reads_all (plain_env ten_bytes None) ten_bytes
            (text_config 4 0) _ _ [(fifo, 3, None)] out_of_order 3
            (serve_faithful ten_bytes) (serve_reliable ten_bytes)
            (text_config_well_formed 4 0 _) _ _ eq_refl eq_refl).
  - lia.
  - reflexivity.
  - vm_compute. split; discriminate.
Defined.

(** X16: out of text mode [content_as_text(max_concurrency, encoding)]
    returns all that is left of the window decoded with the encoding it is
    given, whatever encoding and concurrency were configured, raising if
    the bytes do not decode; the stream is complete afterwards and keeps
    the new encoding. *)
Theorem content_as_text_decodes_the_rest (env : Env) (blob : list byte)
    (cfg : Config) (s0 : Stream) (reqs0 : list Request)
    (calls : list (Oracle * Z * option Z)) (orc : Oracle)
    (max_concurrency : Z) (encoding : Codec) :
  faithful env blob -> reliable env blob -> well_formed cfg ->
  shrinking encoding ->
  len blob < maxsize -> 1 <= max_concurrency <= maxsize ->
  _setup env cfg = (inr s0, reqs0) ->
  let s := reads env s0 calls in
  in_text_mode s = false ->
  let rest := window blob s (_read_offset s) (size s) in
  exists s' reqs,
    content_as_text env orc s max_concurrency encoding =
      match rest with
      | [] => Ret (CStr []) s' reqs
      | _ :: _ =>
          match bytes_decode encoding rest with
          | Some t => Ret (CStr t) s' reqs
          | None => Raise UnicodeDecodeError s' reqs
          end
      end /\
    _download_complete env s' = true /\ _read_offset s' = size s /\
    has_encoding s' = true.
Proof.
  intros F R Hwf Henc Hblob Hmc Hs s Ht rest.
  destruct (setup_inv env blob cfg s0 reqs0 F Hwf Hs) as (HI0 & Hc0 & _).
  destruct (reads_inv env blob F calls s0 HI0) as [HI _]. fold s in HI.
  subst rest. clearbody s.
  unfold content_as_text, readall. rewrite Ht.
  set (s1 := set_encoding (set_max_concurrency s max_concurrency) encoding).
  assert (HI1 : Inv env blob s1).
  { apply inv_with_config.
    - apply inv_with_config; [exact HI | exact Ht |].
      apply (well_formed_set_max_concurrency s). exact (inv_cfg _ _ _ HI).
    - exact Ht.
    - apply (well_formed_set_encoding (set_max_concurrency s max_concurrency));
        [| exact Henc].
      apply (well_formed_set_max_concurrency s). exact (inv_cfg _ _ _ HI). }
  destruct (read_all env blob orc s1 (-1) F R HI1 Ht ltac:(lia) Hmc Hblob)
    as (s' & reqs & E & Hcomp & Hro).
  exists s', reqs. split; [| split; [exact Hcomp | split; [exact Hro |]]].
  - rewrite E. unfold delivered.
    change (_encoding (config s1)) with (Some encoding).
    change (window blob s1 (_read_offset s1) (size s1))
      with (window blob s (_read_offset s) (size s)).
    destruct (window blob s (_read_offset s) (size s)); [reflexivity |].
    destruct (bytes_decode encoding _); reflexivity.
  - destruct (call_frame env orc s1 (CallRead (-1) None)) as [(Hcf & _) _].
    cbn [call call_state] in Hcf. rewrite E in Hcf.
    assert (Hs' : outcome_state
                    (outcome_of (delivered (config s1)
                       (window blob s1 (_read_offset s1) (size s1))) s' reqs) = s')
      by (destruct (delivered _ _); reflexivity).
    rewrite Hs' in Hcf. unfold has_encoding. rewrite Hcf. reflexivity.
Qed.

Lemma content_as_text_decodes_the_rest_witness :
  let env := plain_env ten_bytes None in
  exists s0 reqs0,
    _setup env (default_config 4 0) = (inr s0, reqs0) /\
    let s := reads env s0 [(fifo, 3, None)] in
    let rest := window ten_bytes s (_read_offset s) (size s) in
    exists s' reqs,
      content_as_text env fifo s 2 latin1 =
        match rest with
        | [] => Ret (CStr []) s' reqs
        | _ :: _ =>
            match bytes_decode latin1 rest with
            | Some t => Ret (CStr t) s' reqs
            | None => Raise UnicodeDecodeError s' reqs
            end
        end /\
      _download_complete env s' = true /\ _read_offset s' = size s /\
      has_encoding s' = true.
Proof.
  eexists; eexists. split; [reflexivity |].
  refine (content_as_text_decodes_the_rest (plain_env ten_bytes None) ten_bytes
            (default_config 4 0) _ _ [(fifo, 3, None)] fifo 2 latin1
            (serve_faithful ten_bytes) (serve_reliable ten_bytes)
            (default_config_well_formed 4 0 _) latin1_shrinking _ _
            eq_refl eq_refl).
  - lia.
  - reflexivity.
  - vm_compute. split; discriminate.
Defined.

(** X17: out of text mode [download_to_stream(stream, max_concurrency)] on
    a sink that stands at its end appends to it the bytes of the window not
    yet read, under the concurrency it is given and every scheduling, and
    leaves the stream complete. *)
Theorem download_to_stream_appends_the_rest (env : Env) (blob : list byte)
    (cfg : Config) (s0 : Stream) (reqs0 : list Request)
    (calls : list (Oracle * Z * option Z)) (orc : Oracle) (k : Sink)
    (max_concurrency : Z) :
  faithful env blob -> reliable env blob -> well_formed cfg ->
  1 <= max_concurrency <= maxsize ->
  _setup env cfg = (inr s0, reqs0) ->
  let s := reads env s0 calls in
  in_text_mode s = false ->
  (1 < max_concurrency -> sk_seekable k = true) ->
  sk_pos k = len (sk_data k) ->
  exists s' reqs k',
    download_to_stream env orc s k max_concurrency = (Ret tt s' reqs, k') /\
    sk_data k' = (sk_data k ++ window blob s (_read_offset s) (size s))%list /\
    _read_offset s' = size s /\ _download_complete env s' = true.
Proof.
  intros F R Hwf Hmc Hs s Ht Hseek Hpos.
  destruct (setup_inv env blob cfg s0 reqs0 F Hwf Hs) as (HI0 & Hc0 & _).
  destruct (reads_inv env blob F calls s0 HI0) as [HI _]. fold s in HI.
  clearbody s.
  unfold download_to_stream. rewrite Ht.
  set (s1 := set_max_concurrency s max_concurrency).
  assert (HI1 : Inv env blob s1).
  { apply inv_with_config; [exact HI | exact Ht |].
    apply (well_formed_set_max_concurrency s). exact (inv_cfg _ _ _ HI). }
  destruct (readinto_appends env blob orc s1 k F R HI1 Ht Hmc Hseek Hpos)
    as (s' & reqs & k' & E & Hd & Hro & Hcomp).
  rewrite E. exists s', reqs, k'.
  split; [reflexivity |]. split; [exact Hd |]. split; assumption.
Qed.

Lemma download_to_stream_appends_the_rest_witness :
  let env := plain_env ten_bytes None in
  exists s0 reqs0,
    _setup env (default_config 3 0) = (inr s0, reqs0) /\
    let s := reads env s0 [(fifo, 2, None)] in
    exists s' reqs k',
      download_to_stream env out_of_order s (new_sink true) 3 =
        (Ret tt s' reqs, k') /\
      sk_data k' =
        (sk_data (new_sink true) ++
         window ten_bytes s (_read_offset s) (size s))%list /\
      _read_offset s' = size s /\ _download_complete env s' = true.
Proof.
  eexists; eexists. split; [reflexivity |].
  refine (download_to_stream_appends_the_rest (plain_env ten_bytes None)
            ten_bytes (default_config 3 0) _ _ [(fifo, 2, None)] out_of_order
            (new_sink true) 3
            (serve_faithful ten_bytes) (serve_reliable ten_bytes)
            (default_config_well_formed 3 0 _) _ eq_refl eq_refl _ eq_refl).
  - lia.
  - vm_compute. split; discriminate.
  - reflexivity.
Defined.

(** ** [chunks()] after [readinto] *)

(** [readinto] writes to the caller's stream and moves the offsets; the
    buffer, the mode and the first-chunk flag are not touched. *)
Lemma readinto_keeps_buffer (env : Env) (orc : Oracle) (s : Stream) (k : Sink) :
  let s' := outcome_state (fst (readinto env orc s k)) in
  _current_content s' = _current_content s /\
  _first_chunk s' = _first_chunk s /\
  _text_mode s' = _text_mode s.
Proof.
  unfold readinto.
  destruct (in_text_mode s); [repeat split |].
  destruct (_ && negb (sk_seekable k)); [repeat split |].
  destruct (_ <=? 0); [repeat split |].
  destruct (cslice _ _ _) as [piece | t]; [| repeat split].
  destruct (_download_complete env _); [repeat split |].
  destruct (_ || _); [repeat split |].
  destruct (run_events env _ _ _) as [[[e |] k'] reqs]; repeat split.
Qed.

(** X18: [readinto] completes the stream but keeps the first chunk in the
    buffer, and [chunks()] takes a complete stream with its first chunk
    for a blob that fitted the first request: after a [readinto] on a
    fresh stream whose window is longer than the first request, an
    iteration over [chunks()] yields the first [first_get_size] bytes and
    stops, with no request. *)
Theorem chunks_after_readinto_stop_at_the_head (env : Env) (blob : list byte)
    (cfg : Config) (s0 : Stream) (reqs0 : list Request) (orc : Oracle)
    (k : Sink) :
  faithful env blob -> reliable env blob -> well_formed cfg ->
  1 <= _max_concurrency cfg <= maxsize ->
  _setup env cfg = (inr s0, reqs0) ->
  first_get_size cfg < size s0 ->
  (1 < _max_concurrency cfg -> sk_seekable k = true) ->
  sk_pos k = len (sk_data k) ->
  exists s' reqs k' it,
    readinto env orc s0 k = (Ret (size s0) s' reqs, k') /\
    chunks env s' = inr it /\
    exists n, forall fuel, (n <= fuel)%nat ->
      exists yielded,
        iterate fuel env it = Exhausted yielded [] /\
        concat yielded = window blob s0 0 (first_get_size cfg) /\
        len (concat yielded) < size s0.
Proof.
  intros F R Hwf Hmc Hs Hlong Hseek Hpos.
  destruct (setup_inv env blob cfg s0 reqs0 F Hwf Hs)
    as (HI0 & Hc0 & Hm0 & Hfc0 & _).
  destruct (setup_head env blob cfg s0 reqs0 F Hwf Hs)
    as (Hs0 & Hfit & _ & Hdl & Hcont & Hro & _).
  pose proof (inv_window _ _ _ HI0) as (Hds & _ & _).
  pose proof (first_get_size_pos cfg Hwf) as Hf.
  pose proof (inv_cfg _ _ _ HI0) as (_ & Hchunk & _).
  rewrite Z.min_r in Hdl, Hcont by lia.
  assert (Ht0 : in_text_mode s0 = false)
    by (unfold in_text_mode; rewrite Hm0; reflexivity).
  destruct (readinto_appends env blob orc s0 k F R HI0 Ht0
              ltac:(rewrite Hc0; exact Hmc) ltac:(rewrite Hc0; exact Hseek) Hpos)
    as (s' & reqs & k' & E & _ & Hro' & Hcomp).
  rewrite Hro, Z.sub_0_r in E.
  pose proof (readinto_keeps_buffer env orc s0 k) as Hk.
  destruct (call_frame env orc s0 (CallReadinto k)) as [(Hcf & Hsz & _) _].
  cbn [call call_state] in Hcf, Hsz. rewrite E in Hk, Hcf, Hsz.
  cbn [fst outcome_state] in Hk, Hcf, Hsz.
  destruct Hk as (Hc' & Hfc' & Hm').
  set (b := window blob s0 0 (first_get_size cfg)) in *.
  assert (Hlen : len b = first_get_size cfg)
    by (subst b; rewrite len_window; lia).
  exists s', reqs, k'.
  exists {| it_size := size s';
            it_chunk_size := max_chunk_get_size (config s');
            it_current_content := b; it_downloader := None;
            it_iter_chunks := None; it_complete := false |}.
  split; [exact E |]. split.
  - unfold chunks, in_text_mode. rewrite Hm', Hm0, Hfc', Hfc0, Hcomp, Hc', Hcont.
    cbn [negb orb]. rewrite Hsz.
    replace (size s0 =? 0) with false by (symmetry; apply Z.eqb_neq; lia).
    reflexivity.
  - exists (length b + 2)%nat. intros fuel Hfuel.
    destruct (iterate_buffer env (length b)
                {| it_size := size s';
                   it_chunk_size := max_chunk_get_size (config s');
                   it_current_content := b; it_downloader := None;
                   it_iter_chunks := None; it_complete := false |}
                eq_refl eq_refl ltac:(cbn; rewrite Hcf; exact Hchunk)
                (Nat.le_refl _) fuel Hfuel) as (yielded & Ei & Hcat).
    exists yielded. split; [exact Ei |]. cbn in Hcat. rewrite Hcat.
    split; [reflexivity | lia].
Qed.

Lemma chunks_after_readinto_stop_at_the_head_witness :
  let env := plain_env ten_bytes None in
  let cfg := default_config 4 2 in
  exists s0 reqs0,
    _setup env cfg = (inr s0, reqs0) /\
    exists s' reqs k' it,
      readinto env out_of_order s0 (new_sink true) =
        (Ret (size s0) s' reqs, k') /\
      chunks env s' = inr it /\
      exists n, forall fuel, (n <= fuel)%nat ->
        exists yielded,
          iterate fuel env it = Exhausted yielded [] /\
          concat yielded = window ten_bytes s0 0 (first_get_size cfg) /\
          len (concat yielded) < size s0.
Proof.
  eexists; eexists. split; [reflexivity |].
  refine (chunks_after_readinto_stop_at_the_head (plain_env ten_bytes None)
            ten_bytes (default_config 4 2) _ _ out_of_order (new_sink true)
            (serve_faithful ten_bytes) (serve_reliable ten_bytes)
            (default_config_well_formed 4 2 _) _ eq_refl _ _ eq_refl).
  - lia.
  - vm_compute. split; discriminate.
  - reflexivity.
  - reflexivity.
Defined.

(** ** A fetch that fails during a bounded read *)

Lemma failing_from_faithful (blob : list byte) (limit : Z) :
  faithful (failing_from blob limit) blob.
Proof.
  constructor; cbn; try reflexivity.
  - intros a b r Hab. destruct (limit <=? a); [discriminate |]. unfold serve.
    destruct ((0 <=? a) && (a <? len blob)) eqn:E; [| discriminate].
    apply andb_true_iff in E as [_ E]. apply Z.ltb_lt in E.
    intros H; injection H as <-. cbn. auto.
  - intros a b hr Hab. destruct (limit <=? a); [discriminate |]. unfold serve.
    destruct ((0 <=? a) && (a <? len blob)) eqn:E; [discriminate |].
    intros _. apply andb_false_iff in E as [E | E].
    + apply Z.leb_gt in E. lia.
    + apply Z.ltb_ge in E. lia.
  - intros r H; injection H as <-. reflexivity.
  - discriminate.
Qed.

Lemma plan_head (d : Downloader) :
  0 < chunk_size d -> start_index d < end_index d ->
  exists rest, get_chunk_offsets d = start_index d :: rest.
Proof.
  intros Hcs Hlt. pose proof (chunk_count_cover d Hcs) as Hcov.
  unfold get_chunk_offsets.
  destruct (chunk_count d) as [| n]; [cbn in Hcov; lia |].
  cbn [offsets_from]. eauto.
Qed.

(** X19: when the fetch of the next chunk fails during a bounded [read] out
    of text mode, the call raises the error of the service after it has
    taken what was left of the buffer: [read_offset] stands past those
    bytes, which were never returned, so the next [read] goes on after
    them. *)
Theorem failed_fetch_loses_the_buffered_bytes (env : Env) (blob : list byte)
    (cfg : Config) (s0 : Stream) (reqs0 : list Request)
    (calls : list (Oracle * Z * option Z)) (orc : Oracle) (n : Z)
    (status : Z) (has_response : bool) :
  faithful env blob -> well_formed cfg ->
  _setup env cfg = (inr s0, reqs0) ->
  let s := reads env s0 calls in
  let first := _download_start s + _download_offset s in
  let last :=
    Z.min (first + max_chunk_get_size cfg) (_download_start s + size s) - 1 in
  in_text_mode s = false -> _non_empty_ranges s = None ->
  _download_offset s < size s ->
  _download_offset s - _read_offset s < n < maxsize ->
  blob_download env (Some (first, last)) = HttpErr status has_response ->
  exists s',
    read env orc s n None =
      Raise (HttpResponseError status) s' [ReqDownload (Some (first, last))] /\
    _read_offset s' = _download_offset s /\
    _download_offset s' = _download_offset s.
Proof.
  intros F Hwf Hs s first last Ht Hnr Hlt Hn Hfail.
  destruct (setup_inv env blob cfg s0 reqs0 F Hwf Hs) as (HI0 & Hc0 & _).
  destruct (reads_inv env blob F calls s0 HI0) as [HI _]. fold s in HI.
  destruct (reads_same_session env calls s0) as (Hcs & _). fold s in Hcs.
  rewrite Hc0 in Hcs. subst first last. clearbody s.
  pose proof (inv_offsets_ordered _ _ _ HI) as Hord.
  pose proof (inv_cfg _ _ _ HI) as (_ & Hchunk & _).
  pose proof (not_complete env blob s F HI Hlt) as Hnc.
  destruct (buffer_tail env blob s HI Ht) as (b & Hc & Hcur & Hpiece & Hlen & Hb).
  assert (Hu : usage_check s n None = None).
  { unfold usage_check. cbn [is_some]. rewrite !andb_false_r, Ht. reflexivity. }
  unfold read. rewrite Hu.
  replace (n =? 0) with false by (symmetry; apply Z.eqb_neq; lia).
  rewrite Hnc. cbn [is_zero orb andb].
  assert (Hread : forall s1,
            _current_content s1 = CBytes b ->
            _current_content_offset s1 = _current_content_offset s ->
            in_text_mode s1 = false ->
            _download_complete env s1 = false ->
            config s1 = config s -> size s1 = size s ->
            _download_start s1 = _download_start s ->
            _download_offset s1 = _download_offset s ->
            _non_empty_ranges s1 = None ->
            _read_offset s1 = _read_offset s ->
            exists s',
              read_data env orc s1 n None =
                Raise (HttpResponseError status) s'
                  [ReqDownload
                     (Some (_download_start s + _download_offset s,
                            Z.min (_download_start s + _download_offset s +
                                   max_chunk_get_size cfg)
                              (_download_start s + size s) - 1))] /\
              _read_offset s' = _download_offset s /\
              _download_offset s' = _download_offset s).
  { intros s1 Hc1 Hcco1 Ht1 Hnc1 Hcf1 Hsz1 Hds1 Hdl1 Hnr1 Hro1.
    unfold read_data. rewrite Ht1, Hc1, Hcco1.
    replace (n >? 0) with true by (symmetry; apply Z.gtb_lt; lia).
    replace (n =? maxsize) with false by (symmetry; apply Z.eqb_neq; lia).
    cbn [clen andb].
    replace (Z.min (len b - _current_content_offset s) n)
      with (len b - _current_content_offset s) by lia.
    replace (_current_content_offset s + (len b - _current_content_offset s))
      with (len b) by lia.
    cbn [cslice same_kind negb clen].
    rewrite Hpiece, Hlen.
    replace (n - (_download_offset s - _read_offset s) >? 0) with true
      by (symmetry; apply Z.gtb_lt; lia).
    change (_download_complete env (consume s1 ?x))
      with (_download_complete env s1).
    rewrite Hnc1. cbn [andb negb].
    set (s2 := consume s1 (_download_offset s - _read_offset s)).
    set (d := new_downloader s2 _ _ _).
    destruct (plan_head d) as (rest & ->);
      [cbn; rewrite Hcf1; exact Hchunk | cbn; lia |].
    cbn [chunk_loop].
    replace (n - (_download_offset s - _read_offset s) >? 0) with true
      by (symmetry; apply Z.gtb_lt; lia).
    unfold yield_chunk. rewrite calculate_range_min.
    unfold _download_chunk, process_range_and_offset.
    rewrite (fs_plain _ _ F). cbn [fst snd].
    unfold _do_optimize.
    change (dl_non_empty_ranges d) with (_non_empty_ranges s1). rewrite Hnr1.
    change (start_index d) with (_download_start s1 + _download_offset s1).
    change (chunk_size d) with (max_chunk_get_size (config s1)).
    change (end_index d) with (_download_start s1 + size s1).
    rewrite Hcf1, Hcs, Hsz1, Hds1, Hdl1, Hfail.
    eexists. split; [reflexivity |]. cbn. split; lia. }
  unfold enter_mode. rewrite Ht. cbn [negb is_some andb].
  destruct (_text_mode s) as [m |] eqn:Em.
  - apply Hread; try reflexivity; assumption.
  - apply Hread; try reflexivity; assumption.
Qed.

Lemma failed_fetch_loses_the_buffered_bytes_witness :
  let env := failing_from ten_bytes 4 in
  exists s0 reqs0,
    _setup env (default_config 4 1) = (inr s0, reqs0) /\
    let s := reads env s0 [(fifo, 1, None)] in
    exists s',
      read env fifo s 5 None =
        Raise (HttpResponseError 500) s' [ReqDownload (Some (4, 7))] /\
      _read_offset s' = _download_offset s /\
      _download_offset s' = _download_offset s.
Proof.
  eexists; eexists. split; [reflexivity |].
  refine (failed_fetch_loses_the_buffered_bytes (failing_from ten_bytes 4)
            ten_bytes (default_config 4 1) _ _ [(fifo, 1, None)] fifo 5 500 true
            (failing_from_faithful ten_bytes 4)
            (default_config_well_formed 4 1 _) eq_refl eq_refl eq_refl _ _
            eq_refl).
  - lia.
  - vm_compute. reflexivity.
  - vm_compute. split; reflexivity.
Defined.
